(** * CLIProxyAPI: policy, billing and failover core, embedded in Rocq

    The development follows the Go sources package by package:
    - [GoStrings]   the functions of Go's [strings] package the code calls;
    - [Thinking]    [thinking.ParseSuffix];
    - [Policy]      [internal/policy]: model keys, wildcard match, daily limiter;
    - [Billing]     [internal/billing]: prices, cost, usage sink;
    - [Config]      [internal/config]: API-key policies and their sanitiser;
    - [Handlers]    [sdk/api/handlers]: failover eligibility, the execution
                    paths and the error bodies;
    - [Middleware]  [internal/api/middleware]: the policy middleware;
    - [Management]  [internal/api/handlers/management]: the policy endpoints.
    The modules [*Spec] and [Scenario] hold the notions the properties are
    stated with and the scenarios of the repository's tests; the modules
    [*Facts] and [*Extra] hold the properties.

    Go strings are byte strings; they are modelled by [string], whose
    characters are 8-bit.  Case mapping and white space are the ASCII ones:
    model names, keys and patterns are ASCII text, and bytes above 0x7f are
    left as they are.  Go's [int] and SQLite's INTEGER are [Z] where the code
    only compares and increments them; [int64] arithmetic wraps around.
    Storage failures, the clock, map iteration order, JSON decoding and the
    credential manager are parameters of the functions that meet them.
    Logging is left out. *)

From Stdlib Require Import ZArith Ascii String List Bool Lia QArith Qround.
From stdpp Require Import gmap strings list fin_maps.

Local Open Scope string_scope.

(* ===================================================================== *)
(** ** Go's [strings] package *)
(* ===================================================================== *)

Module GoStrings.

(** [unicode.IsSpace] on the ASCII range: '\t', '\n', '\v', '\f', '\r', ' '. *)
Definition is_space (c : ascii) : bool :=
  let n := nat_of_ascii c in
  ((9 <=? n)%nat && (n <=? 13)%nat) || (n =? 32)%nat.

Definition is_upper (c : ascii) : bool :=
  let n := nat_of_ascii c in (65 <=? n)%nat && (n <=? 90)%nat.

Definition lower_ascii (c : ascii) : ascii :=
  if is_upper c then ascii_of_nat (nat_of_ascii c + 32) else c.

(** [strings.ToLower]. *)
Fixpoint ToLower (s : string) : string :=
  match s with
  | EmptyString => EmptyString
  | String c s' => String (lower_ascii c) (ToLower s')
  end.

Fixpoint TrimLeft (s : string) : string :=
  match s with
  | EmptyString => EmptyString
  | String c s' => if is_space c then TrimLeft s' else s
  end.

Fixpoint TrimRight (s : string) : string :=
  match s with
  | EmptyString => EmptyString
  | String c s' =>
      match TrimRight s' with
      | EmptyString => if is_space c then EmptyString else String c EmptyString
      | r => String c r
      end
  end.

(** [strings.TrimSpace]: leading and trailing white space removed. *)
Definition TrimSpace (s : string) : string := TrimRight (TrimLeft s).

(** [len(s)]. *)
Definition len (s : string) : nat := String.length s.

(** [s[n:]] and [s[:n]] for [n <= len(s)]. *)
Fixpoint slice_from (n : nat) (s : string) : string :=
  match n, s with
  | O, _ => s
  | S n', String _ s' => slice_from n' s'
  | S _, EmptyString => EmptyString
  end.

Fixpoint slice_to (n : nat) (s : string) : string :=
  match n, s with
  | O, _ => EmptyString
  | S n', String c s' => String c (slice_to n' s')
  | S _, EmptyString => EmptyString
  end.

(** [strings.HasPrefix(s, prefix)]. *)
Fixpoint HasPrefix (s prefix : string) {struct prefix} : bool :=
  match prefix, s with
  | EmptyString, _ => true
  | String a p', String b s' => Ascii.eqb a b && HasPrefix s' p'
  | String _ _, EmptyString => false
  end.

(** [strings.HasSuffix(s, suffix)]. *)
Definition HasSuffix (s suffix : string) : bool :=
  (len suffix <=? len s)%nat &&
  String.eqb (slice_from (len s - len suffix) s) suffix.

(** [strings.TrimSuffix(s, suffix)]. *)
Definition TrimSuffix (s suffix : string) : string :=
  if HasSuffix s suffix then slice_to (len s - len suffix) s else s.

(** [strings.Contains(s, substr)]. *)
Fixpoint Contains (s substr : string) : bool :=
  HasPrefix s substr ||
  match s with
  | EmptyString => false
  | String _ s' => Contains s' substr
  end.

(** [strings.Index(s, substr)]: first position, or -1. *)
Fixpoint Index (s substr : string) : Z :=
  if HasPrefix s substr then 0%Z
  else match s with
       | EmptyString => (-1)%Z
       | String _ s' =>
           let i := Index s' substr in
           if (i <? 0)%Z then (-1)%Z else (i + 1)%Z
       end.

(** [strings.LastIndex(s, string(c))] for a one-byte needle: last position, or -1. *)
Fixpoint LastIndexByte (s : string) (c : ascii) : Z :=
  match s with
  | EmptyString => (-1)%Z
  | String a s' =>
      let i := LastIndexByte s' c in
      if (0 <=? i)%Z then (i + 1)%Z
      else if Ascii.eqb a c then 0%Z else (-1)%Z
  end.

(** [strings.Split(s, string(sep))] for a one-byte separator: the pieces
    between the occurrences of [sep]; never empty. *)
Fixpoint Split (s : string) (sep : ascii) : list string :=
  match s with
  | EmptyString => [EmptyString]
  | String c s' =>
      if Ascii.eqb c sep then EmptyString :: Split s' sep
      else match Split s' sep with
           | [] => [String c EmptyString]
           | p :: ps => String c p :: ps
           end
  end.

End GoStrings.

(* ===================================================================== *)
(** ** [internal/thinking] *)
(* ===================================================================== *)

Module Thinking.
Import GoStrings.

Record SuffixResult := {
  ModelName : string;
  HasSuffix : bool;
  RawSuffix : string
}.

(** Modelled from the spec: [thinking.ParseSuffix] is called by the policy
    and handler code but its source file is not part of the sources at hand.
    The spec gives [parse_thinking_suffix(raw) -> (model, suffix?, raw_suffix)]
    on names of the form [name(suffix)], the thinking-budget suffix being the
    trailing [(...)] group: the name must end in [')'] and the suffix starts
    at its last ['(']. A name without such a group is returned whole. *)
Definition ParseSuffix (model : string) : SuffixResult :=
  let lastOpen := LastIndexByte model "("%char in
  if (lastOpen <? 0)%Z then
    {| ModelName := model; HasSuffix := false; RawSuffix := "" |}
  else if negb (GoStrings.HasSuffix model ")") then
    {| ModelName := model; HasSuffix := false; RawSuffix := "" |}
  else
    {| ModelName := slice_to (Z.to_nat lastOpen) model;
       HasSuffix := true;
       RawSuffix := slice_to (len model - 1 - (Z.to_nat lastOpen + 1))
                             (slice_from (Z.to_nat lastOpen + 1) model) |}.

End Thinking.

(* ===================================================================== *)
(** ** [internal/policy]: model keys *)
(* ===================================================================== *)

Module Policy.
Import GoStrings.

Definition claudeOpus46Prefix : string := "claude-opus-4-6".
Definition claudeOpus45FallbackPrefix : string := "claude-opus-4-5-20251101".
Definition claudeThinkingSuffixLiteral : string := "-thinking".

(** NormaliseModelKey returns a lowercased model name without thinking
    budget suffix "(...)". *)
Definition NormaliseModelKey (model : string) : string :=
  let parsed := Thinking.ParseSuffix (TrimSpace model) in
  ToLower (TrimSpace (Thinking.ModelName parsed)).

(** DowngradeClaudeOpus46 rewrites claude-opus-4-6* to
    claude-opus-4-5-20251101*. *)
Definition DowngradeClaudeOpus46 (model : string) : string * bool :=
  let trimmed := TrimSpace model in
  if String.eqb trimmed "" then (model, false)
  else
    let parsed := Thinking.ParseSuffix trimmed in
    let base := Thinking.ModelName parsed in
    let baseLower := ToLower (TrimSpace base) in
    if negb (HasPrefix baseLower claudeOpus46Prefix) then (model, false)
    else
      let remainder :=
        if (len claudeOpus46Prefix <=? len base)%nat
        then slice_from (len claudeOpus46Prefix) base
        else "" in
      let rewritten := claudeOpus45FallbackPrefix ++ remainder in
      let rewritten :=
        if Thinking.HasSuffix parsed
        then rewritten ++ "(" ++ Thinking.RawSuffix parsed ++ ")"
        else rewritten in
      (rewritten, true).

Definition IsClaudeOpus46 (model : string) : bool :=
  HasPrefix (NormaliseModelKey model) claudeOpus46Prefix.

(** The loop over the inner segments [parts[1 .. len(parts)-2]] of
    [MatchWildcard]: each non-empty segment is searched from the left and
    the value continues after it. *)
Fixpoint matchSegments (segments : list string) (value : string) : bool :=
  match segments with
  | [] => true
  | segment :: rest =>
      if String.eqb segment "" then matchSegments rest value
      else
        let idx := Index value segment in
        if (idx <? 0)%Z then false
        else matchSegments rest
               (slice_from (Z.to_nat (idx + Z.of_nat (len segment))) value)
  end.

(** MatchWildcard performs case-insensitive matching where '*' matches any
    substring. *)
Definition MatchWildcard (pattern value : string) : bool :=
  let pattern := ToLower (TrimSpace pattern) in
  let value := ToLower (TrimSpace value) in
  if String.eqb pattern "" || String.eqb value "" then false
  else if negb (Contains pattern "*") then String.eqb pattern value
  else
    let parts := Split pattern "*"%char in
    let prefix := hd "" parts in
    let suffix := List.last parts "" in
    if negb (String.eqb prefix "") && negb (HasPrefix value prefix) then false
    else
      let value :=
        if negb (String.eqb prefix "") then slice_from (len prefix) value
        else value in
      if negb (String.eqb suffix "") && negb (HasSuffix value suffix) then false
      else
        let value :=
          if negb (String.eqb suffix "")
          then slice_to (len value - len suffix) value
          else value in
        (* parts[1 : len(parts)-1] *)
        matchSegments (removelast (tl parts)) value.

(** StripThinkingVariant maps "-thinking" models to their non-thinking base. *)
Definition StripThinkingVariant (modelKey : string) : string :=
  let trimmed := ToLower (TrimSpace modelKey) in
  TrimSuffix trimmed claudeThinkingSuffixLiteral.

(** *** The daily limiter ([sqlite_daily_limiter.go]) *)

(** A row of table [api_model_daily_usage]; its primary key
    [(api_key, model, day)] is the key of the map. *)
Record LimitRow := { count : Z; updated_at : Z }.

Record SQLiteDailyLimiter := {
  db : option (gmap (string * string * string) LimitRow)
}.

(** The statement of [Consume], run on the table:
<<
  INSERT INTO api_model_daily_usage (api_key, model, day, count, updated_at)
  VALUES (?, ?, ?, 1, ?)
  ON CONFLICT(api_key, model, day)
  DO UPDATE SET count = count + 1, updated_at = excluded.updated_at
  WHERE api_model_daily_usage.count < ?
  RETURNING count
>>
    The result is the returned row, if any ([None] is [sql.ErrNoRows]). *)
Definition consumeStmt (t : gmap (string * string * string) LimitRow)
    (apiKey model dayKey : string) (nowUnix limit : Z)
  : option Z * gmap (string * string * string) LimitRow :=
  match t !! (apiKey, model, dayKey) with
  | None =>
      (Some 1%Z, <[(apiKey, model, dayKey) := {| count := 1; updated_at := nowUnix |}]> t)
  | Some r =>
      if (count r <? limit)%Z
      then (Some (count r + 1)%Z,
            <[(apiKey, model, dayKey) :=
                {| count := count r + 1; updated_at := nowUnix |}]> t)
      else (None, t)
  end.

(** Consume increments the counter for (apiKey, model, dayKey) by 1 if doing
    so does not exceed limit.  [fault] is the error, if any, that the storage
    layer reports for the statement (anything but [sql.ErrNoRows]); a failed
    statement leaves the table as it was.  [nowUnix] is [time.Now().UTC().Unix()].
    The result is [(count, allowed, err)] and the limiter afterwards. *)
Definition Consume (l : option SQLiteDailyLimiter) (fault : option string)
    (nowUnix : Z) (apiKey model dayKey : string) (limit : Z)
  : (Z * bool * option string) * option SQLiteDailyLimiter :=
  match l with
  | None => ((0%Z, false, Some "sqlite limiter: not initialized"), l)
  | Some lim =>
      match db lim with
      | None => ((0%Z, false, Some "sqlite limiter: not initialized"), l)
      | Some t =>
          let apiKey := TrimSpace apiKey in
          let model := ToLower (TrimSpace model) in
          let dayKey := TrimSpace dayKey in
          if String.eqb apiKey "" || String.eqb model "" || String.eqb dayKey ""
          then ((0%Z, false, Some "sqlite limiter: invalid inputs"), l)
          else if (limit <=? 0)%Z then ((0%Z, false, None), l)
          else
            match fault with
            | Some e =>
                ((0%Z, false, Some ("sqlite limiter: consume failed: " ++ e)), l)
            | None =>
                match consumeStmt t apiKey model dayKey nowUnix limit with
                | (None, t') => ((limit, false, None), Some {| db := Some t' |})
                | (Some c, t') => ((c, true, None), Some {| db := Some t' |})
                end
            end
      end
  end.

(** [n] successive calls of [Consume] with the same arguments, at the times
    [nows]; the results are listed in call order. *)
Fixpoint ConsumeMany (l : option SQLiteDailyLimiter) (nows : list Z)
    (apiKey model dayKey : string) (limit : Z)
  : list (Z * bool * option string) * option SQLiteDailyLimiter :=
  match nows with
  | [] => ([], l)
  | now :: rest =>
      let '(r, l') := Consume l None now apiKey model dayKey limit in
      let '(rs, l'') := ConsumeMany l' rest apiKey model dayKey limit in
      (r :: rs, l'')
  end.


End Policy.

(* ===================================================================== *)
(** ** [internal/billing] *)
(* ===================================================================== *)

Module Billing.
Import GoStrings.

(** Go's [int64]: a [Z] reduced to the signed 64-bit range after each
    arithmetic operation. *)
Definition min_int64 : Z := - 2 ^ 63.
Definition max_int64 : Z := 2 ^ 63 - 1.
Definition wrap64 (z : Z) : Z := (z + 2 ^ 63) mod 2 ^ 64 - 2 ^ 63.
Definition add64 (a b : Z) : Z := wrap64 (a + b).
Definition sub64 (a b : Z) : Z := wrap64 (a - b).
Definition mul64 (a b : Z) : Z := wrap64 (a * b).
(** Go's [/] truncates toward zero. *)
Definition div64 (a b : Z) : Z := wrap64 (Z.quot a b).

(** PriceMicroUSDPer1M stores USD pricing in micro-dollars per 1M tokens. *)
Record PriceMicroUSDPer1M := {
  Prompt : Z;
  Completion : Z;
  Cached : Z
}.

Definition zeroPrice : PriceMicroUSDPer1M :=
  {| Prompt := 0; Completion := 0; Cached := 0 |}.

Record DailyUsageRow := {
  Requests : Z;
  FailedRequests : Z;
  InputTokens : Z;
  OutputTokens : Z;
  ReasoningTokens : Z;
  CachedTokens : Z;
  TotalTokens : Z;
  CostMicroUSD : Z;
  UpdatedAt : Z
}.

Definition tokensPerMillion : Z := 1000000.

Definition costMicroUSD (tokens microUSDPer1M : Z) : Z :=
  if (tokens <=? 0)%Z || (microUSDPer1M <=? 0)%Z then 0%Z
  else
    (* Round to nearest micro-USD at the end. *)
    div64 (add64 (mul64 tokens microUSDPer1M) (div64 tokensPerMillion 2))
          tokensPerMillion.

Definition max64 (a b : Z) : Z := if (a >? b)%Z then a else b.

Definition boolToInt64 (v : bool) : Z := if v then 1%Z else 0%Z.

(** DefaultPrices provides a built-in fallback table when no saved override
    exists. *)
Definition DefaultPrices : gmap string PriceMicroUSDPer1M :=
  {[ Policy.NormaliseModelKey "claude-opus-4-5-20251101" :=
       {| Prompt := 5000000; Completion := 25000000; Cached := 500000 |} ]}.

(** The two tables of the billing database: [model_prices], keyed by model,
    holding the three rates and [updated_at]; [api_key_model_daily_usage],
    keyed by [(api_key, model, day)]. *)
Record DB := {
  model_prices : gmap string (PriceMicroUSDPer1M * Z);
  daily_usage : gmap (string * string * string) DailyUsageRow
}.

Record SQLiteStore := { db : option DB }.

(** The open database of a store, [None] for [s == nil || s.db == nil]. *)
Definition openDB (s : option SQLiteStore) : option DB :=
  match s with
  | None => None
  | Some st => db st
  end.

(** [getSavedPriceMicro]: the row of [model_prices] for [modelKey].
    [queryErr k] is the error, if any, that the storage layer reports for the
    query on key [k].  The result is [(price, ok, updatedAt, err)]. *)
Definition getSavedPriceMicro (s : option SQLiteStore)
    (queryErr : string -> option string) (modelKey : string)
  : PriceMicroUSDPer1M * bool * Z * option string :=
  match openDB s with
  | None => (zeroPrice, false, 0%Z, Some "billing sqlite: not initialized")
  | Some d =>
      match queryErr modelKey with
      | Some e => (zeroPrice, false, 0%Z, Some ("billing sqlite: query price: " ++ e))
      | None =>
          match model_prices d !! modelKey with
          | None => (zeroPrice, false, 0%Z, None)
          | Some (p, updated) => (p, true, updated, None)
          end
      end
  end.

(** The tail of [ResolvePriceMicro], from the lookups in [DefaultPrices] on. *)
Definition resolveDefault (modelKey baseKey : string)
  : PriceMicroUSDPer1M * string * Z * option string :=
  match DefaultPrices !! modelKey with
  | Some v => (v, "default", 0%Z, None)
  | None =>
      if negb (String.eqb baseKey "") && negb (String.eqb baseKey modelKey)
      then match DefaultPrices !! baseKey with
           | Some v => (v, "default", 0%Z, None)
           | None => (zeroPrice, "missing", 0%Z, None)
           end
      else (zeroPrice, "missing", 0%Z, None)
  end.

(** [ResolvePriceMicro]: the result is [(price, source, updatedAt, err)]. *)
Definition ResolvePriceMicro (s : option SQLiteStore)
    (queryErr : string -> option string) (model : string)
  : PriceMicroUSDPer1M * string * Z * option string :=
  let modelKey := Policy.NormaliseModelKey model in
  if String.eqb modelKey "" then
    (zeroPrice, "", 0%Z, Some "billing sqlite: model is required")
  else
    let baseKey := Policy.StripThinkingVariant modelKey in
    match openDB s with
    | Some _ =>
        match getSavedPriceMicro s queryErr modelKey with
        | (_, _, _, Some errGet) => (zeroPrice, "", 0%Z, Some errGet)
        | (saved, true, updated, None) => (saved, "saved", updated, None)
        | (_, false, _, None) =>
            if negb (String.eqb baseKey "") && negb (String.eqb baseKey modelKey)
            then
              match getSavedPriceMicro s queryErr baseKey with
              | (_, _, _, Some errGet) => (zeroPrice, "", 0%Z, Some errGet)
              | (saved, true, updated, None) => (saved, "saved", updated, None)
              | (_, false, _, None) => resolveDefault modelKey baseKey
              end
            else resolveDefault modelKey baseKey
        end
    | None => resolveDefault modelKey baseKey
    end.

(** [UpsertModelPrice]: the result is the error, if any, and the store
    afterwards. *)
Definition UpsertModelPrice (s : option SQLiteStore) (fault : option string)
    (now : Z) (model : string) (price : PriceMicroUSDPer1M)
  : option string * option SQLiteStore :=
  match openDB s with
  | None => (Some "billing sqlite: not initialized", s)
  | Some d =>
      let key := Policy.NormaliseModelKey model in
      if String.eqb key "" then (Some "billing sqlite: model is required", s)
      else if (Prompt price <? 0)%Z || (Completion price <? 0)%Z || (Cached price <? 0)%Z
      then (Some "billing sqlite: invalid price", s)
      else
        match fault with
        | Some e => (Some ("billing sqlite: upsert model price: " ++ e), s)
        | None =>
            (None,
             Some {| db := Some {| model_prices := <[key := (price, now)]> (model_prices d);
                                   daily_usage := daily_usage d |} |})
        end
  end.

(** The statement of [AddUsage] on one row: a new row holds the values, an
    existing row has them added, and [updated_at] is replaced.  The sums are
    those of SQLite on INTEGER columns, taken here without a bound. *)
Definition addUsageRow (old : option DailyUsageRow) (v : DailyUsageRow) : DailyUsageRow :=
  match old with
  | None => v
  | Some r =>
      {| Requests := Requests r + Requests v;
         FailedRequests := FailedRequests r + FailedRequests v;
         InputTokens := InputTokens r + InputTokens v;
         OutputTokens := OutputTokens r + OutputTokens v;
         ReasoningTokens := ReasoningTokens r + ReasoningTokens v;
         CachedTokens := CachedTokens r + CachedTokens v;
         TotalTokens := TotalTokens r + TotalTokens v;
         CostMicroUSD := CostMicroUSD r + CostMicroUSD v;
         UpdatedAt := UpdatedAt v |}
  end.

(** [AddUsage]: the result is the error, if any, and the store afterwards. *)
Definition AddUsage (s : option SQLiteStore) (fault : option string) (now : Z)
    (apiKey model dayKey : string) (delta : DailyUsageRow)
  : option string * option SQLiteStore :=
  match openDB s with
  | None => (Some "billing sqlite: not initialized", s)
  | Some d =>
      let apiKey := TrimSpace apiKey in
      let modelKey := Policy.NormaliseModelKey model in
      let dayKey := TrimSpace dayKey in
      if String.eqb apiKey "" || String.eqb modelKey "" || String.eqb dayKey ""
      then (Some "billing sqlite: invalid inputs", s)
      else if (Requests delta <? 0)%Z || (FailedRequests delta <? 0)%Z
      then (Some "billing sqlite: invalid request deltas", s)
      else
        match fault with
        | Some e => (Some ("billing sqlite: add usage: " ++ e), s)
        | None =>
            let v := {| Requests := max64 0 (Requests delta);
                        FailedRequests := max64 0 (FailedRequests delta);
                        InputTokens := max64 0 (InputTokens delta);
                        OutputTokens := max64 0 (OutputTokens delta);
                        ReasoningTokens := max64 0 (ReasoningTokens delta);
                        CachedTokens := max64 0 (CachedTokens delta);
                        TotalTokens := max64 0 (TotalTokens delta);
                        CostMicroUSD := max64 0 (CostMicroUSD delta);
                        UpdatedAt := now |} in
            let k := (apiKey, modelKey, dayKey) in
            (None,
             Some {| db := Some {| model_prices := model_prices d;
                                   daily_usage :=
                                     <[k := addUsageRow (daily_usage d !! k) v]> (daily_usage d) |} |})
        end
  end.

(** [coreusage.Detail] and [coreusage.Record], with the fields the sink reads.
    [RequestedAt] is [None] for the zero time. *)
Record Detail := {
  dInputTokens : Z;
  dOutputTokens : Z;
  dReasoningTokens : Z;
  dCachedTokens : Z;
  dTotalTokens : Z
}.

Record UsageRecord := {
  rAPIKey : string;
  rModel : string;
  rRequestedAt : option Z;
  rFailed : bool;
  rDetail : Detail
}.

Record UsagePersistPlugin := { store : option SQLiteStore }.

Section UsageSink.

(** [policy.DayKeyChina]: the YYYY-MM-DD key in UTC+8 of an instant; the
    calendar arithmetic is that of Go's [time] package. *)
Variable DayKeyChina : Z -> string.

(** [HandleUsage].  [now] is the clock, [queryErr] and [fault] are the
    errors, if any, of the price queries and of the final statement.  The
    result is the store afterwards. *)
Definition HandleUsage (p : option UsagePersistPlugin)
    (queryErr : string -> option string) (fault : option string) (now : Z)
    (record : UsageRecord) : option SQLiteStore :=
  match p with
  | None => None
  | Some pl =>
      match openDB (store pl) with
      | None => store pl
      | Some _ =>
          let apiKey := TrimSpace (rAPIKey record) in
          if String.eqb apiKey "" then store pl
          else
            let modelKey := Policy.NormaliseModelKey (rModel record) in
            let modelKey := if String.eqb modelKey "" then "unknown" else modelKey in
            let ts := match rRequestedAt record with None => now | Some t => t end in
            let dayKey := DayKeyChina ts in
            let detail := rDetail record in
            let total :=
              if (dTotalTokens detail =? 0)%Z
              then add64 (add64 (add64 (dInputTokens detail) (dOutputTokens detail))
                                (dReasoningTokens detail))
                         (dCachedTokens detail)
              else dTotalTokens detail in
            let total := if (total <? 0)%Z then 0%Z else total in
            let promptTokens := sub64 (dInputTokens detail) (dCachedTokens detail) in
            let promptTokens := if (promptTokens <? 0)%Z then 0%Z else promptTokens in
            let completionTokens := add64 (dOutputTokens detail) (dReasoningTokens detail) in
            match ResolvePriceMicro (store pl) queryErr modelKey with
            | (_, _, _, Some _) => store pl
            | (price, _, _, None) =>
                let cost := 0%Z in
                let cost := add64 cost (costMicroUSD promptTokens (Prompt price)) in
                let cost := add64 cost (costMicroUSD (dCachedTokens detail) (Cached price)) in
                let cost := add64 cost (costMicroUSD completionTokens (Completion price)) in
                let delta :=
                  {| Requests := 1;
                     FailedRequests := boolToInt64 (rFailed record);
                     InputTokens := max64 0 (dInputTokens detail);
                     OutputTokens := max64 0 (dOutputTokens detail);
                     ReasoningTokens := max64 0 (dReasoningTokens detail);
                     CachedTokens := max64 0 (dCachedTokens detail);
                     TotalTokens := max64 0 total;
                     CostMicroUSD := max64 0 cost;
                     UpdatedAt := 0 |} in
                snd (AddUsage (store pl) fault now apiKey modelKey dayKey delta)
          end
      end
  end.

End UsageSink.

(** *** More of the store ([sqlite_store.go]) *)

(** [DeleteModelPrice]: the result is [(deleted, err)], [deleted] telling
    whether a row was affected, and the store afterwards. *)
Definition DeleteModelPrice (s : option SQLiteStore) (fault : option string)
    (model : string) : (bool * option string) * option SQLiteStore :=
  match openDB s with
  | None => ((false, Some "billing sqlite: not initialized"), s)
  | Some d =>
      let key := Policy.NormaliseModelKey model in
      if String.eqb key "" then ((false, Some "billing sqlite: model is required"), s)
      else
        match fault with
        | Some e => ((false, Some ("billing sqlite: delete model price: " ++ e)), s)
        | None =>
            ((match model_prices d !! key with Some _ => true | None => false end, None),
             Some {| db := Some {| model_prices := delete key (model_prices d);
                                   daily_usage := daily_usage d |} |})
        end
  end.

(** [SELECT COALESCE(SUM(cost_micro_usd), 0) ... WHERE api_key = ? AND day = ?]:
    the sum over the rows of that key and day, in any order; it is SQLite's
    on an INTEGER column, taken here without a bound. *)
Definition sumDailyCost (apiKey dayKey : string)
    (usage : gmap (string * string * string) DailyUsageRow) : Z :=
  map_fold (fun (k : string * string * string) (r : DailyUsageRow) (acc : Z) =>
              let '(a, _, d) := k in
              if String.eqb a apiKey && String.eqb d dayKey
              then (acc + CostMicroUSD r)%Z else acc)
           0%Z usage.

(** [GetDailyCostMicroUSD]: the result is [(total, err)]. *)
Definition GetDailyCostMicroUSD (s : option SQLiteStore) (fault : option string)
    (apiKey dayKey : string) : Z * option string :=
  match openDB s with
  | None => (0%Z, Some "billing sqlite: not initialized")
  | Some d =>
      let apiKey := TrimSpace apiKey in
      let dayKey := TrimSpace dayKey in
      if String.eqb apiKey "" || String.eqb dayKey ""
      then (0%Z, Some "billing sqlite: invalid inputs")
      else
        match fault with
        | Some e => (0%Z, Some ("billing sqlite: daily cost: " ++ e))
        | None => (sumDailyCost apiKey dayKey (daily_usage d), None)
        end
  end.

End Billing.

(* ===================================================================== *)
(** ** [internal/config]: API-key policies *)
(* ===================================================================== *)

Module Config.
Import GoStrings.

(** Go's [float64], by class: not-a-number, an infinity, or a number.  The
    code only compares budgets with zero and replaces them by zero. *)
Inductive float64 :=
| FNaN
| FInf (negative : bool)
| FNum (q : Q).

(** [f <= 0] and [f >= 0]; every comparison with NaN is false. *)
Definition f64_le0 (f : float64) : bool :=
  match f with
  | FNaN => false
  | FInf negative => negative
  | FNum q => Qle_bool q 0
  end.

Definition f64_ge0 (f : float64) : bool :=
  match f with
  | FNaN => false
  | FInf negative => negb negative
  | FNum q => Qle_bool 0 q
  end.

Definition f64_zero : float64 := FNum 0.

(** ModelFailoverRule defines a model-specific failover target. *)
Record ModelFailoverRule := {
  FromModel : string;
  RuleTargetModel : string
}.

(** ProviderFailoverPolicy defines per-provider automatic failover settings. *)
Record ProviderFailoverPolicy := {
  Enabled : bool;
  TargetModel : string;
  Rules : list ModelFailoverRule
}.

Record APIKeyFailoverPolicy := { Claude : ProviderFailoverPolicy }.

(** APIKeyPolicy defines restrictions and quotas applied to an authenticated
    client API key.  [DailyLimits] is a Go map; a nil map is the empty map. *)
Record APIKeyPolicy := {
  APIKey : string;
  ExcludedModels : list string;
  Failover : APIKeyFailoverPolicy;
  AllowClaudeOpus46 : option bool;
  DailyLimits : gmap string Z;
  DailyBudgetUSD : float64
}.

Definition AllowsClaudeOpus46 (p : option APIKeyPolicy) : bool :=
  match p with
  | None => true
  | Some pol => match AllowClaudeOpus46 pol with None => true | Some b => b end
  end.

(** ClaudeFailoverTargetModel resolves the configured Claude failover target
    model.  Returns ("", false) when failover is disabled. *)
Definition ClaudeFailoverTargetModel (p : option APIKeyPolicy) : string * bool :=
  match p with
  | None => ("", false)
  | Some pol =>
      if negb (Enabled (Claude (Failover pol))) then ("", false)
      else
        let target := TrimSpace (TargetModel (Claude (Failover pol))) in
        let target := if String.eqb target "" then "gpt-5.2(high)" else target in
        (target, true)
  end.

(** FindAPIKeyPolicy returns the APIKeyPolicy matching the provided key. *)
Definition FindAPIKeyPolicy (policies : list APIKeyPolicy) (apiKey : string)
  : option APIKeyPolicy :=
  let key := TrimSpace apiKey in
  if String.eqb key "" then None
  else List.find (fun p => String.eqb (TrimSpace (APIKey p)) key) policies.

Section Sanitize.

(** [NormalizeExcludedModels] lives in another file of the package. *)
Variable NormalizeExcludedModels : list string -> list string.

(** The order in which [range] visits the entries of a map; Go leaves it
    unspecified. *)
Variable rangeMap : gmap string Z -> list (string * Z).

(** The failover rules kept by [SanitizeAPIKeyPolicies]. *)
Fixpoint sanitizeRules (rules : list ModelFailoverRule) : list ModelFailoverRule :=
  match rules with
  | [] => []
  | rule :: rest =>
      let rule := {| FromModel := TrimSpace (FromModel rule);
                     RuleTargetModel := TrimSpace (RuleTargetModel rule) |} in
      if String.eqb (FromModel rule) "" || String.eqb (RuleTargetModel rule) ""
      then sanitizeRules rest
      else rule :: sanitizeRules rest
  end.

(** The loop [for modelID, limit := range entry.DailyLimits] filling
    [normalized]. *)
Fixpoint normalizeLimits (entries : list (string * Z)) (normalized : gmap string Z)
  : gmap string Z :=
  match entries with
  | [] => normalized
  | (modelID, limit) :: rest =>
      let m := ToLower (TrimSpace modelID) in
      if String.eqb m "" then normalizeLimits rest normalized
      else if (limit <=? 0)%Z then normalizeLimits rest normalized
      else normalizeLimits rest (<[m := limit]> normalized)
  end.

(** What one turn of the loop of [SanitizeAPIKeyPolicies] makes of an entry
    whose key is not blank. *)
Definition sanitizeEntry (entry : APIKeyPolicy) : APIKeyPolicy :=
  let claude := Claude (Failover entry) in
  {| APIKey := TrimSpace (APIKey entry);
     ExcludedModels := NormalizeExcludedModels (ExcludedModels entry);
     Failover :=
       {| Claude :=
            {| Enabled := Enabled claude;
               TargetModel := TrimSpace (TargetModel claude);
               Rules := if (0 <? length (Rules claude))%nat
                        then sanitizeRules (Rules claude)
                        else Rules claude |} |};
     AllowClaudeOpus46 := AllowClaudeOpus46 entry;
     DailyLimits :=
       if (0 <? size (DailyLimits entry))%nat
       then normalizeLimits (rangeMap (DailyLimits entry)) ∅
       else DailyLimits entry;
     DailyBudgetUSD :=
       if f64_le0 (DailyBudgetUSD entry) then f64_zero else DailyBudgetUSD entry |}.

(** One turn of the loop, on [seen] and [out]. *)
Definition sanitizeStep (acc : gmap string nat * list APIKeyPolicy) (entry : APIKeyPolicy)
  : gmap string nat * list APIKeyPolicy :=
  let '(seen, out) := acc in
  if String.eqb (TrimSpace (APIKey entry)) "" then acc
  else
    let entry := sanitizeEntry entry in
    let key := APIKey entry in
    match seen !! key with
    | Some idx => (seen, <[idx := entry]> out)
    | None => (<[key := length out]> seen, (out ++ [entry])%list)
    end.

(** SanitizeAPIKeyPolicies trims keys, normalizes excluded-model patterns,
    and drops invalid limits.  The argument and the result are
    [cfg.APIKeyPolicies] before and after. *)
Definition SanitizeAPIKeyPolicies (policies : list APIKeyPolicy) : list APIKeyPolicy :=
  if (length policies =? 0)%nat then policies
  else snd (fold_left sanitizeStep policies (∅, [])).

End Sanitize.

(** The loop over the rules in [ClaudeFailoverTargetModelFor]: the target of
    the first rule whose pattern matches and whose target is not blank. *)
Fixpoint firstRuleTarget (rules : list ModelFailoverRule) (requestKey : string)
  : option string :=
  match rules with
  | [] => None
  | rule :: rest =>
      let from := ToLower (TrimSpace (FromModel rule)) in
      if String.eqb from "" then firstRuleTarget rest requestKey
      else if negb (Policy.MatchWildcard from requestKey) then firstRuleTarget rest requestKey
      else
        let target := TrimSpace (RuleTargetModel rule) in
        if String.eqb target "" then firstRuleTarget rest requestKey
        else Some target
  end.

(** ClaudeFailoverTargetModelFor resolves the configured Claude failover
    target model for a specific request.  Rules are evaluated first; when no
    rules match, it falls back to ClaudeFailoverTargetModel(). *)
Definition ClaudeFailoverTargetModelFor (p : option APIKeyPolicy) (requestedModel : string)
  : string * bool :=
  match p with
  | None => ("", false)
  | Some pol =>
      if negb (Enabled (Claude (Failover pol))) then ("", false)
      else
        let requestKey := Policy.NormaliseModelKey requestedModel in
        if negb (String.eqb requestKey "") && (0 <? length (Rules (Claude (Failover pol))))%nat
        then match firstRuleTarget (Rules (Claude (Failover pol))) requestKey with
             | Some target => (target, true)
             | None => ClaudeFailoverTargetModel p
             end
        else ClaudeFailoverTargetModel p
  end.

(** [f > 0]. *)
Definition f64_gt0 (f : float64) : bool :=
  match f with
  | FNaN => false
  | FInf negative => negb negative
  | FNum q => negb (Qle_bool q 0)
  end.

End Config.

(* ===================================================================== *)
(** ** [sdk/api/handlers] *)
(* ===================================================================== *)

Module Handlers.
Import GoStrings.

(** [[]byte]; [nil] and the empty slice are the same value here. *)
Abbreviation bytes := string.

(** [http.Header]. *)
Abbreviation Header := (list (string * list string)).

(** A non-nil value of Go's [error] interface: the text of [Error()], the
    result of [StatusCode()] when the value has that method, and the result
    of [Headers()] (possibly nil) when it has that one. *)
Record GoError := {
  errText : string;
  errStatus : option Z;
  errHeaders : option (option Header)
}.

(** [interfaces.ErrorMessage]; [Error] is [None] for a nil error. *)
Record ErrorMessage := {
  StatusCode : Z;
  Error : option GoError;
  Addon : option Header
}.

(** [errors.New(text)] / [fmt.Errorf]: an error with no further method. *)
Definition plainError (text : string) : GoError :=
  {| errText := text; errStatus := None; errHeaders := None |}.

(** [&statusHeadersError{err, code, addon}]. *)
Definition statusHeadersError (err : option GoError) (code : Z) (addon : option Header)
  : GoError :=
  {| errText := match err with None => "" | Some e => errText e end;
     errStatus := Some code;
     errHeaders := Some addon |}.

(** The part of [errorEnvelope] that [extractErrorMessage] reads:
    [error.message] and [message]. *)
Record errorEnvelope := {
  envErrorMessage : string;
  envMessage : string
}.

Definition StatusBadRequest : Z := 400.
Definition StatusUnauthorized : Z := 401.
Definition StatusPaymentRequired : Z := 402.
Definition StatusForbidden : Z := 403.
Definition StatusRequestTimeout : Z := 408.
Definition StatusTooManyRequests : Z := 429.
Definition StatusInternalServerError : Z := 500.
Definition StatusBadGateway : Z := 502.

Definition errString (err : option GoError) : string :=
  match err with
  | None => ""
  | Some e => TrimSpace (errText e)
  end.

Definition statusFromError (err : option GoError) : Z :=
  match err with
  | None => 0%Z
  | Some e =>
      match errStatus e with
      | Some code => if (code >? 0)%Z then code else 0%Z
      | None => 0%Z
      end
  end.

(** [strings.EqualFold] on ASCII text. *)
Definition EqualFold (a b : string) : bool := String.eqb (ToLower a) (ToLower b).

Definition containsProvider (providers : list string) (provider : string) : bool :=
  let provider := TrimSpace (ToLower provider) in
  if String.eqb provider "" || (length providers =? 0)%nat then false
  else existsb (fun p => EqualFold (TrimSpace p) provider) providers.

Section Eligibility.

(** [encoding/json]: [json.Valid] and [json.Unmarshal] into an
    [errorEnvelope] ([None] when it fails). *)
Variable json_Valid : string -> bool.
Variable json_Unmarshal : string -> option errorEnvelope.

Definition extractErrorMessage (raw : string) : string :=
  let raw := TrimSpace raw in
  if String.eqb raw "" then ""
  else if negb (json_Valid raw) then raw
  else
    match json_Unmarshal raw with
    | None => raw
    | Some env =>
        let msg := TrimSpace (envErrorMessage env) in
        if negb (String.eqb msg "") then msg
        else
          let msg := TrimSpace (envMessage env) in
          if negb (String.eqb msg "") then msg else raw
    end.

Definition isClaudeFailoverEligible (status : Z) (err : option GoError) : bool :=
  if (status =? StatusTooManyRequests)%Z || (status =? StatusUnauthorized)%Z
     || (status =? StatusPaymentRequired)%Z || (status =? StatusForbidden)%Z
  then true
  else if (status =? StatusInternalServerError)%Z then
    let msg := ToLower (extractErrorMessage (errString err)) in
    if String.eqb msg "" then false
    else if Contains msg "auth_unavailable" || Contains msg "auth_not_found"
            || Contains msg "no auth available"
    then true
    else false
  else if (status =? StatusBadGateway)%Z then
    let msg := ToLower (extractErrorMessage (errString err)) in
    if String.eqb msg "" then false
    else if Contains msg "unknown provider" && Contains msg "model" then true
    else false
  else if (status =? StatusBadRequest)%Z then
    let msg := ToLower (extractErrorMessage (errString err)) in
    if String.eqb msg "" then false
    else if Contains msg "account" then
      if Contains msg "disabled" || Contains msg "suspended"
         || Contains msg "banned" || Contains msg "blocked"
      then true
      else true
    else if Contains msg "token" || Contains msg "oauth" || Contains msg "credential"
            || Contains msg "session" || Contains msg "login"
    then true
    else false
  else false.

End Eligibility.

(** [coreexecutor.Request], [Options], [Response] and [StreamChunk]. *)
Record Request := {
  Model : string;
  Payload : bytes
}.

Record Options := {
  Stream : bool;
  Alt : string;
  OriginalRequest : bytes;
  SourceFormat : string;
  Metadata : gmap string string
}.

Record Response := { respPayload : bytes }.

Record StreamChunk := {
  chunkPayload : bytes;
  chunkErr : option GoError
}.

(** What the handler reads from its [context.Context]: the policy stored in
    the gin context under "apiKeyPolicy", the trimmed "Idempotency-Key"
    header, and, for each [select] the request goes through (numbered from
    0), whether the branch [<-ctx.Done()] is the one taken. *)
Record Context := {
  ctxPolicy : option Config.APIKeyPolicy;
  ctxIdempotencyKey : string;
  ctxDone : nat -> bool
}.

Definition apiKeyPolicyFromContext (ctx : option Context) : option Config.APIKeyPolicy :=
  match ctx with
  | None => None
  | Some c => ctxPolicy c
  end.

Record SDKConfig := { BootstrapRetries : Z }.

Definition defaultStreamingBootstrapRetries : Z := 0.

(** StreamingBootstrapRetries returns how many times a streaming request may
    be retried before any bytes are sent. *)
Definition StreamingBootstrapRetries (cfg : option SDKConfig) : Z :=
  let retries := match cfg with
                 | None => defaultStreamingBootstrapRetries
                 | Some c => BootstrapRetries c
                 end in
  if (retries <? 0)%Z then 0%Z else retries.

(** What the two execution paths put on their channels and ask of the
    credential manager, in order: a call of [AuthManager.Execute] or
    [AuthManager.ExecuteStream], a chunk received from the upstream channel,
    a chunk sent on the data channel (or the body returned), a message sent
    on the error channel (or returned). *)
Inductive Event :=
| EvExec (providers : list string) (req : Request) (opts : Options)
| EvRecv (chunk : StreamChunk)
| EvData (payload : bytes)
| EvErr (msg : ErrorMessage).

Section Execution.

(** Collaborators of the handler that live in other packages. *)

(** [encoding/json], as in [Eligibility]. *)
Variable json_Valid : string -> bool.
Variable json_Unmarshal : string -> option errorEnvelope.

(** [gjson.GetBytes(body, path).Exists()] and [sjson.SetBytes(body, path, value)]
    ([None] when it fails). *)
Variable gjson_Exists : bytes -> string -> bool.
Variable sjson_SetBytes : bytes -> string -> string -> option bytes.

(** [util.ResolveAutoModel] and [util.GetProviderName] (the model registry). *)
Variable ResolveAutoModel : string -> string.
Variable GetProviderName : string -> list string.

(** [uuid.NewString()] and [coreexecutor.RequestedModelMetadataKey]. *)
Variable newUUID : string.
Variable RequestedModelMetadataKey : string.

(** The credential manager, with its state [M]: [AuthManager.Execute] and
    [AuthManager.ExecuteStream].  A stream is the list of chunks received
    from the channel until it is closed. *)
Variable M : Type.
Variable AuthManager_Execute :
  M -> list string -> Request -> Options -> (Response + GoError) * M.
Variable AuthManager_ExecuteStream :
  M -> list string -> Request -> Options -> (list StreamChunk + GoError) * M.

Definition idempotencyKeyMetadataKey : string := "idempotency_key".

Definition requestExecutionMetadata (ctx : option Context) : gmap string string :=
  let key := match ctx with None => "" | Some c => ctxIdempotencyKey c end in
  let key := if String.eqb key "" then newUUID else key in
  {[ idempotencyKeyMetadataKey := key ]}.

Definition seemsClaudeModel (modelName : string) : bool :=
  let resolved := ResolveAutoModel modelName in
  let parsed := Thinking.ParseSuffix resolved in
  let base := ToLower (TrimSpace (Thinking.ModelName parsed)) in
  HasPrefix base "claude-".

Definition rewriteModelField (body : bytes) (model : string) : bytes :=
  let model := TrimSpace model in
  if (len body =? 0)%nat || String.eqb model "" then body
  else if negb (gjson_Exists body "model") then body
  else match sjson_SetBytes body "model" model with
       | None => body
       | Some out => out
       end.

(** The prefix heuristic of [getRequestDetails], on the lowercased base. *)
Definition heuristicProviders (lower : string) : list string :=
  if HasPrefix lower "claude-" then ["claude"]
  else if HasPrefix lower "gpt-" || HasPrefix lower "o1" || HasPrefix lower "o3"
          || HasPrefix lower "o4" || HasPrefix lower "chatgpt-" then ["codex"]
  else if HasPrefix lower "gemini" || HasPrefix lower "models/gemini"
          || HasPrefix lower "vertex" || HasPrefix lower "aistudio" then ["gemini"]
  else if HasPrefix lower "qwen" then ["qwen"]
  else if HasPrefix lower "kimi" then ["kimi"]
  else if HasPrefix lower "iflow" then ["iflow"]
  else [].

(** [getRequestDetails]: [(providers, normalizedModel, err)]. *)
Definition getRequestDetails (modelName : string)
  : list string * string * option ErrorMessage :=
  let initialSuffix := Thinking.ParseSuffix modelName in
  let resolvedModelName :=
    if String.eqb (Thinking.ModelName initialSuffix) "auto" then
      let resolvedBase := ResolveAutoModel (Thinking.ModelName initialSuffix) in
      if Thinking.HasSuffix initialSuffix
      then resolvedBase ++ "(" ++ Thinking.RawSuffix initialSuffix ++ ")"
      else resolvedBase
    else ResolveAutoModel modelName in
  let parsed := Thinking.ParseSuffix resolvedModelName in
  let baseModel := TrimSpace (Thinking.ModelName parsed) in
  let providers := GetProviderName baseModel in
  let providers :=
    if (length providers =? 0)%nat && negb (String.eqb baseModel resolvedModelName)
    then GetProviderName resolvedModelName
    else providers in
  let providers :=
    if (length providers =? 0)%nat
    then heuristicProviders (ToLower (TrimSpace baseModel))
    else providers in
  if (length providers =? 0)%nat then
    ([], "", Some {| StatusCode := StatusBadGateway;
                     Error := Some (plainError ("unknown provider for model " ++ modelName));
                     Addon := None |})
  else (providers, resolvedModelName, None).

(** The message built from an error of the credential manager, in
    [execOnce], [execStream] and at the end of the stream loop. *)
Definition errorMessageOf (err : GoError) : ErrorMessage :=
  {| StatusCode := match errStatus err with
                   | Some code => if (code >? 0)%Z then code else StatusInternalServerError
                   | None => StatusInternalServerError
                   end;
     Error := Some err;
     Addon := match errHeaders err with
              | Some (Some hdr) => Some hdr
              | _ => None
              end |}.

(** The opening lines shared by [ExecuteWithAuthManager] and
    [ExecuteStreamWithAuthManager]: resolve the providers of the requested
    model and, when that fails for a Claude-looking model of a client with
    failover enabled, resolve the failover target instead.  The result is
    [(rawJSON, providers, normalizedModel)] or the error to return. *)
Definition resolveRequest (ctx : option Context) (modelName : string) (rawJSON : bytes)
  : (bytes * list string * string) + ErrorMessage :=
  match getRequestDetails modelName with
  | (providers, normalizedModel, None) => inl (rawJSON, providers, normalizedModel)
  | (_, _, Some errMsg) =>
      match apiKeyPolicyFromContext ctx with
      | None => inr errMsg
      | Some policy =>
          let '(targetModel, enabled) := Config.ClaudeFailoverTargetModel (Some policy) in
          if enabled && negb (String.eqb (TrimSpace targetModel) "")
             && negb (String.eqb targetModel modelName)
             && seemsClaudeModel modelName
             && isClaudeFailoverEligible json_Valid json_Unmarshal
                  (StatusCode errMsg) (Error errMsg)
          then
            let failoverPayload := rewriteModelField rawJSON targetModel in
            match getRequestDetails targetModel with
            | (failoverProviders, failoverModel, None) =>
                inl (failoverPayload, failoverProviders, failoverModel)
            | (_, _, Some detailErr) => inr detailErr
            end
          else inr errMsg
      end
  end.

(** [execOnce]: one call of [AuthManager.Execute]. *)
Definition execOnce (m : M) (execProviders : list string) (execReq : Request)
    (execOpts : Options) : (bytes + ErrorMessage) * M :=
  match AuthManager_Execute m execProviders execReq execOpts with
  | (inr err, m') => (inr (errorMessageOf err), m')
  | (inl resp, m') => (inl (respPayload resp), m')
  end.

Definition failoverOptions (opts : Options) (failoverPayload : bytes) (failoverModel : string)
  : Options :=
  {| Stream := Stream opts;
     Alt := Alt opts;
     OriginalRequest := failoverPayload;
     SourceFormat := SourceFormat opts;
     Metadata := <[RequestedModelMetadataKey := failoverModel]> (Metadata opts) |}.

(** ExecuteWithAuthManager executes a non-streaming request via the core auth
    manager.  The result is the body or the error returned, the events in
    order, and the manager afterwards. *)
Definition ExecuteWithAuthManager (ctx : option Context) (m : M)
    (handlerType modelName : string) (rawJSON : bytes) (alt : string)
  : (bytes + ErrorMessage) * list Event * M :=
  let reqMeta := requestExecutionMetadata ctx in
  match resolveRequest ctx modelName rawJSON with
  | inr errMsg => (inr errMsg, [EvErr errMsg], m)
  | inl (rawJSON, providers, normalizedModel) =>
      let reqMeta := <[RequestedModelMetadataKey := normalizedModel]> reqMeta in
      let req := {| Model := normalizedModel; Payload := rawJSON |} in
      let opts := {| Stream := false; Alt := alt; OriginalRequest := rawJSON;
                     SourceFormat := handlerType; Metadata := reqMeta |} in
      match execOnce m providers req opts with
      | (inl out, m1) => (inl out, [EvExec providers req opts; EvData out], m1)
      | (inr execErr, m1) =>
          let policy := apiKeyPolicyFromContext ctx in
          let '(targetModel, enabled) :=
            match policy with
            | None => ("", false)
            | Some _ => Config.ClaudeFailoverTargetModel policy
            end in
          let giveUp := (inr execErr, [EvExec providers req opts; EvErr execErr], m1) in
          if enabled && containsProvider providers "claude"
             && negb (String.eqb (TrimSpace targetModel) "")
             && negb (String.eqb targetModel normalizedModel)
          then
            let status := StatusCode execErr in
            let status := if (status <=? 0)%Z then statusFromError (Error execErr) else status in
            if isClaudeFailoverEligible json_Valid json_Unmarshal status (Error execErr) then
              let failoverPayload := rewriteModelField rawJSON targetModel in
              match getRequestDetails targetModel with
              | (failoverProviders, failoverModel, None) =>
                  let failoverReq := {| Model := failoverModel; Payload := failoverPayload |} in
                  let failoverOpts := failoverOptions opts failoverPayload failoverModel in
                  match execOnce m1 failoverProviders failoverReq failoverOpts with
                  | (inl failoverOut, m2) =>
                      (inl failoverOut,
                       [EvExec providers req opts;
                        EvExec failoverProviders failoverReq failoverOpts;
                        EvData failoverOut], m2)
                  | (inr failoverErr, m2) =>
                      (inr failoverErr,
                       [EvExec providers req opts;
                        EvExec failoverProviders failoverReq failoverOpts;
                        EvErr failoverErr], m2)
                  end
              | (_, _, Some _) => giveUp
              end
            else giveUp
          else giveUp
      end
  end.

(** *** The streaming path *)

(** [execStream]: one call of [AuthManager.ExecuteStream]. *)
Definition execStream (m : M) (execProviders : list string) (execReq : Request)
    (execOpts : Options) : (list StreamChunk + ErrorMessage) * M :=
  match AuthManager_ExecuteStream m execProviders execReq execOpts with
  | (inl stream, m') => (inl stream, m')
  | (inr err, m') => (inr (errorMessageOf err), m')
  end.

Definition bootstrapEligible (err : option GoError) : bool :=
  let status := statusFromError err in
  if (status =? 0)%Z then true
  else if (status =? StatusUnauthorized)%Z || (status =? StatusForbidden)%Z
          || (status =? StatusPaymentRequired)%Z || (status =? StatusRequestTimeout)%Z
          || (status =? StatusTooManyRequests)%Z
  then true
  else (status >=? StatusInternalServerError)%Z.

(** Whether [<-ctx.Done()] is taken at the [select] numbered [tick]; a nil
    context has no such branch. *)
Definition done (ctx : option Context) (tick : nat) : bool :=
  match ctx with
  | None => false
  | Some c => ctxDone c tick
  end.

(** The variables the goroutine of [ExecuteStreamWithAuthManager] updates. *)
Record LoopState := {
  sentPayload : bool;
  bootstrapRetries : Z;
  failoverAttempted : bool;
  providers : list string;
  normalizedModel : string;
  req : Request;
  opts : Options
}.

(** What the goroutine does with an error chunk: go back to [outer] on a new
    stream, or send the (possibly replaced) error and return. *)
Inductive ErrStep :=
| Restart (st : LoopState) (chunks : list StreamChunk) (m : M) (evs : list Event)
| Surface (streamErr : GoError) (m : M) (evs : list Event).

Section Goroutine.

Variable ctx : option Context.
Variable rawJSON : bytes.
Variable failoverTargetModel : string.
Variable failoverEnabled : bool.
Variable maxBootstrapRetries : Z.

(** The block "Optional failover: only before any payload bytes are sent". *)
Definition tryFailover (st : LoopState) (streamErr : GoError) (m : M) (evs : list Event)
  : ErrStep :=
  if negb (sentPayload st) && negb (failoverAttempted st) && failoverEnabled
     && containsProvider (providers st) "claude"
     && negb (String.eqb failoverTargetModel "")
     && negb (String.eqb failoverTargetModel (normalizedModel st))
  then
    let status := statusFromError (Some streamErr) in
    if isClaudeFailoverEligible json_Valid json_Unmarshal status (Some streamErr) then
      let failoverPayload := rewriteModelField rawJSON failoverTargetModel in
      match getRequestDetails failoverTargetModel with
      | (failoverProviders, failoverModel, None) =>
          let failoverReq := {| Model := failoverModel; Payload := failoverPayload |} in
          let failoverOpts := failoverOptions (opts st) failoverPayload failoverModel in
          let ev := EvExec failoverProviders failoverReq failoverOpts in
          match execStream m failoverProviders failoverReq failoverOpts with
          | (inl retryChunks, m') =>
              Restart {| sentPayload := sentPayload st;
                         bootstrapRetries := 0;
                         failoverAttempted := true;
                         providers := failoverProviders;
                         normalizedModel := failoverModel;
                         req := failoverReq;
                         opts := failoverOpts |}
                      retryChunks m' (evs ++ [ev])
          | (inr retryExecErr, m') =>
              Surface (statusHeadersError (Error retryExecErr) (StatusCode retryExecErr)
                                          (Addon retryExecErr))
                      m' (evs ++ [ev])
          end
      | (_, _, Some _) => Surface streamErr m evs
      end
    else Surface streamErr m evs
  else Surface streamErr m evs.

(** The body of [if chunk.Err != nil], up to the final [sendErr]. *)
Definition handleStreamErr (st : LoopState) (streamErr : GoError) (m : M) : ErrStep :=
  if negb (sentPayload st)
     && (bootstrapRetries st <? maxBootstrapRetries)%Z
     && bootstrapEligible (Some streamErr)
  then
    let st := {| sentPayload := sentPayload st;
                 bootstrapRetries := bootstrapRetries st + 1;
                 failoverAttempted := failoverAttempted st;
                 providers := providers st;
                 normalizedModel := normalizedModel st;
                 req := req st;
                 opts := opts st |} in
    let ev := EvExec (providers st) (req st) (opts st) in
    match execStream m (providers st) (req st) (opts st) with
    | (inl retryChunks, m') => Restart st retryChunks m' [ev]
    | (inr retryExecErr, m') =>
        tryFailover st
          (statusHeadersError (Error retryExecErr) (StatusCode retryExecErr)
                              (Addon retryExecErr))
          m' [ev]
    end
  else tryFailover st streamErr m [].

Definition payloadSent (st : LoopState) : LoopState :=
  {| sentPayload := true;
     bootstrapRetries := bootstrapRetries st;
     failoverAttempted := failoverAttempted st;
     providers := providers st;
     normalizedModel := normalizedModel st;
     req := req st;
     opts := opts st |}.

(** The inner [for] of the goroutine, on the chunks still to come from the
    current stream; [restart] is [continue outer] on a new stream.  The
    [select] points are numbered from [tick].  The result is the events in
    order and the manager afterwards. *)
Fixpoint recvLoop
    (restart : LoopState -> list StreamChunk -> M -> nat -> option (list Event * M))
    (m : M) (chunks : list StreamChunk) (st : LoopState) (tick : nat)
  : option (list Event * M) :=
  match chunks with
  | [] => Some ([], m)
  | chunk :: rest =>
      if done ctx tick then Some ([], m)
      else
        match chunkErr chunk with
        | Some streamErr =>
            match handleStreamErr st streamErr m with
            | Restart st' chunks' m' evs =>
                match restart st' chunks' m' (S tick) with
                | Some (tr, mf) => Some ((EvRecv chunk :: evs ++ tr)%list, mf)
                | None => None
                end
            | Surface err m' evs =>
                Some ((EvRecv chunk :: evs
                         ++ (if done ctx (S tick) then [] else [EvErr (errorMessageOf err)]))%list,
                      m')
            end
        | None =>
            if (0 <? len (chunkPayload chunk))%nat then
              if done ctx (S tick) then Some ([EvRecv chunk], m)
              else
                match recvLoop restart m rest (payloadSent st) (S (S tick)) with
                | Some (tr, mf) => Some (EvRecv chunk :: EvData (chunkPayload chunk) :: tr, mf)
                | None => None
                end
            else
              match recvLoop restart m rest st (S tick) with
              | Some (tr, mf) => Some (EvRecv chunk :: tr, mf)
              | None => None
              end
        end
  end.

(** The loop [outer]; [fuel] bounds the number of streams it goes through. *)
Fixpoint streamLoop (fuel : nat) (st : LoopState) (chunks : list StreamChunk) (m : M)
    (tick : nat) : option (list Event * M) :=
  match fuel with
  | O => None
  | S fuel' => recvLoop (streamLoop fuel') m chunks st tick
  end.

End Goroutine.

(** ExecuteStreamWithAuthManager executes a streaming request via the core
    auth manager.  [cfg] is [h.Cfg].  The result is the events in order and
    the manager afterwards; [None] only if [fuel] streams were not enough. *)
Definition ExecuteStreamWithAuthManager (fuel : nat) (cfg : option SDKConfig)
    (ctx : option Context) (m : M)
    (handlerType modelName : string) (rawJSON : bytes) (alt : string)
  : option (list Event * M) :=
  let reqMeta := requestExecutionMetadata ctx in
  match resolveRequest ctx modelName rawJSON with
  | inr errMsg => Some ([EvErr errMsg], m)
  | inl (rawJSON, providers0, normalizedModel0) =>
      let reqMeta := <[RequestedModelMetadataKey := normalizedModel0]> reqMeta in
      let req0 := {| Model := normalizedModel0; Payload := rawJSON |} in
      let opts0 := {| Stream := true; Alt := alt; OriginalRequest := rawJSON;
                      SourceFormat := handlerType; Metadata := reqMeta |} in
      let '(failoverTargetModel, failoverEnabled) :=
        match apiKeyPolicyFromContext ctx with
        | None => ("", false)
        | Some policy => Config.ClaudeFailoverTargetModel (Some policy)
        end in
      let start (st : LoopState) (chunks : list StreamChunk) (m' : M) (evs : list Event) :=
        match streamLoop ctx rawJSON failoverTargetModel failoverEnabled
                (StreamingBootstrapRetries cfg) fuel st chunks m' 0 with
        | Some (tr, mf) => Some ((evs ++ tr)%list, mf)
        | None => None
        end in
      let ev0 := EvExec providers0 req0 opts0 in
      match execStream m providers0 req0 opts0 with
      | (inl chunks, m1) =>
          start {| sentPayload := false; bootstrapRetries := 0; failoverAttempted := false;
                   providers := providers0; normalizedModel := normalizedModel0;
                   req := req0; opts := opts0 |}
                chunks m1 [ev0]
      | (inr execErr, m1) =>
          (* Immediate failure before any chunks are available - consider failover. *)
          let status := StatusCode execErr in
          let status := if (status <=? 0)%Z then statusFromError (Error execErr) else status in
          if failoverEnabled && containsProvider providers0 "claude"
             && negb (String.eqb failoverTargetModel "")
             && negb (String.eqb failoverTargetModel normalizedModel0)
             && isClaudeFailoverEligible json_Valid json_Unmarshal status (Error execErr)
          then
            let failoverPayload := rewriteModelField rawJSON failoverTargetModel in
            match getRequestDetails failoverTargetModel with
            | (failoverProviders, failoverModel, None) =>
                let failoverReq := {| Model := failoverModel; Payload := failoverPayload |} in
                let failoverOpts := failoverOptions opts0 failoverPayload failoverModel in
                let ev1 := EvExec failoverProviders failoverReq failoverOpts in
                match execStream m1 failoverProviders failoverReq failoverOpts with
                | (inr execErr', m2) => Some ([ev0; ev1; EvErr execErr'], m2)
                | (inl chunks, m2) =>
                    start {| sentPayload := false; bootstrapRetries := 0;
                             failoverAttempted := true;
                             providers := failoverProviders;
                             normalizedModel := failoverModel;
                             req := failoverReq; opts := failoverOpts |}
                          chunks m2 [ev0; ev1]
                end
            | (_, _, Some _) => Some ([ev0; EvErr execErr], m1)
            end
          else Some ([ev0; EvErr execErr], m1)
      end
  end.

(** The number of streams the goroutine can go through: each restart is a
    bootstrap retry, of which there are at most the configured number before
    and after the failover, or the one failover. *)
Definition streamFuel (cfg : option SDKConfig) : nat :=
  2 * Z.to_nat (StreamingBootstrapRetries cfg) + 2.

End Execution.

(** ExecuteCountWithAuthManager executes a token-counting request via the
    core auth manager.  Apart from its log messages its text is that of
    [ExecuteWithAuthManager] line for line, with [AuthManager.ExecuteCount]
    where that one calls [AuthManager.Execute]; [AuthManager_ExecuteCount] is
    that operation. *)
Definition ExecuteCountWithAuthManager
    (json_Valid : string -> bool) (json_Unmarshal : string -> option errorEnvelope)
    (gjson_Exists : bytes -> string -> bool)
    (sjson_SetBytes : bytes -> string -> string -> option bytes)
    (ResolveAutoModel : string -> string) (GetProviderName : string -> list string)
    (newUUID RequestedModelMetadataKey : string) (M : Type)
    (AuthManager_ExecuteCount :
       M -> list string -> Request -> Options -> (Response + GoError) * M)
    (ctx : option Context) (m : M) (handlerType modelName : string) (rawJSON : bytes)
    (alt : string) : (bytes + ErrorMessage) * list Event * M :=
  ExecuteWithAuthManager json_Valid json_Unmarshal gjson_Exists sjson_SetBytes
    ResolveAutoModel GetProviderName newUUID RequestedModelMetadataKey M
    AuthManager_ExecuteCount ctx m handlerType modelName rawJSON alt.

(** [ErrorDetail], the content of an [ErrorResponse]; [Type_] is its field
    [Type]. *)
Record ErrorDetail := {
  Message : string;
  Type_ : string;
  Code : string
}.

Definition StatusNotFound : Z := 404.

Section ErrorBody.

(** [json.Valid], [http.StatusText], [json.Marshal] of an [ErrorResponse]
    ([None] when it fails) and the [fmt.Sprintf] of the fallback. *)
Variable json_Valid : string -> bool.
Variable http_StatusText : Z -> string.
Variable json_Marshal : ErrorDetail -> option bytes.
Variable sprintfFallback : string -> bytes.

(** BuildErrorResponseBody builds an OpenAI-compatible JSON error response
    body.  If errText is already valid JSON, it is returned as-is to preserve
    upstream error payloads. *)
Definition BuildErrorResponseBody (status : Z) (errText : string) : bytes :=
  let status := if (status <=? 0)%Z then StatusInternalServerError else status in
  let errText := if String.eqb (TrimSpace errText) "" then http_StatusText status
                 else errText in
  let trimmed := TrimSpace errText in
  if negb (String.eqb trimmed "") && json_Valid trimmed then trimmed
  else
    let '(errType, code) :=
      if (status =? StatusUnauthorized)%Z then ("authentication_error", "invalid_api_key")
      else if (status =? StatusForbidden)%Z then ("permission_error", "insufficient_quota")
      else if (status =? StatusTooManyRequests)%Z then ("rate_limit_error", "rate_limit_exceeded")
      else if (status =? StatusNotFound)%Z then ("invalid_request_error", "model_not_found")
      else if (status >=? StatusInternalServerError)%Z
           then ("server_error", "internal_server_error")
           else ("invalid_request_error", "") in
    match json_Marshal {| Message := errText; Type_ := errType; Code := code |} with
    | Some payload => payload
    | None => sprintfFallback errText
    end.

End ErrorBody.

End Handlers.

(* ===================================================================== *)
(** ** [internal/api/middleware]: the policy middleware *)
(* ===================================================================== *)

Module Middleware.
Import GoStrings Config.

(** [v, ok := limits[key]; ok && v > 0]. *)
Definition positiveLimit (limits : gmap string Z) (key : string) : option Z :=
  match limits !! key with
  | Some v => if (0 <? v)%Z then Some v else None
  | None => None
  end.

(** [resolveDailyLimit]: the limit that applies to a model key and the key
    under which it is counted; [(0, "")] when there is none. *)
Definition resolveDailyLimit (p : option APIKeyPolicy) (modelKey : string) : Z * string :=
  match p with
  | None => (0%Z, "")
  | Some pol =>
      if (size (DailyLimits pol) =? 0)%nat then (0%Z, "")
      else
        let key := ToLower (TrimSpace modelKey) in
        if String.eqb key "" then (0%Z, "")
        else
          match positiveLimit (DailyLimits pol) key with
          | Some v => (v, key)
          | None =>
              if HasSuffix key "-thinking"
              then
                let base := TrimSuffix key "-thinking" in
                match positiveLimit (DailyLimits pol) base with
                | Some v => (v, base)
                | None => (0%Z, "")
                end
              else (0%Z, "")
          end
  end.

(** What the middleware reads of the gin context: the request method, the
    value stored under "apiKey", the value already stored under
    "apiKeyPolicy", if any, and the result of [io.ReadAll(c.Request.Body)]
    ([None] when reading fails). *)
Record GinContext := {
  Method : string;
  ctxAPIKey : string;
  ctxPolicyValue : option APIKeyPolicy;
  Body : option Handlers.bytes
}.

(** How the middleware leaves the request: it returns without a word (no
    context or request), it calls [c.Next()], or it aborts with a status and
    a JSON body.  [Next] carries the policy stored under "apiKeyPolicy" and
    the body the middleware has put back on the request ([None] when it has
    not replaced [c.Request.Body]). *)
Inductive Outcome :=
| Return
| Next (policy : option APIKeyPolicy) (body : option Handlers.bytes)
| Abort (status : Z) (body : Handlers.bytes).

Section Middleware.

(** The parameters of [handlers.BuildErrorResponseBody]. *)
Variable json_Valid : string -> bool.
Variable http_StatusText : Z -> string.
Variable json_Marshal : Handlers.ErrorDetail -> option Handlers.bytes.
Variable sprintfFallback : string -> Handlers.bytes.

(** [gjson.GetBytes(body, path).String()] and [sjson.SetBytes] ([None] when
    it fails). *)
Variable gjson_GetString : Handlers.bytes -> string -> string.
Variable sjson_SetBytes : Handlers.bytes -> string -> string -> option Handlers.bytes.

(** [policy.DayKeyChina]. *)
Variable DayKeyChina : Z -> string.

(** [int64(math.Round(budget * 1_000_000))]. *)
Variable budgetMicroUSD : float64 -> Z.

Definition abortWith (status : Z) (msg : string) : Outcome :=
  Abort status
    (Handlers.BuildErrorResponseBody json_Valid http_StatusText json_Marshal
       sprintfFallback status msg).

(** Step 0 of the middleware, the daily budget: [Some] is the abort.
    [costReader] is the [billing.DailyCostReader] ([None] for a nil
    interface); [now] is [time.Now()]. *)
Definition checkBudget (policyEntry : option APIKeyPolicy)
    (costReader : option (string -> string -> Z * option string))
    (now : Z) (apiKey : string) : option Outcome :=
  match policyEntry with
  | None => None
  | Some pol =>
      if negb (f64_gt0 (DailyBudgetUSD pol)) then None
      else
        match costReader with
        | None => Some (abortWith Handlers.StatusInternalServerError
                          "billing store unavailable")
        | Some GetDailyCostMicroUSD =>
            let dayKey := DayKeyChina now in
            match GetDailyCostMicroUSD apiKey dayKey with
            | (_, Some errSpent) =>
                Some (abortWith Handlers.StatusInternalServerError errSpent)
            | (spentMicro, None) =>
                let budgetMicro := budgetMicroUSD (DailyBudgetUSD pol) in
                if (0 <? budgetMicro)%Z && (budgetMicro <=? spentMicro)%Z
                then Some (abortWith Handlers.StatusTooManyRequests "daily budget exceeded")
                else None
            end
        end
  end.

(** Step 1, the transparent downgrade: the effective model. *)
Definition effectiveModelOf (policyEntry : option APIKeyPolicy) (model : string) : string :=
  match policyEntry with
  | None => model
  | Some _ =>
      if negb (AllowsClaudeOpus46 policyEntry)
      then let '(rewritten, changed) := Policy.DowngradeClaudeOpus46 model in
           if changed then rewritten else model
      else model
  end.

(** Step 2, the deny list. *)
Definition denied (policyEntry : option APIKeyPolicy) (effectiveModel : string) : bool :=
  match policyEntry with
  | None => false
  | Some pol =>
      (0 <? length (ExcludedModels pol))%nat &&
      let modelKey := Policy.NormaliseModelKey effectiveModel in
      existsb (fun pattern => Policy.MatchWildcard pattern modelKey) (ExcludedModels pol)
  end.

(** Step 3, the daily limits: [Some] is the abort; the limiter is returned
    as the call leaves it.  [fault] is the storage error of the limiter's
    statement, if any; [now] and [nowUnix] are the two readings of the clock. *)
Definition checkLimit (policyEntry : option APIKeyPolicy)
    (limiter : option Policy.SQLiteDailyLimiter) (fault : option string)
    (now nowUnix : Z) (apiKey effectiveModel : string)
  : option Outcome * option Policy.SQLiteDailyLimiter :=
  match policyEntry with
  | None => (None, limiter)
  | Some pol =>
      if negb (0 <? size (DailyLimits pol))%nat then (None, limiter)
      else
        let modelKey := Policy.NormaliseModelKey effectiveModel in
        let '(limit, limitKey) := resolveDailyLimit policyEntry modelKey in
        if negb (0 <? limit)%Z then (None, limiter)
        else
          match limiter with
          | None => (Some (abortWith Handlers.StatusInternalServerError
                             "daily limiter unavailable"), limiter)
          | Some _ =>
              let dayKey := DayKeyChina now in
              match Policy.Consume limiter fault nowUnix apiKey limitKey dayKey limit with
              | ((_, _, Some errConsume), limiter') =>
                  (Some (abortWith Handlers.StatusInternalServerError errConsume), limiter')
              | ((_, allowed, None), limiter') =>
                  if negb allowed
                  then (Some (abortWith Handlers.StatusTooManyRequests
                                "daily model limit exceeded"), limiter')
                  else (None, limiter')
              end
          end
  end.

(** The handler that [APIKeyPolicyMiddleware getConfig limiter costReader]
    returns, run on a context.  [getConfig] is the function, if any, and
    what it returns ([cfg.APIKeyPolicies], or [None] for a nil config);
    [tBudget], [tLimit] and [tConsume] are the readings of the clock in the
    budget step, in the limit step and inside [Consume].  The result is how
    the request is left and the limiter afterwards. *)
Definition APIKeyPolicyMiddleware
    (getConfig : option (unit -> option (list APIKeyPolicy)))
    (limiter : option Policy.SQLiteDailyLimiter)
    (costReader : option (string -> string -> Z * option string))
    (fault : option string) (tBudget tLimit tConsume : Z)
    (c : option GinContext) : Outcome * option Policy.SQLiteDailyLimiter :=
  match c with
  | None => (Return, limiter)
  | Some c =>
      let cfg := match getConfig with None => None | Some f => f tt end in
      match cfg with
      | None => (Next (ctxPolicyValue c) None, limiter)
      | Some policies =>
          let apiKey := TrimSpace (ctxAPIKey c) in
          if String.eqb apiKey "" then (Next (ctxPolicyValue c) None, limiter)
          else
            let policyEntry :=
              match FindAPIKeyPolicy policies apiKey with
              | Some p => Some p
              | None => ctxPolicyValue c
              end in
            if String.eqb (Method c) "GET" || String.eqb (Method c) "HEAD"
               || String.eqb (Method c) "OPTIONS"
            then (Next policyEntry None, limiter)
            else
              match checkBudget policyEntry costReader tBudget apiKey with
              | Some out => (out, limiter)
              | None =>
                  match Body c with
                  | None => (Next policyEntry None, limiter)
                  | Some bodyBytes =>
                      let model := TrimSpace (gjson_GetString bodyBytes "model") in
                      if String.eqb model "" then (Next policyEntry (Some bodyBytes), limiter)
                      else
                        let effectiveModel := effectiveModelOf policyEntry model in
                        if denied policyEntry effectiveModel
                        then (abortWith Handlers.StatusForbidden
                                "model access denied by api key policy", limiter)
                        else
                          match checkLimit policyEntry limiter fault tLimit tConsume
                                  apiKey effectiveModel with
                          | (Some out, limiter') => (out, limiter')
                          | (None, limiter') =>
                              let body :=
                                if negb (String.eqb effectiveModel model)
                                then match sjson_SetBytes bodyBytes "model" effectiveModel with
                                     | Some modified => modified
                                     | None => bodyBytes
                                     end
                                else bodyBytes in
                              (Next policyEntry (Some body), limiter')
                          end
                  end
              end
      end
  end.

End Middleware.

End Middleware.

(* ===================================================================== *)
(** ** [internal/api/handlers/management]: the policy endpoints *)
(* ===================================================================== *)

Module Management.
Import GoStrings Config.

(** How a handler answers: [c.JSON(status, gin.H{"error": msg})], or the
    call of [h.persist(c)] that ends the successful paths. *)
Inductive Reply :=
| JSONError (status : Z) (msg : string)
| Persist.

(** The [value] of a PATCH body; a nil pointer is [None]. *)
Record policyPatch := {
  patchExcludedModels : option (list string);
  patchAllowClaudeOpus46 : option bool;
  patchDailyLimits : option (gmap string Z);
  patchDailyBudgetUSD : option float64;
  patchAPIKey : option string
}.

(** [for i := range policies { if TrimSpace(policies[i].APIKey) == apiKey ... }]:
    the first index with that key. *)
Fixpoint findIndex (policies : list APIKeyPolicy) (apiKey : string) : option nat :=
  match policies with
  | [] => None
  | p :: rest =>
      if String.eqb (TrimSpace (APIKey p)) apiKey then Some O
      else match findIndex rest apiKey with
           | Some i => Some (S i)
           | None => None
           end
  end.

Section Endpoints.

Variable NormalizeExcludedModels : list string -> list string.
Variable rangeMap : gmap string Z -> list (string * Z).

Definition Sanitize : list APIKeyPolicy -> list APIKeyPolicy :=
  SanitizeAPIKeyPolicies NormalizeExcludedModels rangeMap.

(** [PutAPIKeyPolicies].  [cfg] is [h.cfg.APIKeyPolicies] ([None] when the
    handler or its config is nil), [data] the result of [c.GetRawData()],
    [asArray] and [asItems] the two ways of decoding the body.  The result is
    the reply and the policies afterwards. *)
Definition PutAPIKeyPolicies
    (asArray asItems : Handlers.bytes -> option (list APIKeyPolicy))
    (cfg : option (list APIKeyPolicy)) (data : option Handlers.bytes)
  : Reply * option (list APIKeyPolicy) :=
  match cfg with
  | None => (JSONError Handlers.StatusBadRequest "config unavailable", cfg)
  | Some _ =>
      match data with
      | None => (JSONError Handlers.StatusBadRequest "failed to read body", cfg)
      | Some data =>
          match asArray data with
          | Some arr => (Persist, Some (Sanitize arr))
          | None =>
              match asItems data with
              | None => (JSONError Handlers.StatusBadRequest "invalid body", cfg)
              | Some arr => (Persist, Some (Sanitize arr))
              end
          end
      end
  end.

(** The fields of [entry] that a patch overwrites. *)
Definition applyPatch (entry : APIKeyPolicy) (value : policyPatch) : APIKeyPolicy :=
  {| APIKey := APIKey entry;
     ExcludedModels := match patchExcludedModels value with
                       | Some l => NormalizeExcludedModels l
                       | None => ExcludedModels entry
                       end;
     Failover := Failover entry;
     AllowClaudeOpus46 := match patchAllowClaudeOpus46 value with
                          | Some v => Some v
                          | None => AllowClaudeOpus46 entry
                          end;
     DailyLimits := match patchDailyLimits value with
                    | Some m => m
                    | None => DailyLimits entry
                    end;
     DailyBudgetUSD := match patchDailyBudgetUSD value with
                       | Some f => f
                       | None => DailyBudgetUSD entry
                       end |}.

Definition withAPIKey (entry : APIKeyPolicy) (key : string) : APIKeyPolicy :=
  {| APIKey := key;
     ExcludedModels := ExcludedModels entry;
     Failover := Failover entry;
     AllowClaudeOpus46 := AllowClaudeOpus46 entry;
     DailyLimits := DailyLimits entry;
     DailyBudgetUSD := DailyBudgetUSD entry |}.

(** The zero policy with a key: [config.APIKeyPolicy{APIKey: apiKey}]. *)
Definition newPolicy (apiKey : string) : APIKeyPolicy :=
  {| APIKey := apiKey;
     ExcludedModels := [];
     Failover := {| Claude := {| Enabled := false; TargetModel := ""; Rules := [] |} |};
     AllowClaudeOpus46 := None;
     DailyLimits := ∅;
     DailyBudgetUSD := f64_zero |}.

(** [PatchAPIKeyPolicies].  [body] is what [c.ShouldBindJSON] decodes: the
    field [api-key] and the field [value] ([None] when decoding fails). *)
Definition PatchAPIKeyPolicies (cfg : option (list APIKeyPolicy))
    (body : option (string * option policyPatch))
  : Reply * option (list APIKeyPolicy) :=
  match cfg with
  | None => (JSONError Handlers.StatusBadRequest "config unavailable", cfg)
  | Some policies =>
      match body with
      | None | Some (_, None) => (JSONError Handlers.StatusBadRequest "invalid body", cfg)
      | Some (bodyAPIKey, Some value) =>
          let apiKey := TrimSpace bodyAPIKey in
          if String.eqb apiKey ""
          then (JSONError Handlers.StatusBadRequest "api-key is required", cfg)
          else
            let targetIndex := findIndex policies apiKey in
            let entry :=
              match targetIndex with
              | Some i => nth i policies (newPolicy apiKey)
              | None => newPolicy apiKey
              end in
            let finish (entry : APIKeyPolicy) :=
              let entry := applyPatch entry value in
              let policies :=
                match targetIndex with
                | Some i => <[i := entry]> policies
                | None => (policies ++ [entry])%list
                end in
              (Persist, Some (Sanitize policies)) in
            match patchAPIKey value with
            | Some newKey =>
                let trimmed := TrimSpace newKey in
                if String.eqb trimmed ""
                then
                  match targetIndex with
                  | Some i =>
                      (Persist,
                       Some (Sanitize (firstn i policies ++ skipn (S i) policies)%list))
                  | None =>
                      (JSONError Handlers.StatusBadRequest "api-key cannot be empty", cfg)
                  end
                else finish (withAPIKey entry trimmed)
            | None => finish entry
            end
      end
  end.

(** [DeleteAPIKeyPolicies].  [qDash] and [qCamel] are the query parameters
    [api-key] and [apiKey]. *)
Definition DeleteAPIKeyPolicies (cfg : option (list APIKeyPolicy)) (qDash qCamel : string)
  : Reply * option (list APIKeyPolicy) :=
  match cfg with
  | None => (JSONError Handlers.StatusBadRequest "config unavailable", cfg)
  | Some policies =>
      let apiKey := TrimSpace qDash in
      let apiKey := if String.eqb apiKey "" then TrimSpace qCamel else apiKey in
      if negb (String.eqb apiKey "")
      then
        let out := List.filter (fun v => negb (String.eqb (TrimSpace (APIKey v)) apiKey))
                     policies in
        if (length out =? length policies)%nat
        then (JSONError Handlers.StatusNotFound "item not found", cfg)
        else (Persist, Some (Sanitize out))
      else (JSONError Handlers.StatusBadRequest "missing api-key", cfg)
  end.

End Endpoints.

End Management.

(* ===================================================================== *)
(** * The vocabulary of the properties *)
(* ===================================================================== *)

(** Notions used to state the properties below, and the concrete scenarios
    (those of the repository's tests) on which they are exercised. *)

Module StringsSpec.
Import GoStrings.

(** A string that does not start with white space. *)
Definition no_lead (s : string) : Prop :=
  match s with
  | EmptyString => True
  | String c _ => is_space c = false
  end.

(** [strings.Contains(s, string(c))] says whether [c] occurs in [s]. *)
Fixpoint occurs (c : ascii) (s : string) : bool :=
  match s with
  | EmptyString => false
  | String a s' => Ascii.eqb c a || occurs c s'
  end.

End StringsSpec.

Module LimiterSpec.
Import GoStrings Policy.

(** The row a call works on. *)
Definition rowKey (apiKey model dayKey : string) : string * string * string :=
  (TrimSpace apiKey, ToLower (TrimSpace model), TrimSpace dayKey).

Definition blank (apiKey model dayKey : string) : Prop :=
  TrimSpace apiKey = "" \/ ToLower (TrimSpace model) = "" \/ TrimSpace dayKey = "".

(** What the [j]-th call on a fresh row answers under [limit]. *)
Definition answer (limit j : Z) : Z * bool * option string :=
  if (j <=? limit)%Z then (j, true, None) else (limit, false, None).

Definition open (t : gmap (string * string * string) LimitRow) : option SQLiteDailyLimiter :=
  Some {| db := Some t |}.

End LimiterSpec.

Module BillingSpec.
Import GoStrings Policy Billing.

(** The saved overrides a store can see: none without an open database. *)
Definition savedPrices (s : option SQLiteStore) : gmap string (PriceMicroUSDPer1M * Z) :=
  match openDB s with
  | Some d => model_prices d
  | None => ∅
  end.

(** The order of the spec: saved override on the exact key, saved override
    on the base key, built-in default on the exact key, built-in default on
    the base key, missing.  The result is [(price, source, updatedAt)]. *)
Definition resolveInOrder (saved : gmap string (PriceMicroUSDPer1M * Z)) (model : string)
  : PriceMicroUSDPer1M * string * Z :=
  let exact := NormaliseModelKey model in
  let base := StripThinkingVariant exact in
  match saved !! exact with
  | Some (p, updated) => (p, "saved", updated)
  | None =>
      match saved !! base with
      | Some (p, updated) => (p, "saved", updated)
      | None =>
          match DefaultPrices !! exact with
          | Some p => (p, "default", 0%Z)
          | None =>
              match DefaultPrices !! base with
              | Some p => (p, "default", 0%Z)
              | None => (zeroPrice, "missing", 0%Z)
              end
          end
      end
  end.

Definition emptyStore : option SQLiteStore :=
  Some {| db := Some {| model_prices := ∅; daily_usage := ∅ |} |}.

Definition noErr : string -> option string := fun _ => None.

(** A store with one override, on the key of the built-in default. *)
Definition overrideStore : option SQLiteStore :=
  Some {| db := Some {| model_prices :=
                          {[ "claude-opus-4-5-20251101" :=
                               ({| Prompt := 1; Completion := 2; Cached := 3 |}, 7%Z) ]};
                        daily_usage := ∅ |} |}.

(** Rounding a fraction to the nearest integer, halves up. *)
Definition round_half_up (q : Q) : Z := Qfloor (q + (1 # 2)).

(** The cost of one token class, by the formula of the spec:
    round_half_up((tokens * rate_micro_per_1M) / 1_000_000), over the
    rationals. *)
Definition classCost (tokens rate : Z) : Z :=
  round_half_up (inject_Z (tokens * rate) / inject_Z 1000000).

Section Sink.

Variable DayKeyChina : Z -> string.

(** The key under which the sink stores a record whose model is [model]. *)
Definition sinkModel (model : string) : string :=
  if String.eqb (NormaliseModelKey model) "" then "unknown" else NormaliseModelKey model.

Definition sinkKey (now : Z) (record : UsageRecord) : string * string * string :=
  (TrimSpace (rAPIKey record),
   NormaliseModelKey (sinkModel (rModel record)),
   TrimSpace (DayKeyChina (match rRequestedAt record with None => now | Some t => t end))).

End Sink.

(** A record of 1000 input tokens, 200 of them cached, 500 output and 100
    reasoning tokens on the model with the built-in price. *)
Definition sampleRecord : UsageRecord :=
  {| rAPIKey := "k"; rModel := "claude-opus-4-5-20251101"; rRequestedAt := None;
     rFailed := false;
     rDetail := {| dInputTokens := 1000; dOutputTokens := 500; dReasoningTokens := 100;
                   dCachedTokens := 200; dTotalTokens := 0 |} |}.

Definition sampleDay : Z -> string := fun _ => "2026-02-13".

(** A store that prices model "m" at $1 per million completion tokens, and a
    record for it whose supplier reports a negative output count. *)
Definition completionPrice : PriceMicroUSDPer1M :=
  {| Prompt := 0; Completion := 1000000; Cached := 0 |}.

Definition pricedStore : option SQLiteStore :=
  Some {| db := Some {| model_prices := {[ "m" := (completionPrice, 0%Z) ]};
                        daily_usage := ∅ |} |}.

Definition negativeRecord : UsageRecord :=
  {| rAPIKey := "k"; rModel := "m"; rRequestedAt := None; rFailed := false;
     rDetail := {| dInputTokens := 0; dOutputTokens := -2000000; dReasoningTokens := 0;
                   dCachedTokens := 0; dTotalTokens := 0 |} |}.

End BillingSpec.

Module ConfigSpec.
Import GoStrings Config.

Section Sanitize.

Variable NormalizeExcludedModels : list string -> list string.
Variable rangeMap : gmap string Z -> list (string * Z).

Abbreviation sanitizeEntry := (sanitizeEntry NormalizeExcludedModels rangeMap).

(** A limit as the sanitiser leaves it. *)
Definition goodLimit (m : string) (v : Z) : Prop :=
  (0 < v)%Z /\ m <> "" /\ ToLower m = m /\ TrimSpace m = m.

(** A budget that is a number. *)
Definition isNumber (f : float64) : Prop := f <> FNaN.

(** What holds of [seen] and [out] once the loop has gone through
    [processed]. *)
Record Inv (processed : list APIKeyPolicy) (seen : gmap string nat)
    (out : list APIKeyPolicy) : Prop := {
  inv_seen : forall key idx, seen !! key = Some idx ->
               exists e, out !! idx = Some e /\ APIKey e = key;
  inv_out : forall idx e, out !! idx = Some e -> seen !! APIKey e = Some idx;
  inv_last : forall idx e, out !! idx = Some e ->
               exists pre x post,
                 processed = (pre ++ x :: post)%list
                 /\ TrimSpace (APIKey x) <> ""
                 /\ e = sanitizeEntry x
                 /\ forall y, In y post -> TrimSpace (APIKey y) <> APIKey e
}.

End Sanitize.

(** Two entries for key "k" (the second written with spaces), a blank key in
    between; limits with a non-positive value and an upper-case model. *)
Definition samplePolicy (key : string) (limits : gmap string Z) (budget : float64)
  : APIKeyPolicy :=
  {| APIKey := key; ExcludedModels := [];
     Failover := {| Claude := {| Enabled := false; TargetModel := ""; Rules := [] |} |};
     AllowClaudeOpus46 := None; DailyLimits := limits; DailyBudgetUSD := budget |}.

Definition samplePolicies : list APIKeyPolicy :=
  [ samplePolicy "k" {[ "claude-opus-4-6" := 5%Z ]} (FNum 1);
    samplePolicy "  " ∅ (FNum 0);
    samplePolicy " k " {[ " Claude-Opus-4-6 " := 3%Z; "gpt-5.2" := 0%Z ]} (FNum (-2)) ].

End ConfigSpec.

Module EligibilitySpec.
Import Handlers.

(** An upstream error as the credential manager reports it: a
    [coreauth.Error] with its HTTP status. *)
Definition upstreamError (status : Z) (msg : string) : option GoError :=
  Some {| errText := msg; errStatus := Some status; errHeaders := None |}.

Definition notJSON : string -> bool := fun _ => false.
Definition noEnvelope : string -> option errorEnvelope := fun _ => None.

End EligibilitySpec.

Module StreamSpec.
Import Handlers.

Definition is_exec (ev : Event) : Prop :=
  match ev with
  | EvExec _ _ _ => True
  | _ => False
  end.

Section Latch.

Variable ctx : option Context.
Variable maxBootstrapRetries : Z.

(** What an error chunk may be followed by once payload has been sent: the
    message made of that very error, or nothing when the context is done. *)
Definition surfaced (streamErr : GoError) (tr : list Event) : Prop :=
  tr = [EvErr (errorMessageOf streamErr)]
  \/ (tr = [] /\ exists tick, done ctx tick = true).

(** A trace that respects the latch [sent]: no call of the credential
    manager while it is set, every payload sent sets it, and an error chunk
    received while it is set is surfaced as it is and ends the trace. *)
Fixpoint ok (sent : bool) (tr : list Event) : Prop :=
  match tr with
  | [] => True
  | EvExec _ _ _ :: tr' => sent = false /\ ok sent tr'
  | EvData _ :: tr' => ok true tr'
  | EvErr _ :: tr' => ok sent tr'
  | EvRecv chunk :: tr' =>
      match chunkErr chunk with
      | Some streamErr => if sent then surfaced streamErr tr' else ok sent tr'
      | None => ok sent tr'
      end
  end.

(** The restarts a state still allows. *)
Definition restartsLeft (st : LoopState) : nat :=
  (Z.to_nat (maxBootstrapRetries - bootstrapRetries st)
   + if failoverAttempted st then 0 else Z.to_nat maxBootstrapRetries + 1)%nat.

End Latch.

End StreamSpec.

Module Scenario.
Import GoStrings Handlers.

(** JSON text: a double quote, a quoted string, an object of string fields. *)
Definition dq : string := String (ascii_of_nat 34) "".
Definition jstr (s : string) : string := dq ++ s ++ dq.

Fixpoint jfields (fields : list (string * string)) : string :=
  match fields with
  | [] => ""
  | [(k, v)] => jstr k ++ ":" ++ jstr v
  | (k, v) :: rest => jstr k ++ ":" ++ jstr v ++ "," ++ jfields rest
  end.

Definition jobject (fields : list (string * string)) : string :=
  "{" ++ jfields fields ++ "}".

(** The request of the client, the body the Codex executor answers with, and
    the chunk it streams. *)
Definition clientRequest : bytes := jobject [("model", "claude-opus-4-6")].
Definition codexBody : bytes := jobject [("id", "msg_abc"); ("model", "gpt-5.2")].
Definition codexChunk : bytes :=
  "{" ++ jstr "type" ++ ":" ++ jstr "message_start" ++ "," ++ jstr "message" ++ ":"
      ++ jobject [("model", "gpt-5.2"); ("role", "assistant")] ++ "}".

(** The same payloads with the model the client asked for. *)
Definition masqueradedBody : bytes :=
  jobject [("id", "msg_abc"); ("model", "claude-opus-4-6")].
Definition masqueradedChunk : bytes :=
  "{" ++ jstr "type" ++ ":" ++ jstr "message_start" ++ "," ++ jstr "message" ++ ":"
      ++ jobject [("model", "claude-opus-4-6"); ("role", "assistant")] ++ "}".

(** The registry of the tests: claude-opus-4-6 is served by claude, gpt-5.2
    by codex. *)
Definition testRegistry (model : string) : list string :=
  if String.eqb model "claude-opus-4-6" then ["claude"]
  else if String.eqb model "gpt-5.2" then ["codex"]
  else [].

(** [failStatusExecutor{id: "claude", status: 429, msg: "weekly cap"}]. *)
Definition weeklyCap : GoError :=
  {| errText := "weekly cap"; errStatus := Some 429%Z; errHeaders := None |}.

(** The manager of the tests has no state of its own here: the Claude
    executor fails with 429, the Codex executor answers. *)
Definition testExecute (m : unit) (providers : list string) (req : Request) (opts : Options)
  : (Response + GoError) * unit :=
  if containsProvider providers "codex" then (inl {| respPayload := codexBody |}, m)
  else (inr weeklyCap, m).

Definition testExecuteStream (m : unit) (providers : list string) (req : Request)
    (opts : Options) : (list StreamChunk + GoError) * unit :=
  if containsProvider providers "codex"
  then (inl [{| chunkPayload := codexChunk; chunkErr := None |}], m)
  else (inl [{| chunkPayload := ""; chunkErr := Some weeklyCap |}], m).

(** A Claude stream that sends one payload and then fails. *)
Definition brokenExecuteStream (m : unit) (providers : list string) (req : Request)
    (opts : Options) : (list StreamChunk + GoError) * unit :=
  (inl [{| chunkPayload := "data: hi"; chunkErr := None |};
        {| chunkPayload := ""; chunkErr := Some weeklyCap |}], m).

(** On the one-field bodies of the scenario [sjson.SetBytes] gives the
    object with the new value. *)
Definition testSetBytes (body : bytes) (path value : string) : option bytes :=
  Some (jobject [(path, value)]).

Definition testPolicy : Config.APIKeyPolicy :=
  {| Config.APIKey := "client-key"; Config.ExcludedModels := [];
     Config.Failover :=
       {| Config.Claude := {| Config.Enabled := true;
                              Config.TargetModel := "gpt-5.2(high)";
                              Config.Rules := [] |} |};
     Config.AllowClaudeOpus46 := None; Config.DailyLimits := ∅;
     Config.DailyBudgetUSD := Config.FNum 0 |}.

Definition testContext : option Context :=
  Some {| ctxPolicy := Some testPolicy; ctxIdempotencyKey := ""; ctxDone := fun _ => false |}.

(** [ExecuteWithAuthManager] and [ExecuteStreamWithAuthManager] in the
    scenario. *)
Definition runExecute : (bytes + ErrorMessage) * list Event * unit :=
  ExecuteWithAuthManager (fun _ => false) (fun _ => None) (fun _ _ => true) testSetBytes
    (fun model => model) testRegistry "uuid-1" "requested_model" unit testExecute
    testContext tt "claude" "claude-opus-4-6" clientRequest "".

Definition runStream
    (executeStream : unit -> list string -> Request -> Options
                     -> (list StreamChunk + GoError) * unit)
    (cfg : option SDKConfig) : option (list Event * unit) :=
  ExecuteStreamWithAuthManager (fun _ => false) (fun _ => None) (fun _ _ => true) testSetBytes
    (fun model => model) testRegistry "uuid-1" "requested_model" unit executeStream
    (streamFuel cfg) cfg testContext tt "claude" "claude-opus-4-6" clientRequest "".

(** The payloads sent to the client in a trace. *)
Fixpoint sentPayloads (tr : list Event) : list bytes :=
  match tr with
  | [] => []
  | EvData payload :: tr' => payload :: sentPayloads tr'
  | _ :: tr' => sentPayloads tr'
  end.

(** The calls of the credential manager in a trace, by model. *)
Fixpoint calledModels (tr : list Event) : list string :=
  match tr with
  | [] => []
  | EvExec _ req _ :: tr' => Model req :: calledModels tr'
  | _ :: tr' => calledModels tr'
  end.

(** A trace in which every payload sent is the payload of the chunk just
    received. *)
Fixpoint forwarded (tr : list Event) : Prop :=
  match tr with
  | [] => True
  | EvRecv chunk :: tr' =>
      match tr' with
      | EvData payload :: tr'' => payload = chunkPayload chunk /\ forwarded tr''
      | _ => forwarded tr'
      end
  | EvData _ :: _ => False
  | _ :: tr' => forwarded tr'
  end.

Definition twoRetries : option SDKConfig := Some {| BootstrapRetries := 2 |}.

Definition brokenTrace : list Event :=
  match runStream brokenExecuteStream twoRetries with
  | Some (tr, _) => tr
  | None => []
  end.

End Scenario.

Module PatternSpec.
Import GoStrings.

(** No character of [s] is white space or the character [c]. *)
Fixpoint plain (c : ascii) (s : string) : bool :=
  match s with
  | EmptyString => true
  | String a s' => negb (is_space a) && negb (Ascii.eqb a c) && plain c s'
  end.

(** A pattern piece as the sanitised configuration has it: not empty, trimmed,
    lower case, without a star. *)
Definition piece (q : string) : Prop :=
  q <> "" /\ ToLower (TrimSpace q) = q /\ StringsSpec.occurs "*" q = false.

End PatternSpec.

Module GlobSpec.
Import GoStrings.

(** The segments occur in [v] in this order, one after the other, with
    anything in between. *)
Fixpoint inOrder (segments : list string) (v : string) : Prop :=
  match segments with
  | [] => True
  | s :: rest => exists g r, v = g ++ s ++ r /\ inOrder rest r
  end.

(** [v] starts with the first part, ends with the last one, and what lies
    between them holds the inner parts in order: a star stands for any
    substring. *)
Definition globMatch (parts : list string) (v : string) : Prop :=
  exists m, v = hd "" parts ++ m ++ List.last parts ""
            /\ inOrder (removelast (tl parts)) m.

(** [strings.Join(parts, string(sep))]. *)
Fixpoint Join (parts : list string) (sep : ascii) : string :=
  match parts with
  | [] => ""
  | [p] => p
  | p :: rest => p ++ String sep (Join rest sep)
  end.

End GlobSpec.

Module QuotaSpec.
Import GoStrings Policy.

(** The table behind a limiter, if it has one. *)
Definition table (l : option SQLiteDailyLimiter)
  : option (gmap (string * string * string) LimitRow) :=
  match l with
  | Some lim => db lim
  | None => None
  end.

(** The count a table holds for a key: zero without a row. *)
Definition countOf (t : gmap (string * string * string) LimitRow)
    (k : string * string * string) : Z :=
  match t !! k with
  | Some r => count r
  | None => 0%Z
  end.

End QuotaSpec.

Module LedgerSpec.
Import GoStrings Policy Billing.

(** A store with an open database. *)
Definition storeOf (d : DB) : option SQLiteStore := Some {| db := Some d |}.

(** Whether a usage row counts for an api key and a day. *)
Definition counts (apiKey dayKey : string) (k : string * string * string) : bool :=
  let '(a, _, d) := k in String.eqb a apiKey && String.eqb d dayKey.

End LedgerSpec.

Module FailoverSpec.
Import GoStrings Config.

(** A rule that can answer for a request key: its pattern matches the key
    and its target is not blank. *)
Definition applies (requestKey : string) (rule : ModelFailoverRule) : bool :=
  Policy.MatchWildcard (FromModel rule) requestKey
  && negb (String.eqb (TrimSpace (RuleTargetModel rule)) "").

(** A policy whose Claude failover is enabled, with a default target and
    rules. *)
Definition failoverPolicy (target : string) (rules : list ModelFailoverRule) : APIKeyPolicy :=
  {| APIKey := "k"; ExcludedModels := [];
     Failover := {| Claude := {| Enabled := true; TargetModel := target; Rules := rules |} |};
     AllowClaudeOpus46 := None; DailyLimits := ∅; DailyBudgetUSD := f64_zero |}.

(** The test of [FindAPIKeyPolicy]. *)
Definition hasKey (key : string) (p : APIKeyPolicy) : bool :=
  String.eqb (TrimSpace (APIKey p)) key.

End FailoverSpec.

Module GateSpec.
Import GoStrings Config Middleware.

(** A body that is nothing but its model name, read and written whole. *)
Definition plainGet (body : Handlers.bytes) (path : string) : string := body.
Definition plainSet (body : Handlers.bytes) (path value : string) : option Handlers.bytes :=
  Some value.

(** An error body that is the message. *)
Definition plainMarshal (d : Handlers.ErrorDetail) : option Handlers.bytes :=
  Some (Handlers.Message d).

(** A day key that is the same every day, and a budget in whole dollars. *)
Definition oneDay (now : Z) : string := "2026-02-13".
Definition wholeDollars (f : float64) : Z :=
  match f with
  | FNum q => (Qfloor q * 1000000)%Z
  | _ => 0%Z
  end.

(** The middleware on such bodies. *)
Definition plainMiddleware :=
  APIKeyPolicyMiddleware (fun _ => false) (fun _ => "") plainMarshal (fun s => s)
    plainGet plainSet oneDay wholeDollars.

(** A policy for client "k" that forbids claude-opus-4-6, excludes the
    gpt-4 models, allows three calls a day of claude-opus-4-5-20251101 and
    has a budget of two dollars a day. *)
Definition gatePolicy : APIKeyPolicy :=
  {| APIKey := "k"; ExcludedModels := ["gpt-4*"];
     Failover := {| Claude := {| Enabled := false; TargetModel := ""; Rules := [] |} |};
     AllowClaudeOpus46 := Some false;
     DailyLimits := {[ "claude-opus-4-5-20251101" := 3%Z ]};
     DailyBudgetUSD := FNum 2 |}.

Definition postOf (model : string) : option GinContext :=
  Some {| Method := "POST"; ctxAPIKey := " k "; ctxPolicyValue := None; Body := Some model |}.

(** A usage table that holds a cost of two dollars for client "k" today. *)
Definition spentTwoDollars : Billing.DB :=
  {| Billing.model_prices := ∅;
     Billing.daily_usage :=
       {[ ("k", "m", "2026-02-13") :=
            {| Billing.Requests := 1; Billing.FailedRequests := 0;
               Billing.InputTokens := 0; Billing.OutputTokens := 0;
               Billing.ReasoningTokens := 0; Billing.CachedTokens := 0;
               Billing.TotalTokens := 0; Billing.CostMicroUSD := 2000000;
               Billing.UpdatedAt := 0 |} ]} |}.

End GateSpec.

Module CallSpec.
Import GoStrings Handlers.

Definition is_execb (ev : Event) : bool :=
  match ev with
  | EvExec _ _ _ => true
  | _ => false
  end.

(** The number of calls of the credential manager in a trace. *)
Definition execCount (tr : list Event) : nat := length (List.filter is_execb tr).

(** Every call of the credential manager in the trace carries the
    idempotency key [key] in its metadata. *)
Definition keyed (key : string) (tr : list Event) : Prop :=
  forall providers req opts,
    In (EvExec providers req opts) tr -> Metadata opts !! "idempotency_key" = Some key.

(** Options that carry the idempotency key [key]. *)
Definition carries (key : string) (opts : Options) : Prop :=
  Metadata opts !! "idempotency_key" = Some key.

(** The idempotency key of a request: the client's, or a fresh one. *)
Definition requestKey (newUUID : string) (ctx : option Context) : string :=
  match ctx with
  | Some c => if String.eqb (ctxIdempotencyKey c) "" then newUUID else ctxIdempotencyKey c
  | None => newUUID
  end.

(** What ends a trace, as a result. *)
Definition outcomeOf (tr : list Event) : option (bytes + ErrorMessage) :=
  match List.last tr (EvData "") with
  | EvData out => Some (inl out)
  | EvErr e => Some (inr e)
  | _ => None
  end.

(** The error of [getRequestDetails]. *)
Definition unknownProvider (modelName : string) : ErrorMessage :=
  {| StatusCode := StatusBadGateway;
     Error := Some (plainError ("unknown provider for model " ++ modelName));
     Addon := None |}.

(** What a trace of the non-streaming path says about the calls made, [r]
    being the result, the trace and the manager afterwards, and [exec] the
    operation of the manager that is called. *)
Definition callsOK (json_Valid : string -> bool)
    (json_Unmarshal : string -> option errorEnvelope) (M : Type)
    (exec : M -> list string -> Request -> Options -> (Response + GoError) * M)
    (ctx : option Context) (m : M) (r : (bytes + ErrorMessage) * list Event * M) : Prop :=
  let '(res, tr, m') := r in
  outcomeOf tr = Some res
  /\ (execCount tr <= 2)%nat
  /\ match res with
     | inl _ => (1 <= execCount tr)%nat
     | inr e => (0 < StatusCode e)%Z /\ Error e <> None
     end
  /\ (execCount tr = 0%nat -> m' = m)
  /\ (execCount tr = 2%nat ->
      exists policy providers req opts err m1 ev last,
        tr = [EvExec providers req opts; ev; last]
        /\ apiKeyPolicyFromContext ctx = Some policy
        /\ Config.Enabled (Config.Claude (Config.Failover policy)) = true
        /\ containsProvider providers "claude" = true
        /\ exec m providers req opts = (inr err, m1)
        /\ isClaudeFailoverEligible json_Valid json_Unmarshal
             (StatusCode (errorMessageOf err)) (Some err) = true).

End CallSpec.

Module EndpointSpec.
Import GoStrings Config Management.

(** A patch that sets the daily budget to five dollars and nothing else. *)
Definition budgetPatch : policyPatch :=
  {| patchExcludedModels := None; patchAllowClaudeOpus46 := None;
     patchDailyLimits := None; patchDailyBudgetUSD := Some (FNum 5);
     patchAPIKey := None |}.

(** An error body that can be sent as it is: not empty, trimmed, and JSON. *)
Definition wellFormed (json_Valid : string -> bool) (body : Handlers.bytes) : Prop :=
  body <> "" /\ TrimSpace body = body /\ json_Valid body = true.

(** A JSON test that looks at the first character only, and a marshaller
    that answers the empty object. *)
Definition bracedJSON (s : string) : bool := HasPrefix s "{".
Definition emptyObject (d : Handlers.ErrorDetail) : option Handlers.bytes := Some "{}".

End EndpointSpec.

Module CancelSpec.
Import Handlers.

(** An event that reaches the client or comes from the upstream stream. *)
Definition is_traffic (ev : Event) : bool :=
  match ev with
  | EvRecv _ | EvData _ => true
  | _ => false
  end.

(** A context that is done at every [select]. *)
Definition cancelledContext : option Context :=
  Some {| ctxPolicy := Some Scenario.testPolicy; ctxIdempotencyKey := "";
          ctxDone := fun _ => true |}.

End CancelSpec.


(* ===================================================================== *)
(** * Properties *)
(* ===================================================================== *)

(** ** Strings *)

Module GoStringsFacts.
Import GoStrings StringsSpec.

#[local] Arguments String.append !_ _ / : simpl nomatch.

Ltac ascii_cases c :=
  destruct c as [[] [] [] [] [] [] [] []]; vm_compute; try reflexivity; try discriminate; auto.

Lemma lower_ascii_idem c : lower_ascii (lower_ascii c) = lower_ascii c.
Proof. ascii_cases c. Qed.

Lemma is_space_lower c : is_space (lower_ascii c) = is_space c.
Proof. ascii_cases c. Qed.

Lemma ToLower_idem s : ToLower (ToLower s) = ToLower s.
Proof. induction s as [|c s IH]; simpl; [reflexivity|]. now rewrite lower_ascii_idem, IH. Qed.

Lemma ToLower_empty s : ToLower s = "" <-> s = "".
Proof. destruct s; simpl; split; congruence. Qed.

Lemma ToLower_app a b : ToLower (a ++ b) = ToLower a ++ ToLower b.
Proof. induction a as [|c a IH]; simpl; [reflexivity|]. now rewrite IH. Qed.

Lemma len_ToLower s : len (ToLower s) = len s.
Proof. unfold len. induction s as [|c s IH]; simpl; [reflexivity|]. now rewrite IH. Qed.

Lemma len_app a b : len (a ++ b) = (len a + len b)%nat.
Proof. unfold len. induction a as [|c a IH]; simpl; [reflexivity|]. now rewrite IH. Qed.

Lemma append_empty_r s : s ++ "" = s.
Proof. induction s as [|c s IH]; simpl; [reflexivity|]. now rewrite IH. Qed.

Lemma append_assoc a b c : (a ++ b) ++ c = a ++ (b ++ c).
Proof. induction a as [|x a IH]; simpl; [reflexivity|]. now rewrite IH. Qed.

(** *** Trimming *)

Lemma TrimLeft_no_lead s : no_lead (TrimLeft s).
Proof.
  induction s as [|c s IH]; simpl; [exact I|].
  destruct (is_space c) eqn:E; [exact IH | exact E].
Qed.

Lemma TrimLeft_id s : no_lead s -> TrimLeft s = s.
Proof. destruct s as [|c s]; simpl; [reflexivity|]. now intros ->. Qed.

Lemma TrimRight_no_lead s : no_lead s -> no_lead (TrimRight s).
Proof.
  destruct s as [|c s]; simpl; [auto|]. intros E.
  destruct (TrimRight s); rewrite ?E; exact E.
Qed.

Lemma TrimRight_idem s : TrimRight (TrimRight s) = TrimRight s.
Proof.
  induction s as [|c s IH]; simpl; [reflexivity|].
  destruct (TrimRight s) as [|d r] eqn:E.
  - destruct (is_space c) eqn:Ec; simpl; [reflexivity| now rewrite Ec].
  - simpl. simpl in IH. rewrite IH. reflexivity.
Qed.

Lemma TrimSpace_no_lead s : no_lead (TrimSpace s).
Proof. apply TrimRight_no_lead, TrimLeft_no_lead. Qed.

Lemma TrimSpace_idem s : TrimSpace (TrimSpace s) = TrimSpace s.
Proof.
  unfold TrimSpace at 1. rewrite (TrimLeft_id (TrimSpace s)) by apply TrimSpace_no_lead.
  apply TrimRight_idem.
Qed.

Lemma ToLower_TrimLeft s : ToLower (TrimLeft s) = TrimLeft (ToLower s).
Proof.
  induction s as [|c s IH]; simpl; [reflexivity|].
  rewrite is_space_lower. destruct (is_space c); [exact IH | reflexivity].
Qed.

Lemma ToLower_TrimRight s : ToLower (TrimRight s) = TrimRight (ToLower s).
Proof.
  induction s as [|c s IH]; simpl; [reflexivity|].
  rewrite <- IH, is_space_lower.
  destruct (TrimRight s) as [|d r]; simpl; [destruct (is_space c)|]; reflexivity.
Qed.

Lemma ToLower_TrimSpace s : ToLower (TrimSpace s) = TrimSpace (ToLower s).
Proof. unfold TrimSpace. now rewrite ToLower_TrimRight, ToLower_TrimLeft. Qed.

(** A canonical key is a fixed point of trimming and of lowercasing. *)
Lemma TrimSpace_canonical s : TrimSpace (ToLower (TrimSpace s)) = ToLower (TrimSpace s).
Proof. now rewrite <- ToLower_TrimSpace, TrimSpace_idem. Qed.

Lemma TrimRight_prefix s : exists w, s = TrimRight s ++ w.
Proof.
  induction s as [|c s [w IH]]; simpl; [now exists ""|].
  destruct (TrimRight s) as [|d r] eqn:E.
  - destruct (is_space c); [now exists (String c s)|].
    exists w. simpl. now rewrite IH at 1.
  - exists w. simpl. simpl in IH. now rewrite IH at 1.
Qed.

Lemma TrimLeft_suffix s : exists w, s = w ++ TrimLeft s.
Proof.
  induction s as [|c s [w IH]]; simpl; [now exists ""|].
  destruct (is_space c); [|now exists ""].
  exists (String c w). simpl. now rewrite IH at 1.
Qed.

Lemma len_TrimSpace s : (len (TrimSpace s) <= len s)%nat.
Proof.
  unfold TrimSpace.
  destruct (TrimRight_prefix (TrimLeft s)) as [w Hw].
  destruct (TrimLeft_suffix s) as [v Hv].
  rewrite Hv at 2. rewrite len_app. rewrite Hw at 2. rewrite len_app. lia.
Qed.

(** *** Slices, prefixes and suffixes *)

Lemma slice_to_from n s : slice_to n s ++ slice_from n s = s.
Proof.
  revert s; induction n as [|n IH]; intros [|c s]; simpl; try reflexivity.
  now rewrite IH.
Qed.

Lemma len_slice_to n s : len (slice_to n s) = Nat.min n (len s).
Proof.
  unfold len. revert s; induction n as [|n IH]; intros [|c s]; simpl; try reflexivity.
  now rewrite IH.
Qed.

Lemma len_slice_from n s : len (slice_from n s) = (len s - n)%nat.
Proof.
  unfold len. revert s; induction n as [|n IH]; intros [|c s]; simpl; try reflexivity.
  now rewrite IH.
Qed.

Lemma slice_from_app a b : slice_from (len a) (a ++ b) = b.
Proof. induction a as [|c a IH]; simpl; [reflexivity | exact IH]. Qed.

Lemma slice_to_app a b : slice_to (len a) (a ++ b) = a.
Proof. induction a as [|c a IH]; simpl; [reflexivity | now rewrite IH]. Qed.

Lemma slice_from_app_ge n a b :
  (len a <= n)%nat -> slice_from n (a ++ b) = slice_from (n - len a) b.
Proof.
  revert n; induction a as [|c a IH]; intros n Hn; simpl.
  - now rewrite Nat.sub_0_r.
  - destruct n as [|n]; [simpl in Hn; lia|]. simpl. apply IH. simpl in Hn. lia.
Qed.

Lemma slice_to_app_le n a b : (n <= len a)%nat -> slice_to n (a ++ b) = slice_to n a.
Proof.
  revert n; induction a as [|c a IH]; intros [|n] Hn; simpl; try reflexivity.
  - simpl in Hn. lia.
  - rewrite IH; [reflexivity | simpl in Hn; lia].
Qed.

Lemma slice_from_app_le n a b :
  (n <= len a)%nat -> slice_from n (a ++ b) = slice_from n a ++ b.
Proof.
  revert n; induction a as [|c a IH]; intros [|n] Hn; simpl; try reflexivity.
  - simpl in Hn. lia.
  - apply IH. simpl in Hn. lia.
Qed.

Lemma ToLower_slice_to n s : ToLower (slice_to n s) = slice_to n (ToLower s).
Proof.
  revert s; induction n as [|n IH]; intros [|c s]; simpl; try reflexivity.
  now rewrite IH.
Qed.

Lemma slice_to_no_lead n s : no_lead s -> no_lead (slice_to n s).
Proof. destruct n, s; simpl; auto. Qed.

Lemma HasPrefix_spec s p : HasPrefix s p = true <-> exists r, s = p ++ r.
Proof.
  revert s; induction p as [|a p IH]; intros s; simpl.
  - split; [intros _; now exists s | reflexivity].
  - destruct s as [|b s].
    + split; [discriminate | intros [r Hr]; discriminate].
    + rewrite andb_true_iff, IH, Ascii.eqb_eq. split.
      * intros [-> [r ->]]. now exists r.
      * intros [r Hr]. injection Hr as -> ->. split; [reflexivity | now exists r].
Qed.

Lemma HasPrefix_len s p : HasPrefix s p = true -> (len p <= len s)%nat.
Proof. intros [r ->]%HasPrefix_spec. rewrite len_app. lia. Qed.

Lemma HasPrefix_slice_to s p : HasPrefix s p = true -> slice_to (len p) s = p.
Proof. intros [r ->]%HasPrefix_spec. apply slice_to_app. Qed.

Lemma HasSuffix_spec s suf : HasSuffix s suf = true <-> exists r, s = r ++ suf.
Proof.
  unfold HasSuffix. rewrite andb_true_iff, Nat.leb_le, String.eqb_eq. split.
  - intros [Hl He]. exists (slice_to (len s - len suf) s).
    rewrite <- (slice_to_from (len s - len suf) s) at 1. now rewrite He.
  - intros [r ->]. rewrite len_app. split; [lia|].
    replace (len r + len suf - len suf)%nat with (len r) by lia.
    apply slice_from_app.
Qed.

Lemma HasPrefix_empty p : p <> "" -> HasPrefix "" p = false.
Proof. destruct p; [congruence | reflexivity]. Qed.

Lemma Contains_empty p : p <> "" -> Contains "" p = false.
Proof. intros H. simpl. now rewrite HasPrefix_empty. Qed.

(** *** Occurrences of one byte *)

Lemma Contains_byte s c : Contains s (String c "") = occurs c s.
Proof.
  induction s as [|a s IH]; [reflexivity|].
  cbn [Contains HasPrefix occurs]. rewrite IH. now rewrite andb_true_r.
Qed.

Lemma occurs_app c a b : occurs c (a ++ b) = occurs c a || occurs c b.
Proof. induction a as [|x a IH]; simpl; [reflexivity|]. now rewrite IH, orb_assoc. Qed.

Lemma LastIndexByte_range s c : (-1 <= LastIndexByte s c < Z.of_nat (len s))%Z.
Proof.
  induction s as [|a s IH]; simpl; [lia|].
  unfold len in *. simpl String.length.
  destruct (0 <=? LastIndexByte s c)%Z eqn:E; [apply Z.leb_le in E; lia|].
  destruct (Ascii.eqb a c); lia.
Qed.

(** At a found position stands the byte looked for, and it does not occur
    after it. *)
Lemma LastIndexByte_found s c :
  (0 <= LastIndexByte s c)%Z ->
  s = slice_to (Z.to_nat (LastIndexByte s c)) s
      ++ String c (slice_from (Z.to_nat (LastIndexByte s c) + 1) s)
  /\ occurs c (slice_from (Z.to_nat (LastIndexByte s c) + 1) s) = false.
Proof.
  induction s as [|a s IH]; simpl; [lia|].
  destruct (0 <=? LastIndexByte s c)%Z eqn:E.
  - apply Z.leb_le in E. intros _. destruct (IH E) as [IH1 IH2].
    replace (Z.to_nat (LastIndexByte s c + 1)) with (S (Z.to_nat (LastIndexByte s c))) by lia.
    simpl. split; [now rewrite <- IH1 | exact IH2].
  - apply Z.leb_gt in E. destruct (Ascii.eqb a c) eqn:Ea; [|lia]. intros _.
    apply Ascii.eqb_eq in Ea. subst a. simpl. split; [reflexivity|].
    clear IH. induction s as [|b s IHs]; [reflexivity|].
    simpl in E |- *. destruct (0 <=? LastIndexByte s c)%Z eqn:E'.
    + apply Z.leb_le in E'. lia.
    + destruct (Ascii.eqb b c) eqn:Eb; [lia|].
      rewrite Ascii.eqb_sym, Eb. simpl. apply IHs. apply Z.leb_gt in E'. lia.
Qed.

Lemma LastIndexByte_none s c : (LastIndexByte s c < 0)%Z <-> occurs c s = false.
Proof.
  induction s as [|a s IH]; simpl; [split; [reflexivity | lia]|].
  destruct (0 <=? LastIndexByte s c)%Z eqn:E.
  - apply Z.leb_le in E. split; [lia|]. intros H. apply orb_false_iff in H as [_ H].
    apply IH in H. lia.
  - apply Z.leb_gt in E. rewrite (Ascii.eqb_sym c a).
    destruct (Ascii.eqb a c); simpl; [split; [lia | discriminate]|].
    split; intros _; [now apply IH | lia].
Qed.

End GoStringsFacts.

(** ** Model keys *)

Module PolicyFacts.
Import GoStrings StringsSpec GoStringsFacts Policy.

#[local] Arguments String.append !_ _ / : simpl nomatch.

(** The cases of [TestDowngradeClaudeOpus46], [TestNormaliseModelKey_StripsSuffix]
    and [TestMatchWildcard], and two patterns with an inner segment. *)
Example test_downgrade :
  DowngradeClaudeOpus46 "claude-opus-4-6" = ("claude-opus-4-5-20251101", true) /\
  DowngradeClaudeOpus46 "claude-opus-4-6-thinking" = ("claude-opus-4-5-20251101-thinking", true) /\
  DowngradeClaudeOpus46 "claude-opus-4-6(8192)" = ("claude-opus-4-5-20251101(8192)", true) /\
  DowngradeClaudeOpus46 "claude-opus-4-6-thinking(high)" = ("claude-opus-4-5-20251101-thinking(high)", true) /\
  DowngradeClaudeOpus46 "claude-sonnet-4-5" = ("claude-sonnet-4-5", false).
Proof. repeat split; vm_compute; reflexivity. Qed.

Example test_normalise :
  NormaliseModelKey "claude-opus-4-6(8192)" = "claude-opus-4-6".
Proof. vm_compute. reflexivity. Qed.

Example test_match_wildcard :
  MatchWildcard "claude-*" "claude-opus-4-6" = true /\
  MatchWildcard "*-thinking" "claude-opus-4-5-thinking" = true /\
  MatchWildcard "claude-opus-4-6" "claude-opus-4-6" = true /\
  MatchWildcard "claude-opus-4-6" "claude-opus-4-5" = false /\
  MatchWildcard "a*b*c" "aXbYc" = true /\
  MatchWildcard "a*b*c" "aXcYb" = false.
Proof. repeat split; vm_compute; reflexivity. Qed.

(** *** The suffix parser *)

Lemma ParseSuffix_none s :
  Thinking.HasSuffix (Thinking.ParseSuffix s) = false ->
  Thinking.ModelName (Thinking.ParseSuffix s) = s.
Proof.
  unfold Thinking.ParseSuffix.
  destruct (LastIndexByte s "(" <? 0)%Z; [reflexivity|].
  destruct (GoStrings.HasSuffix s ")"); simpl; [discriminate | reflexivity].
Qed.

Lemma ends_with_app a t c :
  t <> "" -> (exists r, a ++ t = r ++ String c "") -> exists r', t = r' ++ String c "".
Proof.
  intros Ht. induction a as [|x a IH]; simpl; [auto|].
  intros [[|y r] Hr]; simpl in Hr.
  - injection Hr as _ Hr. destruct a, t; simpl in Hr; congruence.
  - injection Hr as _ Hr. apply IH. now exists r.
Qed.

(** A name with a suffix is its model name followed by the group. *)
Lemma ParseSuffix_some s :
  Thinking.HasSuffix (Thinking.ParseSuffix s) = true ->
  let i := Z.to_nat (LastIndexByte s "(") in
  Thinking.ModelName (Thinking.ParseSuffix s) = slice_to i s /\
  (i < len s)%nat /\
  s = Thinking.ModelName (Thinking.ParseSuffix s)
      ++ "(" ++ Thinking.RawSuffix (Thinking.ParseSuffix s) ++ ")".
Proof.
  unfold Thinking.ParseSuffix.
  destruct (LastIndexByte s "(" <? 0)%Z eqn:E; [discriminate|].
  destruct (GoStrings.HasSuffix s ")") eqn:Es; simpl; [|discriminate].
  intros _. apply Z.ltb_ge in E.
  pose proof (LastIndexByte_range s "("%char) as Hr.
  destruct (LastIndexByte_found s "("%char E) as [Hs _].
  set (i := Z.to_nat (LastIndexByte s "(")) in *.
  assert (Hi : (i < len s)%nat) by lia.
  split; [reflexivity|]. split; [exact Hi|].
  set (t := slice_from (i + 1) s) in *.
  apply HasSuffix_spec in Es.
  rewrite Hs in Es.
  apply ends_with_app in Es; [|discriminate].
  destruct Es as [[|y r'] Hr']; simpl in Hr'; [destruct t; discriminate|].
  injection Hr' as <- Ht.
  assert (Hl : (len s - 1 - (i + 1))%nat = len r').
  { rewrite Hs at 1. rewrite len_app, len_slice_to, Ht. unfold len at 2. simpl.
    fold (len (r' ++ ")")). rewrite len_app. simpl. lia. }
  rewrite Hl, Ht, slice_to_app. rewrite <- Ht. exact Hs.
Qed.

Lemma NormaliseModelKey_canonical m :
  TrimSpace (NormaliseModelKey m) = NormaliseModelKey m.
Proof. apply TrimSpace_canonical. Qed.

Lemma NormaliseModelKey_lower m :
  ToLower (NormaliseModelKey m) = NormaliseModelKey m.
Proof. apply ToLower_idem. Qed.



(** *** The opus downgrade *)

Lemma prefix_of_trimmed_lower base P :
  no_lead base ->
  HasPrefix (ToLower (TrimSpace base)) P = true ->
  (len P <= len base)%nat /\ ToLower (slice_to (len P) base) = P.
Proof.
  intros Hn H. unfold TrimSpace in H. rewrite (TrimLeft_id base Hn) in H.
  destruct (TrimRight_prefix base) as [w Hw].
  pose proof (HasPrefix_len _ _ H) as Hl. rewrite len_ToLower in Hl.
  apply HasPrefix_slice_to in H. rewrite <- ToLower_slice_to in H.
  split.
  - rewrite Hw, len_app. lia.
  - rewrite Hw, slice_to_app_le by exact Hl. exact H.
Qed.


(** *** Wildcards *)

Lemma occurs_star_lower s : occurs "*" (ToLower s) = occurs "*" s.
Proof.
  induction s as [|c s IH]; simpl; [reflexivity|]. rewrite IH. f_equal.
  clear. ascii_cases c.
Qed.

Lemma occurs_star_TrimSpace s : occurs "*" (TrimSpace s) = occurs "*" s.
Proof.
  assert (Hsp : forall c, is_space c = true -> Ascii.eqb "*" c = false).
  { intros c. ascii_cases c. }
  assert (HL : forall t, occurs "*" (TrimLeft t) = occurs "*" t).
  { induction t as [|c t IH]; [reflexivity|]. cbn [TrimLeft occurs].
    destruct (is_space c) eqn:E; [|reflexivity]. now rewrite (Hsp c E), IH. }
  assert (HR : forall t, occurs "*" (TrimRight t) = occurs "*" t).
  { induction t as [|c t IH]; [reflexivity|]. cbn [TrimRight occurs].
    rewrite <- IH. destruct (TrimRight t) as [|d r]; [|reflexivity].
    destruct (is_space c) eqn:E; cbn [occurs]; [now rewrite (Hsp c E) | reflexivity]. }
  unfold TrimSpace. now rewrite HR, HL.
Qed.


End PolicyFacts.

(** ** The daily limiter *)

Module LimiterFacts.
Import GoStrings GoStringsFacts Policy LimiterSpec.

(** [TestSQLiteDailyLimiter_Consume_Persists]: limit 2, four calls; the
    limiter value carries the table over the reopening. *)
Example test_consume_persists :
  fst (ConsumeMany (open ∅) [100; 101; 102; 103]%Z "k1" "claude-opus-4-6" "2026-02-08" 2)
  = [(1, true, None); (2, true, None); (2, false, None); (2, false, None)]%Z.
Proof. vm_compute. reflexivity. Qed.

Ltac answer_cases :=
  unfold answer;
  repeat match goal with
         | |- context [Z.leb ?a ?b] => destruct (Z.leb_spec a b)
         end;
  try lia; try reflexivity; try (do 3 f_equal; lia).

Lemma Consume_live t now apiKey model dayKey limit :
  ~ blank apiKey model dayKey -> (0 < limit)%Z ->
  Consume (open t) None now apiKey model dayKey limit
  = match consumeStmt t (TrimSpace apiKey) (ToLower (TrimSpace model)) (TrimSpace dayKey)
                      now limit with
    | (None, t') => ((limit, false, None), open t')
    | (Some c, t') => ((c, true, None), open t')
    end.
Proof.
  intros Hb Hl. unfold Consume, open, blank in *. simpl.
  destruct (String.eqb_spec (TrimSpace apiKey) ""); [tauto|].
  destruct (String.eqb_spec (ToLower (TrimSpace model)) ""); [tauto|].
  destruct (String.eqb_spec (TrimSpace dayKey) ""); [tauto|].
  simpl. destruct (Z.leb_spec limit 0); [lia | reflexivity].
Qed.

(** One call, by the count found in the row. *)
Lemma Consume_step t now apiKey model dayKey limit :
  ~ blank apiKey model dayKey -> (0 < limit)%Z ->
  let k := rowKey apiKey model dayKey in
  Consume (open t) None now apiKey model dayKey limit
  = match t !! k with
    | None => ((1%Z, true, None), open (<[k := {| count := 1; updated_at := now |}]> t))
    | Some r =>
        if (count r <? limit)%Z
        then (((count r + 1)%Z, true, None),
              open (<[k := {| count := count r + 1; updated_at := now |}]> t))
        else ((limit, false, None), open t)
    end.
Proof.
  intros Hb Hl k. rewrite Consume_live by assumption.
  unfold consumeStmt. fold (rowKey apiKey model dayKey). fold k.
  destruct (t !! k) as [r|]; [|reflexivity].
  destruct (count r <? limit)%Z; reflexivity.
Qed.

(** Calls on a row that holds [c], with [1 <= c <= limit]. *)
Lemma ConsumeMany_row nows : forall t apiKey model dayKey limit r,
  ~ blank apiKey model dayKey -> (0 < limit)%Z ->
  let k := rowKey apiKey model dayKey in
  t !! k = Some r -> (1 <= count r <= limit)%Z ->
  exists t' r',
    snd (ConsumeMany (open t) nows apiKey model dayKey limit) = open t'
    /\ t' !! k = Some r'
    /\ count r' = Z.min (count r + Z.of_nat (length nows)) limit
    /\ (forall k', k' <> k -> t' !! k' = t !! k')
    /\ (forall i, (i < length nows)%nat ->
          fst (ConsumeMany (open t) nows apiKey model dayKey limit) !! i
          = Some (answer limit (count r + Z.of_nat i + 1))).
Proof.
  induction nows as [|now nows IH]; intros t apiKey model dayKey limit r Hb Hl k Hr Hc.
  - exists t, r. simpl. repeat split; auto; [lia | intros i Hi; lia].
  - cbn [ConsumeMany].
    pose proof (Consume_step t now apiKey model dayKey limit Hb Hl) as Hs.
    cbv zeta in Hs. fold k in Hs. rewrite Hr in Hs. rewrite Hs. clear Hs.
    destruct (Z.ltb_spec (count r) limit) as [Hlt|Hge].
    + set (r1 := {| count := count r + 1; updated_at := now |}).
      set (t1 := <[k := r1]> t).
      destruct (IH t1 apiKey model dayKey limit r1 Hb Hl) as (t' & r' & E1 & E2 & E3 & E4 & E5).
      { subst t1. fold k. apply lookup_insert_eq. }
      { simpl. lia. }
      fold k in E2, E4, E5.
      destruct (ConsumeMany (open t1) nows apiKey model dayKey limit) as [rs l''] eqn:EM.
      simpl in E1, E5. simpl. exists t', r'. repeat split; auto.
      * rewrite E3. simpl. lia.
      * intros k' Hk'. rewrite E4 by exact Hk'. subst t1. now apply lookup_insert_ne.
      * intros [|i] Hi; simpl.
        -- answer_cases.
        -- rewrite E5 by lia. simpl. do 2 f_equal. lia.
    + destruct (IH t apiKey model dayKey limit r Hb Hl Hr Hc) as (t' & r' & E1 & E2 & E3 & E4 & E5).
      fold k in E2, E4, E5.
      destruct (ConsumeMany (open t) nows apiKey model dayKey limit) as [rs l''] eqn:EM.
      simpl in E1, E5. simpl. exists t', r'. repeat split; auto.
      * rewrite E3. lia.
      * intros [|i] Hi; simpl.
        -- answer_cases.
        -- rewrite E5 by lia. answer_cases.
Qed.



End LimiterFacts.

(** ** Prices and cost *)

Module BillingFacts.
Import GoStrings GoStringsFacts Policy Billing BillingSpec.

(** *** Price resolution *)

(** The first half of [TestSQLiteStore_ModelPrices_DefaultAndOverride], and an
    unknown model. *)
Example test_resolve_default :
  ResolvePriceMicro emptyStore noErr "claude-opus-4-5-20251101"
  = ({| Prompt := 5000000; Completion := 25000000; Cached := 500000 |}, "default", 0%Z, None)
  /\ ResolvePriceMicro emptyStore noErr "claude-opus-4-5-20251101-thinking(8192)"
     = ({| Prompt := 5000000; Completion := 25000000; Cached := 500000 |}, "default", 0%Z, None)
  /\ ResolvePriceMicro emptyStore noErr "gpt-5.2" = (zeroPrice, "missing", 0%Z, None).
Proof. repeat split; vm_compute; reflexivity. Qed.


Lemma DefaultPrices_blank : DefaultPrices !! "" = None.
Proof. reflexivity. Qed.

(** The store never holds a price under the blank key: [UpsertModelPrice]
    refuses it. *)
Lemma UpsertModelPrice_keeps_blank_free s fault now model price :
  savedPrices s !! "" = None ->
  savedPrices (snd (UpsertModelPrice s fault now model price)) !! "" = None.
Proof.
  intros H. unfold UpsertModelPrice. unfold savedPrices in H |- *.
  destruct (openDB s) as [d|] eqn:E; simpl; [|now rewrite E].
  destruct (String.eqb_spec (NormaliseModelKey model) ""); simpl; [now rewrite E|].
  destruct (_ || _ || _); simpl; [now rewrite E|].
  destruct fault; simpl; [now rewrite E|].
  rewrite lookup_insert_ne; [exact H | assumption].
Qed.




(** *** Cost *)

Lemma wrap64_id z : (min_int64 <= z <= max_int64)%Z -> wrap64 z = z.
Proof.
  unfold wrap64, min_int64, max_int64. intros H.
  change (2 ^ 63)%Z with 9223372036854775808%Z in *.
  change (2 ^ 64)%Z with 18446744073709551616%Z.
  rewrite Z.mod_small by lia. lia.
Qed.

Lemma int64_bounds : min_int64 = (-9223372036854775808)%Z /\ max_int64 = 9223372036854775807%Z.
Proof. split; reflexivity. Qed.

Lemma classCost_div n : (0 <= n)%Z ->
  round_half_up (inject_Z n / inject_Z 1000000) = ((n + 500000) / 1000000)%Z.
Proof.
  intros Hn. unfold round_half_up, Qfloor, Qplus, Qdiv, Qmult, Qinv, inject_Z.
  cbn [Qnum Qden].
  change (Z.pos (1 * 1000000 * 2)) with (1000000 * 2)%Z.
  change (Z.pos (1 * 1000000)) with 1000000%Z.
  replace (n * 1 * 2 + 1 * 1000000)%Z with ((n + 500000) * 2)%Z by lia.
  apply Z.div_mul_cancel_r; lia.
Qed.

(** [costMicroUSD] is the formula, as long as the product fits in an int64. *)
Lemma costMicroUSD_exact tokens rate :
  (0 <= tokens)%Z -> (0 <= rate)%Z -> (tokens * rate + 500000 <= max_int64)%Z ->
  costMicroUSD tokens rate = classCost tokens rate.
Proof.
  intros Ht Hr Hb. destruct int64_bounds as [Hmin Hmax].
  unfold costMicroUSD, classCost. rewrite classCost_div by lia.
  destruct (Z.leb_spec tokens 0) as [H0|H0]; simpl.
  { replace tokens with 0%Z by lia. reflexivity. }
  destruct (Z.leb_spec rate 0) as [H1|H1]; simpl.
  { replace rate with 0%Z by lia. now rewrite Z.mul_0_r. }
  assert (0 < tokens * rate)%Z by lia.
  unfold div64, add64, mul64, tokensPerMillion.
  change (Z.quot 1000000 2) with 500000%Z.
  rewrite (wrap64_id 500000) by lia.
  rewrite (wrap64_id (tokens * rate)) by lia.
  rewrite (wrap64_id (tokens * rate + 500000)) by lia.
  rewrite Z.quot_div_nonneg by lia.
  apply wrap64_id.
  assert (0 <= (tokens * rate + 500000) / 1000000 <= tokens * rate + 500000)%Z.
  { split; [apply Z.div_pos; lia|]. apply Z.div_le_upper_bound; lia. }
  lia.
Qed.

Lemma classCost_bounds tokens rate :
  (0 <= tokens)%Z -> (0 <= rate)%Z -> (tokens * rate + 500000 <= max_int64)%Z ->
  (0 <= classCost tokens rate <= 9223372036855)%Z.
Proof.
  intros Ht Hr Hb. destruct int64_bounds as [Hmin Hmax].
  unfold classCost. rewrite classCost_div by lia. split.
  - apply Z.div_pos; lia.
  - apply Z.div_le_upper_bound; lia.
Qed.

Lemma max64_max a b : max64 a b = Z.max a b.
Proof. unfold max64. destruct (Z.gtb_spec a b); lia. Qed.

(** The cases of the comment in [TestSQLiteStore_AddUsageAndDailyCost]
    (2 tokens at $1 / 1M are 2 micro-USD) and the rounding at one half. *)
Example test_cost :
  costMicroUSD 2 1000000 = 2%Z /\ costMicroUSD 1 499999 = 0%Z
  /\ costMicroUSD 1 500000 = 1%Z /\ costMicroUSD 3 500000 = 2%Z
  /\ costMicroUSD (-5) 1000000 = 0%Z.
Proof. repeat split; vm_compute; reflexivity. Qed.

Section Sink.

Variable DayKeyChina : Z -> string.

Abbreviation sinkKey := (sinkKey DayKeyChina).

(** C6 (amended): for a record with non-negative token counts, priced at
    non-negative rates, and as long as the int64 arithmetic does not
    overflow, the cost
    added to the daily row is the sum over the three classes of
    round_half_up(tokens * rate / 1_000_000), with prompt tokens
    max(0, input - cached) at the prompt rate, cached tokens at the cached
    rate and completion tokens output + reasoning at the completion rate;
    the total added is the reported one, or input + output + reasoning +
    cached when 0 is reported, never below 0. *)
Theorem HandleUsage_cost (d : DB) (queryErr : string -> option string) (now : Z)
    (record : UsageRecord) (price : PriceMicroUSDPer1M) (source : string) (updated : Z) :
  let s := Some {| db := Some d |} in
  let detail := rDetail record in
  let input := dInputTokens detail in
  let output := dOutputTokens detail in
  let reasoning := dReasoningTokens detail in
  let cached := dCachedTokens detail in
  let promptTokens := Z.max 0 (input - cached) in
  let completionTokens := (output + reasoning)%Z in
  let day := DayKeyChina (match rRequestedAt record with None => now | Some t => t end) in
  let k := sinkKey now record in
  let old := daily_usage d !! k in
  TrimSpace (rAPIKey record) <> "" ->
  TrimSpace day <> "" ->
  ResolvePriceMicro s queryErr (sinkModel (rModel record)) = (price, source, updated, None) ->
  (0 <= input)%Z -> (0 <= output)%Z -> (0 <= reasoning)%Z -> (0 <= cached)%Z ->
  (input + output + reasoning + cached <= max_int64)%Z ->
  (min_int64 <= dTotalTokens detail <= max_int64)%Z ->
  (0 <= Prompt price)%Z -> (0 <= Completion price)%Z -> (0 <= Cached price)%Z ->
  (promptTokens * Prompt price + 500000 <= max_int64)%Z ->
  (cached * Cached price + 500000 <= max_int64)%Z ->
  (completionTokens * Completion price + 500000 <= max_int64)%Z ->
  exists d' row,
    HandleUsage DayKeyChina (Some {| store := s |}) queryErr None now record
    = Some {| db := Some d' |}
    /\ daily_usage d' !! k = Some row
    /\ CostMicroUSD row
       = (match old with None => 0 | Some r => CostMicroUSD r end
          + (classCost promptTokens (Prompt price)
             + classCost cached (Cached price)
             + classCost completionTokens (Completion price)))%Z
    /\ TotalTokens row
       = (match old with None => 0 | Some r => TotalTokens r end
          + Z.max 0 (if (dTotalTokens detail =? 0)%Z
                     then input + output + reasoning + cached
                     else dTotalTokens detail))%Z.
Proof.
  intros s detail input output reasoning cached promptTokens completionTokens day k old
    Hkey Hday Hres Hi Ho Hr Hc Hsum Htot Hp1 Hp2 Hp3 Hb1 Hb2 Hb3.
  destruct int64_bounds as [Hmin Hmax].
  assert (Hmodel : NormaliseModelKey (sinkModel (rModel record)) <> "").
  { intros E. unfold ResolvePriceMicro in Hres. rewrite E in Hres. discriminate. }
  unfold HandleUsage. cbn [store openDB db].
  subst s. cbn [openDB db].
  destruct (String.eqb_spec (TrimSpace (rAPIKey record)) ""); [contradiction|].
  fold (sinkModel (rModel record)). rewrite Hres.
  fold detail. fold input output reasoning cached.
  (* the token classes *)
  assert (Eprompt : (if (sub64 input cached <? 0)%Z then 0%Z else sub64 input cached)
                    = promptTokens).
  { unfold sub64. rewrite wrap64_id by lia. subst promptTokens.
    destruct (Z.ltb_spec (input - cached) 0); lia. }
  assert (Ecompl : add64 output reasoning = completionTokens).
  { unfold add64. apply wrap64_id. subst completionTokens. lia. }
  rewrite Eprompt, Ecompl.
  rewrite !costMicroUSD_exact by (subst promptTokens completionTokens; lia).
  pose proof (classCost_bounds promptTokens (Prompt price)) as B1.
  pose proof (classCost_bounds cached (Cached price)) as B2.
  pose proof (classCost_bounds completionTokens (Completion price)) as B3.
  specialize (B1 ltac:(subst promptTokens; lia) Hp1 Hb1).
  specialize (B2 Hc Hp3 Hb2).
  specialize (B3 ltac:(subst completionTokens; lia) Hp2 Hb3).
  set (c1 := classCost promptTokens (Prompt price)) in *.
  set (c2 := classCost cached (Cached price)) in *.
  set (c3 := classCost completionTokens (Completion price)) in *.
  assert (Ecost : add64 (add64 (add64 0 c1) c2) c3 = (c1 + c2 + c3)%Z).
  { unfold add64. rewrite (wrap64_id (0 + c1)) by lia.
    rewrite (wrap64_id (0 + c1 + c2)) by lia. rewrite wrap64_id by lia. lia. }
  rewrite Ecost.
  assert (Etotal : add64 (add64 (add64 input output) reasoning) cached
                   = (input + output + reasoning + cached)%Z).
  { unfold add64. rewrite (wrap64_id (input + output)) by lia.
    rewrite (wrap64_id (input + output + reasoning)) by lia. apply wrap64_id. lia. }
  rewrite Etotal.
  (* the final statement *)
  unfold AddUsage. cbn [openDB db].
  rewrite TrimSpace_idem.
  destruct (String.eqb_spec (TrimSpace (rAPIKey record)) ""); [contradiction|].
  destruct (String.eqb_spec (NormaliseModelKey (sinkModel (rModel record))) "");
    [contradiction|].
  fold day.
  destruct (String.eqb_spec (TrimSpace day) ""); [contradiction|].
  cbn [orb Requests FailedRequests].
  assert (Ef : (boolToInt64 (rFailed record) <? 0)%Z = false).
  { destruct (rFailed record); reflexivity. }
  rewrite Ef. cbn [orb snd].
  eexists. eexists. split; [reflexivity|].
  cbn [daily_usage]. fold k. fold (sinkKey now record). fold k.
  split; [apply lookup_insert_eq|].
  rewrite !max64_max. subst old k. unfold sinkKey. fold day.
  destruct (daily_usage d !! _) as [r|]; cbn [addUsageRow CostMicroUSD TotalTokens].
  - split; [lia|]. destruct (Z.eqb_spec (dTotalTokens detail) 0);
      repeat match goal with |- context [Z.ltb ?a ?b] => destruct (Z.ltb_spec a b) end; lia.
  - split; [lia|]. destruct (Z.eqb_spec (dTotalTokens detail) 0);
      repeat match goal with |- context [Z.ltb ?a ?b] => destruct (Z.ltb_spec a b) end; lia.
Qed.

End Sink.

(** The theorem at work: 800 prompt tokens at $5, 200 cached at $0.50 and 600
    completion tokens at $25 per million are 4000 + 100 + 15000 micro-USD. *)
Lemma HandleUsage_cost_witness :
  exists d' row,
    HandleUsage sampleDay (Some {| store := emptyStore |}) noErr None 0 sampleRecord
    = Some {| db := Some d' |}
    /\ daily_usage d' !! ("k", "claude-opus-4-5-20251101", "2026-02-13") = Some row
    /\ CostMicroUSD row = 19100%Z
    /\ TotalTokens row = 1800%Z.
Proof.
  destruct (HandleUsage_cost sampleDay {| model_prices := ∅; daily_usage := ∅ |} noErr 0
              sampleRecord
              {| Prompt := 5000000; Completion := 25000000; Cached := 500000 |}
              "default" 0)
    as (d' & row & H1 & H2 & H3 & H4);
    try (vm_compute; first [reflexivity | discriminate | intro; discriminate
                            | split; intro; discriminate]).
  exists d', row. split; [exact H1|]. split; [exact H2|].
  split; [rewrite H3 | rewrite H4]; vm_compute; reflexivity.
Defined.

(** C6, as stated, fails: [costMicroUSD] charges nothing for a class whose
    token count is not positive, where the formula gives a negative amount.
    For -2000000 completion tokens at $1 per million the row gets 0, not
    -2000000. *)
Lemma HandleUsage_cost_not_formula :
  exists d' row,
    HandleUsage sampleDay (Some {| store := pricedStore |}) noErr None 0 negativeRecord
    = Some {| db := Some d' |}
    /\ daily_usage d' !! ("k", "m", "2026-02-13") = Some row
    /\ CostMicroUSD row
       <> (classCost (Z.max 0 (0 - 0)) (Prompt completionPrice)
           + classCost 0 (Cached completionPrice)
           + classCost (-2000000 + 0) (Completion completionPrice))%Z.
Proof.
  eexists. eexists. split; [vm_compute; reflexivity|].
  split; [vm_compute; reflexivity|].
  vm_compute. discriminate.
Qed.

(** Beyond the int64 range the product wraps around: 10^10 tokens at a rate
    of 10^10 are not charged the 10^14 of the formula. *)
Example test_cost_overflow :
  costMicroUSD 10000000000 10000000000 <> classCost 10000000000 10000000000.
Proof. vm_compute. discriminate. Qed.

End BillingFacts.

(** ** The policy sanitiser *)

Module ConfigFacts.
Import GoStrings GoStringsFacts Config ConfigSpec.

Section Sanitize.

Variable NormalizeExcludedModels : list string -> list string.
Variable rangeMap : gmap string Z -> list (string * Z).

Abbreviation sanitizeEntry := (sanitizeEntry NormalizeExcludedModels rangeMap).
Abbreviation sanitizeStep := (sanitizeStep NormalizeExcludedModels rangeMap).
Abbreviation SanitizeAPIKeyPolicies := (SanitizeAPIKeyPolicies NormalizeExcludedModels rangeMap).
Abbreviation Inv := (Inv NormalizeExcludedModels rangeMap).

Lemma normalizeLimits_good entries : forall normalized,
  (forall m v, normalized !! m = Some v -> goodLimit m v) ->
  forall m v, normalizeLimits entries normalized !! m = Some v -> goodLimit m v.
Proof.
  induction entries as [|[modelID limit] rest IH]; intros normalized Hn m v; simpl; [apply Hn|].
  destruct (String.eqb_spec (ToLower (TrimSpace modelID)) ""); [now apply IH|].
  destruct (Z.leb_spec limit 0); [now apply IH|].
  apply IH. intros m' v'. rewrite lookup_insert.
  case_decide as E; [|apply Hn].
  intros [= <-]. subst m'. repeat split; try assumption.
  - apply ToLower_idem.
  - apply TrimSpace_canonical.
Qed.

Lemma sanitizeEntry_limits x m v :
  DailyLimits (sanitizeEntry x) !! m = Some v -> goodLimit m v.
Proof.
  unfold Config.sanitizeEntry. cbn [DailyLimits].
  destruct (Nat.ltb_spec 0 (size (DailyLimits x))) as [Hs|Hs].
  - apply normalizeLimits_good. intros m' v'. now rewrite lookup_empty.
  - assert (DailyLimits x = ∅) as -> by (apply map_size_empty_iff; lia).
    now rewrite lookup_empty.
Qed.

Lemma sanitizeEntry_budget x :
  isNumber (DailyBudgetUSD x) -> f64_ge0 (DailyBudgetUSD (sanitizeEntry x)) = true.
Proof.
  unfold Config.sanitizeEntry, isNumber. cbn [DailyBudgetUSD].
  destruct (DailyBudgetUSD x) as [|[]|q]; simpl; try reflexivity; [congruence|].
  intros _. destruct (Qle_bool q 0) eqn:E; simpl; [reflexivity|].
  apply Qle_bool_iff. apply Qlt_le_weak. apply Qnot_le_lt.
  intros H. apply Qle_bool_iff in H. congruence.
Qed.

Lemma sanitizeEntry_budget_nan x :
  DailyBudgetUSD x = FNaN -> DailyBudgetUSD (sanitizeEntry x) = FNaN.
Proof. unfold Config.sanitizeEntry. cbn [DailyBudgetUSD]. now intros ->. Qed.

Lemma Inv_nil : Inv [] ∅ [].
Proof. split; intros *; rewrite ?lookup_empty, ?lookup_nil; discriminate. Qed.

Lemma Inv_skip processed seen out x :
  TrimSpace (APIKey x) = "" -> Inv processed seen out ->
  Inv (processed ++ [x]) seen out.
Proof.
  intros Hx [H1 H2 H3]. split; [exact H1 | exact H2 |].
  intros idx e He. destruct (H3 idx e He) as (pre & y & post & -> & Hy & -> & Hpost).
  exists pre, y, (post ++ [x])%list. rewrite <- app_assoc. repeat split; auto.
  intros z [Hz | [<- | []]]%in_app_or; [now apply Hpost|].
  rewrite Hx. cbn [Config.sanitizeEntry APIKey]. congruence.
Qed.

Lemma Inv_step processed seen out x :
  Inv processed seen out ->
  Inv (processed ++ [x]) (fst (sanitizeStep (seen, out) x)) (snd (sanitizeStep (seen, out) x)).
Proof.
  intros HI. unfold Config.sanitizeStep.
  destruct (String.eqb_spec (TrimSpace (APIKey x)) "") as [Hx|Hx];
    [now apply Inv_skip|].
  set (e := sanitizeEntry x).
  assert (Hke : APIKey e = TrimSpace (APIKey x)) by reflexivity.
  destruct HI as [H1 H2 H3].
  assert (Hold : forall idx e', out !! idx = Some e' -> APIKey e' <> APIKey e ->
            exists pre x0 post,
              (processed ++ [x])%list = (pre ++ x0 :: post)%list
              /\ TrimSpace (APIKey x0) <> ""
              /\ e' = sanitizeEntry x0
              /\ forall y, In y post -> TrimSpace (APIKey y) <> APIKey e').
  { intros idx e' He' Hne.
    destruct (H3 idx e' He') as (pre & y & post & -> & Hy & -> & Hpost).
    exists pre, y, (post ++ [x])%list. rewrite <- app_assoc. repeat split; auto.
    intros z [Hz | [<- | []]]%in_app_or; [now apply Hpost|].
    rewrite <- Hke. congruence. }
  assert (Hnew : exists pre x0 post,
              (processed ++ [x])%list = (pre ++ x0 :: post)%list
              /\ TrimSpace (APIKey x0) <> ""
              /\ e = sanitizeEntry x0
              /\ forall y, In y post -> TrimSpace (APIKey y) <> APIKey e).
  { exists processed, x, []. repeat split; auto. }
  destruct (seen !! APIKey e) as [i|] eqn:Es; cbn [fst snd].
  - (* the key was seen: its slot is overwritten *)
    destruct (H1 _ _ Es) as (e0 & He0 & Hk0).
    assert (Hi : (i < length out)%nat) by (eapply lookup_lt_Some; eauto).
    split.
    + intros key idx Hs. destruct (H1 _ _ Hs) as (e1 & He1 & Hk1).
      destruct (decide (idx = i)) as [->|Hne].
      * exists e. rewrite list_lookup_insert_eq by exact Hi. split; [reflexivity|].
        congruence.
      * exists e1. rewrite list_lookup_insert_ne by congruence. auto.
    + intros idx e1. destruct (decide (idx = i)) as [->|Hne].
      * rewrite list_lookup_insert_eq by exact Hi. now intros [= <-].
      * rewrite list_lookup_insert_ne by congruence. apply H2.
    + intros idx e1. destruct (decide (idx = i)) as [->|Hne].
      * rewrite list_lookup_insert_eq by exact Hi. intros [= <-]. exact Hnew.
      * rewrite list_lookup_insert_ne by congruence. intros He1.
        apply (Hold idx e1 He1). intros Hk.
        apply H2 in He1. rewrite Hk, Es in He1. congruence.
  - (* a new key: the entry is appended *)
    split.
    + intros key idx. rewrite lookup_insert. case_decide as Ek.
      * intros [= <-]. exists e. split; [|exact Ek].
        rewrite lookup_app_r by lia. now rewrite Nat.sub_diag.
      * intros Hs. destruct (H1 _ _ Hs) as (e1 & He1 & Hk1). exists e1.
        split; [|exact Hk1]. rewrite lookup_app_l; [exact He1|].
        eapply lookup_lt_Some; eauto.
    + intros idx e1 He1.
      destruct (lookup_app_Some out [e] idx e1) as [Hcases _].
      destruct (Hcases He1) as [Hl | [Hlen Hr]].
      * rewrite lookup_insert_ne; [now apply H2|].
        intros Hk. apply H2 in Hl. rewrite <- Hk, Es in Hl. discriminate.
      * destruct (idx - length out)%nat as [|j] eqn:Ej; [|discriminate].
        injection Hr as <-. rewrite lookup_insert_eq. f_equal. lia.
    + intros idx e1 He1.
      destruct (lookup_app_Some out [e] idx e1) as [Hcases _].
      destruct (Hcases He1) as [Hl | [Hlen Hr]].
      * apply (Hold idx e1 Hl). intros Hk.
        apply H2 in Hl. rewrite Hk, Es in Hl. discriminate.
      * destruct (idx - length out)%nat as [|j] eqn:Ej; [|discriminate].
        injection Hr as <-. exact Hnew.
Qed.

Lemma Inv_fold policies :
  let acc := fold_left sanitizeStep policies (∅, []) in
  Inv policies (fst acc) (snd acc).
Proof.
  induction policies as [|x processed IH] using rev_ind; [apply Inv_nil|].
  cbv zeta. rewrite fold_left_app. cbn [fold_left].
  destruct (fold_left sanitizeStep processed (∅, [])) as [seen out].
  now apply Inv_step.
Qed.

Lemma Sanitize_fold policies :
  SanitizeAPIKeyPolicies policies = snd (fold_left sanitizeStep policies (∅, [])).
Proof. unfold Config.SanitizeAPIKeyPolicies. destruct policies; reflexivity. Qed.

(** C7 (amended): after SanitizeAPIKeyPolicies every entry has a non-empty,
    trimmed client key; every daily limit is strictly positive under a
    non-empty, lowercased, trimmed model key; the daily budget of every
    entry is >= 0 unless it is not a number; no two entries share a client
    key; and every entry comes from the last input entry with its key. *)
Theorem SanitizeAPIKeyPolicies_invariant (policies : list APIKeyPolicy) :
  let out := SanitizeAPIKeyPolicies policies in
  (forall e, In e out ->
     APIKey e <> "" /\ TrimSpace (APIKey e) = APIKey e
     /\ (forall m v, DailyLimits e !! m = Some v ->
           (0 < v)%Z /\ m <> "" /\ ToLower m = m /\ TrimSpace m = m)
     /\ (f64_ge0 (DailyBudgetUSD e) = true \/ DailyBudgetUSD e = FNaN))
  /\ NoDup (map APIKey out)
  /\ (forall e, In e out ->
        exists pre x post,
          policies = (pre ++ x :: post)%list
          /\ e = sanitizeEntry x
          /\ forall y, In y post -> TrimSpace (APIKey y) <> APIKey e).
Proof.
  intros out. subst out. rewrite Sanitize_fold.
  pose proof (Inv_fold policies) as HI. cbv zeta in HI.
  destruct (fold_left sanitizeStep policies (∅, [])) as [seen out].
  cbn [fst snd] in *. destruct HI as [H1 H2 H3].
  assert (Hin : forall e, In e out -> exists idx, out !! idx = Some e).
  { intros e He. apply list_elem_of_In, list_elem_of_lookup in He. exact He. }
  split; [|split].
  - intros e [idx He]%Hin.
    destruct (H3 idx e He) as (pre & x & post & Hp & Hx & -> & _).
    repeat split.
    + exact Hx.
    + apply TrimSpace_idem.
    + now apply (sanitizeEntry_limits x m v).
    + now apply (sanitizeEntry_limits x m v).
    + now apply (sanitizeEntry_limits x m v).
    + now apply (sanitizeEntry_limits x m v).
    + destruct (DailyBudgetUSD x) eqn:Eb.
      * right. now apply sanitizeEntry_budget_nan.
      * left. apply sanitizeEntry_budget. unfold isNumber. congruence.
      * left. apply sanitizeEntry_budget. unfold isNumber. congruence.
  - apply NoDup_alt. intros i j k.
    rewrite !list_lookup_fmap.
    destruct (out !! i) as [ei|] eqn:Ei; [|discriminate].
    destruct (out !! j) as [ej|] eqn:Ej; [|discriminate].
    simpl. intros [= <-] [= Hk].
    apply H2 in Ei. apply H2 in Ej. rewrite Hk in Ej. congruence.
  - intros e [idx He]%Hin.
    destruct (H3 idx e He) as (pre & x & post & Hp & Hx & He' & Hpost).
    exists pre, x, post. auto.
Qed.

End Sanitize.

Example test_sanitize :
  SanitizeAPIKeyPolicies (fun l => l) map_to_list samplePolicies
  = [ samplePolicy "k" {[ "claude-opus-4-6" := 3%Z ]} (FNum 0) ].
Proof. vm_compute. reflexivity. Qed.

(** A budget that is not a number stays: it is not [<= 0]. *)
Example test_sanitize_nan :
  map DailyBudgetUSD
      (SanitizeAPIKeyPolicies (fun l => l) map_to_list [samplePolicy "k" ∅ FNaN])
  = [FNaN].
Proof. vm_compute. reflexivity. Qed.

(** C7, as stated, fails: a budget that is not a number is not [<= 0], so it
    is kept, and it is not [>= 0] either. *)
Lemma SanitizeAPIKeyPolicies_budget_nan :
  ~ (forall policies e,
       In e (SanitizeAPIKeyPolicies (fun l => l) map_to_list policies) ->
       f64_ge0 (DailyBudgetUSD e) = true).
Proof.
  intros H.
  specialize (H [samplePolicy "k" ∅ FNaN] (samplePolicy "k" ∅ FNaN)).
  discriminate H. vm_compute. left. reflexivity.
Qed.

End ConfigFacts.

(** ** Failover eligibility *)

Module EligibilityFacts.
Import GoStrings GoStringsFacts Handlers EligibilitySpec.

Example test_eligible :
  isClaudeFailoverEligible notJSON noEnvelope 429 (upstreamError 429 "weekly cap") = true
  /\ isClaudeFailoverEligible notJSON noEnvelope 500
       (upstreamError 500 "auth_unavailable: no auth available") = true
  /\ isClaudeFailoverEligible notJSON noEnvelope 500 (upstreamError 500 "boom") = false
  /\ isClaudeFailoverEligible notJSON noEnvelope 502
       (upstreamError 502 "unknown provider for model claude-opus-4-6") = true
  /\ isClaudeFailoverEligible notJSON noEnvelope 400 (upstreamError 400 "Account disabled") = true
  /\ isClaudeFailoverEligible notJSON noEnvelope 400 (upstreamError 400 "bad schema") = false
  /\ isClaudeFailoverEligible notJSON noEnvelope 404 (upstreamError 404 "account token") = false.
Proof. repeat split; vm_compute; reflexivity. Qed.


End EligibilityFacts.

(** ** The streaming path: no retry once bytes are out *)

Module StreamFacts.
Import GoStrings GoStringsFacts Handlers StreamSpec.

Section Stream.

Variable json_Valid : string -> bool.
Variable json_Unmarshal : string -> option errorEnvelope.
Variable gjson_Exists : bytes -> string -> bool.
Variable sjson_SetBytes : bytes -> string -> string -> option bytes.
Variable ResolveAutoModel : string -> string.
Variable GetProviderName : string -> list string.
Variable newUUID : string.
Variable RequestedModelMetadataKey : string.
Variable M : Type.
Variable AuthManager_ExecuteStream :
  M -> list string -> Request -> Options -> (list StreamChunk + GoError) * M.

Variable ctx : option Context.
Variable rawJSON : bytes.
Variable failoverTargetModel : string.
Variable failoverEnabled : bool.
Variable maxBootstrapRetries : Z.

Abbreviation tryFailover' :=
  (tryFailover json_Valid json_Unmarshal gjson_Exists sjson_SetBytes ResolveAutoModel
     GetProviderName RequestedModelMetadataKey M AuthManager_ExecuteStream
     rawJSON failoverTargetModel failoverEnabled).
Abbreviation handleStreamErr' :=
  (handleStreamErr json_Valid json_Unmarshal gjson_Exists sjson_SetBytes ResolveAutoModel
     GetProviderName RequestedModelMetadataKey M AuthManager_ExecuteStream
     rawJSON failoverTargetModel failoverEnabled maxBootstrapRetries).
Abbreviation recvLoop' :=
  (recvLoop json_Valid json_Unmarshal gjson_Exists sjson_SetBytes ResolveAutoModel
     GetProviderName RequestedModelMetadataKey M AuthManager_ExecuteStream
     ctx rawJSON failoverTargetModel failoverEnabled maxBootstrapRetries).
Abbreviation streamLoop' :=
  (streamLoop json_Valid json_Unmarshal gjson_Exists sjson_SetBytes ResolveAutoModel
     GetProviderName RequestedModelMetadataKey M AuthManager_ExecuteStream
     ctx rawJSON failoverTargetModel failoverEnabled maxBootstrapRetries).
Abbreviation surfaced := (surfaced ctx).
Abbreviation ok := (ok ctx).
Abbreviation restartsLeft := (restartsLeft maxBootstrapRetries).

Lemma ok_execs evs tr :
  Forall is_exec evs -> ok false tr -> ok false (evs ++ tr).
Proof.
  induction 1 as [|ev evs Hev _ IH]; intros Htr; simpl; [exact Htr|].
  destruct ev; simpl in Hev; try contradiction. split; [reflexivity | now apply IH].
Qed.

(** *** The error block *)

Lemma tryFailover_sent st streamErr m evs :
  sentPayload st = true -> tryFailover' st streamErr m evs = Surface M streamErr m evs.
Proof. intros H. unfold tryFailover. now rewrite H. Qed.

Lemma handleStreamErr_sent st streamErr m :
  sentPayload st = true -> handleStreamErr' st streamErr m = Surface M streamErr m [].
Proof. intros H. unfold handleStreamErr. rewrite H. simpl. now apply tryFailover_sent. Qed.

Lemma tryFailover_events st streamErr m evs :
  Forall is_exec evs ->
  match tryFailover' st streamErr m evs with
  | Restart _ st' _ _ evs' => Forall is_exec evs' /\ sentPayload st' = sentPayload st
  | Surface _ _ _ evs' => Forall is_exec evs'
  end.
Proof.
  intros Hevs. unfold tryFailover.
  destruct (_ && _ && _ && _ && _ && _); [|exact Hevs].
  destruct (isClaudeFailoverEligible _ _ _ _); [|exact Hevs].
  destruct (getRequestDetails _ _ _) as [[fp fm] [detailErr|]]; [exact Hevs|].
  assert (Forall is_exec
            (evs ++ [EvExec fp {| Model := fm;
                                  Payload := rewriteModelField gjson_Exists sjson_SetBytes
                                               rawJSON failoverTargetModel |}
                            (failoverOptions RequestedModelMetadataKey (opts st)
                               (rewriteModelField gjson_Exists sjson_SetBytes
                                  rawJSON failoverTargetModel) fm)])).
  { apply Forall_app; split; [exact Hevs|]. repeat constructor. }
  destruct (execStream _ _ _ _ _ _) as [[chunks|e] m']; simpl; auto.
Qed.

Lemma handleStreamErr_events st streamErr m :
  match handleStreamErr' st streamErr m with
  | Restart _ st' _ _ evs' => Forall is_exec evs' /\ sentPayload st' = sentPayload st
  | Surface _ _ _ evs' => Forall is_exec evs'
  end.
Proof.
  unfold handleStreamErr.
  destruct (_ && _ && _).
  - destruct (execStream _ _ _ _ _ _) as [[chunks|e] m']; simpl.
    + split; [repeat constructor | reflexivity].
    + match goal with
      | |- context [tryFailover' ?s ?e ?m ?l] =>
          pose proof (tryFailover_events s e m l) as H
      end.
      specialize (H ltac:(repeat constructor)).
      destruct (tryFailover' _ _ _ _); exact H.
  - pose proof (tryFailover_events st streamErr m []) as H.
    specialize (H ltac:(constructor)).
    destruct (tryFailover' _ _ _ _); exact H.
Qed.

(** *** The loops *)

Lemma recvLoop_ok restart :
  (forall st chunks m tick tr mf,
     sentPayload st = false -> restart st chunks m tick = Some (tr, mf) -> ok false tr) ->
  forall chunks m st tick tr mf,
    recvLoop' restart m chunks st tick = Some (tr, mf) -> ok (sentPayload st) tr.
Proof.
  intros Hrestart. induction chunks as [|chunk rest IH]; intros m st tick tr mf; simpl.
  { intros [= <- _]. exact I. }
  destruct (done ctx tick) eqn:Ed; [intros [= <- _]; exact I|].
  destruct (chunkErr chunk) as [streamErr|] eqn:Ee.
  - (* an error chunk *)
    destruct (sentPayload st) eqn:Es.
    + rewrite (handleStreamErr_sent st streamErr m Es).
      intros [= <- _]. simpl. rewrite Ee.
      destruct (done ctx (S tick)) eqn:Ed'; [right | left]; eauto.
    + pose proof (handleStreamErr_events st streamErr m) as Hev.
      destruct (handleStreamErr' st streamErr m) as [st' chunks' m' evs | err m' evs].
      * destruct Hev as [Hev Hs]. rewrite Es in Hs.
        destruct (restart st' chunks' m' (S tick)) as [[tr' mf']|] eqn:Er; [|discriminate].
        intros [= <- _]. simpl. rewrite Ee.
        apply ok_execs; [exact Hev|]. eapply Hrestart; eauto.
      * intros [= <- _]. simpl. rewrite Ee.
        apply ok_execs; [exact Hev|]. destruct (done ctx (S tick)); exact I.
  - (* a payload chunk *)
    destruct (0 <? len (chunkPayload chunk))%nat.
    + destruct (done ctx (S tick)).
      * intros [= <- _]. simpl. now rewrite Ee.
      * destruct (recvLoop' restart m rest (payloadSent st) (S (S tick)))
          as [[tr' mf']|] eqn:Er; [|discriminate].
        intros [= <- _]. simpl. rewrite Ee. simpl.
        apply (IH _ _ _ _ _ Er).
    + destruct (recvLoop' restart m rest st (S tick)) as [[tr' mf']|] eqn:Er; [|discriminate].
      intros [= <- _]. simpl. rewrite Ee. apply (IH _ _ _ _ _ Er).
Qed.

Lemma streamLoop_ok fuel : forall st chunks m tick tr mf,
  streamLoop' fuel st chunks m tick = Some (tr, mf) -> ok (sentPayload st) tr.
Proof.
  induction fuel as [|fuel IH]; intros st chunks m tick tr mf; simpl; [discriminate|].
  apply recvLoop_ok. intros st' chunks' m' tick' tr' mf' Hs Hr.
  rewrite <- Hs. eapply IH; eauto.
Qed.

(** *** Reading a trace *)

Lemma ok_after_data tr1 : forall sent payload tr2,
  ok sent (tr1 ++ EvData payload :: tr2) -> ok true tr2.
Proof.
  induction tr1 as [|ev tr1 IH]; intros sent payload tr2; simpl; [auto|].
  destruct ev as [p r o | chunk | p | msg]; simpl.
  - intros [_ H]. eapply IH; eauto.
  - destruct (chunkErr chunk) as [e|]; [|eapply IH; eauto].
    destruct sent; [|eapply IH; eauto].
    intros [H | [H _]]; destruct tr1 as [|? [|? ?]]; discriminate.
  - eapply IH; eauto.
  - eapply IH; eauto.
Qed.

Lemma ok_true_no_exec tr : ok true tr -> forall ev, In ev tr -> ~ is_exec ev.
Proof.
  induction tr as [|ev tr IH]; simpl; [intros _ ev []|].
  destruct ev as [p r o | chunk | p | msg]; simpl.
  - intros [H _]. discriminate.
  - destruct (chunkErr chunk) as [e|].
    + intros Hs ev [<- | Hin]; [simpl; auto|].
      destruct Hs as [-> | [-> _]]; [|destruct Hin].
      destruct Hin as [<- | []]. simpl. auto.
    + intros H ev [<- | Hin]; simpl; auto.
  - intros H ev [<- | Hin]; simpl; auto.
  - intros H ev [<- | Hin]; simpl; auto.
Qed.

Lemma ok_true_surfaced tr3 : forall chunk streamErr tr4,
  ok true (tr3 ++ EvRecv chunk :: tr4) -> chunkErr chunk = Some streamErr ->
  surfaced streamErr tr4.
Proof.
  induction tr3 as [|ev tr3 IH]; intros chunk streamErr tr4; simpl.
  - intros H E. now rewrite E in H.
  - destruct ev as [p r o | c | p | msg]; simpl.
    + intros [H _]. discriminate.
    + destruct (chunkErr c) as [e|]; [|apply IH].
      intros [H | [H _]]; destruct tr3 as [|? [|? ?]]; discriminate.
    + apply IH.
    + apply IH.
Qed.

(** *** The loop ends *)

Lemma tryFailover_restart st streamErr m evs st' chunks m' evs' :
  tryFailover' st streamErr m evs = Restart M st' chunks m' evs' ->
  failoverAttempted st = false /\ failoverAttempted st' = true /\ bootstrapRetries st' = 0%Z.
Proof.
  unfold tryFailover.
  destruct (failoverAttempted st); [rewrite ?andb_false_r; simpl; discriminate|].
  destruct (_ && _ && _ && _ && _ && _); [|discriminate].
  destruct (isClaudeFailoverEligible _ _ _ _); [|discriminate].
  destruct (getRequestDetails _ _ _) as [[fp fm] [detailErr|]]; [discriminate|].
  destruct (execStream _ _ _ _ _ _) as [[cs|e] m'']; [|discriminate].
  intros [= <- _ _ _]. auto.
Qed.

Lemma handleStreamErr_restart st streamErr m st' chunks m' evs :
  handleStreamErr' st streamErr m = Restart M st' chunks m' evs ->
  (restartsLeft st' < restartsLeft st)%nat.
Proof.
  unfold handleStreamErr.
  destruct (negb (sentPayload st) && (bootstrapRetries st <? maxBootstrapRetries)%Z
            && bootstrapEligible (Some streamErr)) eqn:Eb.
  - apply andb_true_iff in Eb as [Eb _]. apply andb_true_iff in Eb as [_ Eb].
    apply Z.ltb_lt in Eb.
    destruct (execStream _ _ _ _ _ _) as [[cs|e] m''].
    + intros [= <- _ _ _]. unfold restartsLeft. simpl. lia.
    + intros H. apply tryFailover_restart in H as (H1 & H2 & H3).
      simpl in H1. unfold restartsLeft. rewrite H1, H2, H3. lia.
  - intros H. apply tryFailover_restart in H as (H1 & H2 & H3).
    unfold restartsLeft. rewrite H1, H2, H3. lia.
Qed.

Lemma recvLoop_total restart n :
  (forall st chunks m tick, (restartsLeft st < n)%nat -> is_Some (restart st chunks m tick)) ->
  forall chunks m st tick,
    (restartsLeft st <= n)%nat -> is_Some (recvLoop' restart m chunks st tick).
Proof.
  intros Hrestart. induction chunks as [|chunk rest IH]; intros m st tick Hn; simpl; [eauto|].
  destruct (done ctx tick); [eauto|].
  destruct (chunkErr chunk) as [streamErr|].
  - destruct (handleStreamErr' st streamErr m) as [st' chunks' m' evs | err m' evs] eqn:Eh;
      [|eauto].
    apply handleStreamErr_restart in Eh.
    destruct (Hrestart st' chunks' m' (S tick)) as [[tr mf] ->]; [lia | eauto].
  - destruct (0 <? len (chunkPayload chunk))%nat.
    + destruct (done ctx (S tick)); [eauto|].
      destruct (IH m (payloadSent st) (S (S tick))) as [[tr mf] ->]; [exact Hn | eauto].
    + destruct (IH m st (S tick)) as [[tr mf] ->]; [exact Hn | eauto].
Qed.

Lemma streamLoop_total fuel : forall st chunks m tick,
  (restartsLeft st < fuel)%nat -> is_Some (streamLoop' fuel st chunks m tick).
Proof.
  induction fuel as [|fuel IH]; intros st chunks m tick Hf; [lia|]. simpl.
  apply (recvLoop_total _ fuel); [|lia].
  intros st' chunks' m' tick' Hlt. now apply IH.
Qed.

End Stream.

Section Handler.

Variable json_Valid : string -> bool.
Variable json_Unmarshal : string -> option errorEnvelope.
Variable gjson_Exists : bytes -> string -> bool.
Variable sjson_SetBytes : bytes -> string -> string -> option bytes.
Variable ResolveAutoModel : string -> string.
Variable GetProviderName : string -> list string.
Variable newUUID : string.
Variable RequestedModelMetadataKey : string.
Variable M : Type.
Variable AuthManager_ExecuteStream :
  M -> list string -> Request -> Options -> (list StreamChunk + GoError) * M.

Abbreviation ExecuteStream' :=
  (ExecuteStreamWithAuthManager json_Valid json_Unmarshal gjson_Exists sjson_SetBytes
     ResolveAutoModel GetProviderName newUUID RequestedModelMetadataKey M
     AuthManager_ExecuteStream).

Lemma ExecuteStream_ok fuel cfg ctx m handlerType modelName rawJSON alt tr mf :
  ExecuteStream' fuel cfg ctx m handlerType modelName rawJSON alt = Some (tr, mf) ->
  ok ctx false tr.
Proof.
  unfold ExecuteStreamWithAuthManager.
  destruct (resolveRequest _ _ _ _ _ _ _ _ _) as [[[raw ps] nm]|errMsg];
    [|intros [= <- _]; exact I].
  destruct (match apiKeyPolicyFromContext ctx with
            | Some policy => Config.ClaudeFailoverTargetModel (Some policy)
            | None => ("", false)
            end) as [target enabled].
  destruct (execStream _ _ _ _ _ _) as [[chunks|execErr] m1].
  - destruct (streamLoop _ _ _ _ _ _ _ _ _ _ _ _ _ _ _ _ _ _ _) as [[tr' mf']|] eqn:El;
      [|discriminate].
    intros [= <- _]. simpl. split; [reflexivity|].
    apply streamLoop_ok in El. exact El.
  - destruct (_ && _ && _ && _ && _); [|intros [= <- _]; simpl; auto].
    destruct (getRequestDetails _ _ _) as [[fp fm] [detailErr|]];
      [intros [= <- _]; simpl; auto|].
    destruct (execStream _ _ _ _ _ _) as [[chunks|execErr'] m2];
      [|intros [= <- _]; simpl; auto].
    destruct (streamLoop _ _ _ _ _ _ _ _ _ _ _ _ _ _ _ _ _ _ _) as [[tr' mf']|] eqn:El;
      [|discriminate].
    intros [= <- _]. simpl. split; [reflexivity|]. split; [reflexivity|].
    apply streamLoop_ok in El. exact El.
Qed.

(** The streaming path ends and yields its trace: the fuel [streamFuel]
    covers every restart the retry budget allows. *)
Lemma ExecuteStream_total cfg ctx m handlerType modelName rawJSON alt :
  is_Some (ExecuteStream' (streamFuel cfg) cfg ctx m handlerType modelName rawJSON alt).
Proof.
  unfold ExecuteStreamWithAuthManager, streamFuel.
  assert (Hmax : (0 <= StreamingBootstrapRetries cfg)%Z).
  { unfold StreamingBootstrapRetries.
    match goal with |- context [Z.ltb ?a ?b] => destruct (Z.ltb_spec a b) end; lia. }
  destruct (resolveRequest _ _ _ _ _ _ _ _ _) as [[[raw ps] nm]|errMsg]; [|eauto].
  destruct (match apiKeyPolicyFromContext ctx with
            | Some policy => Config.ClaudeFailoverTargetModel (Some policy)
            | None => ("", false)
            end) as [target enabled].
  destruct (execStream _ _ _ _ _ _) as [[chunks|execErr] m1].
  - match goal with
    | |- context [streamLoop ?a ?b ?c ?d ?e ?f ?g ?h ?i ?j ?k ?l ?m0 ?n ?fu ?st ?cs ?mm ?t] =>
        destruct (streamLoop_total a b c d e f g h i j k l m0 n fu st cs mm t)
          as [[tr mf] ->]; [unfold restartsLeft; simpl; lia | eauto]
    end.
  - destruct (_ && _ && _ && _ && _); [|eauto].
    destruct (getRequestDetails _ _ _) as [[fp fm] [detailErr|]]; [eauto|].
    destruct (execStream _ _ _ _ _ _) as [[chunks|execErr'] m2]; [|eauto].
    match goal with
    | |- context [streamLoop ?a ?b ?c ?d ?e ?f ?g ?h ?i ?j ?k ?l ?m0 ?n ?fu ?st ?cs ?mm ?t] =>
        destruct (streamLoop_total a b c d e f g h i j k l m0 n fu st cs mm t)
          as [[tr mf] ->]; [unfold restartsLeft; simpl; lia | eauto]
    end.
Qed.


End Handler.

End StreamFacts.

(** ** Failover and the model field of the response *)

Module MasqueradeFacts.
Import GoStrings GoStringsFacts Handlers StreamSpec Scenario.

(** *** The failover of [handlers_model_masquerade_test.go] *)

(** C1: where the claim fails.  In the scenario of
    [TestExecuteWithAuthManager_FailoverRewritesModelInResponse] and
    [TestExecuteStreamWithAuthManager_FailoverRewritesModelInChunks] the
    failover takes place (the second call is for gpt-5.2(high)), and the body
    returned, as the chunk streamed, is the upstream payload byte for byte,
    model gpt-5.2 included: not the payload with the model the client
    asked for. *)
Theorem failover_response_keeps_upstream_model :
  calledModels (snd (fst runExecute)) = ["claude-opus-4-6"; "gpt-5.2(high)"]
  /\ fst (fst runExecute) = inl codexBody
  /\ codexBody <> masqueradedBody
  /\ (exists tr, runStream testExecuteStream None = Some (tr, tt)
                 /\ calledModels tr = ["claude-opus-4-6"; "gpt-5.2(high)"]
                 /\ sentPayloads tr = [codexChunk])
  /\ codexChunk <> masqueradedChunk.
Proof.
  split; [vm_compute; reflexivity|].
  split; [vm_compute; reflexivity|].
  split; [vm_compute; discriminate|].
  split; [|vm_compute; discriminate].
  eexists. split; [vm_compute; reflexivity|].
  split; vm_compute; reflexivity.
Qed.

(** *** What is returned is what the upstream sent *)

Section Verbatim.

Variable json_Valid : string -> bool.
Variable json_Unmarshal : string -> option errorEnvelope.
Variable gjson_Exists : bytes -> string -> bool.
Variable sjson_SetBytes : bytes -> string -> string -> option bytes.
Variable ResolveAutoModel : string -> string.
Variable GetProviderName : string -> list string.
Variable newUUID : string.
Variable RequestedModelMetadataKey : string.
Variable M : Type.
Variable AuthManager_Execute :
  M -> list string -> Request -> Options -> (Response + GoError) * M.

(** Whether or not a failover took place, the body returned by the
    non-streaming path is the payload of a response of the credential
    manager, as it is. *)
Lemma ExecuteWithAuthManager_verbatim ctx m handlerType modelName rawJSON alt out :
  fst (fst (ExecuteWithAuthManager json_Valid json_Unmarshal gjson_Exists sjson_SetBytes
              ResolveAutoModel GetProviderName newUUID RequestedModelMetadataKey M
              AuthManager_Execute ctx m handlerType modelName rawJSON alt)) = inl out ->
  exists m0 providers req opts m1,
    AuthManager_Execute m0 providers req opts = (inl {| respPayload := out |}, m1).
Proof.
  unfold ExecuteWithAuthManager.
  destruct (resolveRequest _ _ _ _ _ _ _ _ _) as [[[raw ps] nm]|errMsg]; [|discriminate].
  unfold execOnce.
  match goal with
  | |- context [AuthManager_Execute ?a ?b ?c ?d] =>
      destruct (AuthManager_Execute a b c d) as [[[p]|e] m1] eqn:E1
  end.
  { simpl. intros [= <-]. eauto 10. }
  destruct (match apiKeyPolicyFromContext ctx with
            | Some _ => Config.ClaudeFailoverTargetModel (apiKeyPolicyFromContext ctx)
            | None => ("", false)
            end) as [target enabled].
  destruct (_ && _ && _ && _); [|discriminate].
  destruct (isClaudeFailoverEligible _ _ _ _); [|discriminate].
  destruct (getRequestDetails _ _ _) as [[fp fm] [detailErr|]]; [discriminate|].
  match goal with
  | |- context [AuthManager_Execute ?a ?b ?c ?d] =>
      destruct (AuthManager_Execute a b c d) as [[[p]|e'] m2] eqn:E2
  end.
  - simpl. intros [= <-]. eauto 10.
  - discriminate.
Qed.

End Verbatim.

Lemma forwarded_recv chunk tr : forwarded tr -> forwarded (EvRecv chunk :: tr).
Proof. destruct tr as [|[] tr]; simpl; tauto. Qed.

Lemma forwarded_execs evs tr :
  Forall is_exec evs -> forwarded tr -> forwarded (evs ++ tr).
Proof.
  induction 1 as [|ev evs Hev _ IH]; intros Htr; simpl; [exact Htr|].
  destruct ev; simpl in Hev; try contradiction. now apply IH.
Qed.

Section VerbatimStream.

Variable json_Valid : string -> bool.
Variable json_Unmarshal : string -> option errorEnvelope.
Variable gjson_Exists : bytes -> string -> bool.
Variable sjson_SetBytes : bytes -> string -> string -> option bytes.
Variable ResolveAutoModel : string -> string.
Variable GetProviderName : string -> list string.
Variable newUUID : string.
Variable RequestedModelMetadataKey : string.
Variable M : Type.
Variable AuthManager_ExecuteStream :
  M -> list string -> Request -> Options -> (list StreamChunk + GoError) * M.

Lemma recvLoop_forwarded ctx rawJSON target enabled maxRetries restart :
  (forall st chunks m tick tr mf,
     restart st chunks m tick = Some (tr, mf) -> forwarded tr) ->
  forall chunks m st tick tr mf,
    recvLoop json_Valid json_Unmarshal gjson_Exists sjson_SetBytes ResolveAutoModel
      GetProviderName RequestedModelMetadataKey M AuthManager_ExecuteStream
      ctx rawJSON target enabled maxRetries restart m chunks st tick = Some (tr, mf) ->
    forwarded tr.
Proof.
  intros Hrestart. induction chunks as [|chunk rest IH]; intros m st tick tr mf; simpl.
  { intros [= <- _]. exact I. }
  destruct (done ctx tick); [intros [= <- _]; exact I|].
  destruct (chunkErr chunk) as [streamErr|].
  - pose proof (StreamFacts.handleStreamErr_events json_Valid json_Unmarshal gjson_Exists
                  sjson_SetBytes ResolveAutoModel GetProviderName RequestedModelMetadataKey
                  M AuthManager_ExecuteStream rawJSON target enabled maxRetries
                  st streamErr m) as Hev.
    destruct (handleStreamErr _ _ _ _ _ _ _ _ _ _ _ _ _ _ _ _)
      as [st' chunks' m' evs | err m' evs].
    + destruct Hev as [Hev _].
      destruct (restart st' chunks' m' (S tick)) as [[tr' mf']|] eqn:Er; [|discriminate].
      intros [= <- _]. apply forwarded_recv, forwarded_execs; [exact Hev|].
      eapply Hrestart; eauto.
    + intros [= <- _]. apply forwarded_recv, forwarded_execs; [exact Hev|].
      destruct (done ctx (S tick)); exact I.
  - destruct (0 <? len (chunkPayload chunk))%nat.
    + destruct (done ctx (S tick)); [intros [= <- _]; exact I|].
      destruct (recvLoop _ _ _ _ _ _ _ _ _ _ _ _ _ _ _ _ _ _ _)
        as [[tr' mf']|] eqn:Er; [|discriminate].
      intros [= <- _]. simpl. split; [reflexivity|]. apply (IH _ _ _ _ _ Er).
    + destruct (recvLoop _ _ _ _ _ _ _ _ _ _ _ _ _ _ _ _ _ _ _)
        as [[tr' mf']|] eqn:Er; [|discriminate].
      intros [= <- _]. apply forwarded_recv. apply (IH _ _ _ _ _ Er).
Qed.

Lemma streamLoop_forwarded ctx rawJSON target enabled maxRetries fuel :
  forall st chunks m tick tr mf,
    streamLoop json_Valid json_Unmarshal gjson_Exists sjson_SetBytes ResolveAutoModel
      GetProviderName RequestedModelMetadataKey M AuthManager_ExecuteStream
      ctx rawJSON target enabled maxRetries fuel st chunks m tick = Some (tr, mf) ->
    forwarded tr.
Proof.
  induction fuel as [|fuel IH]; intros st chunks m tick tr mf; simpl; [discriminate|].
  apply recvLoop_forwarded. exact IH.
Qed.

(** Whether or not a failover took place, every chunk the streaming path
    sends to the client is the payload of the chunk it has just received,
    as it is. *)
Lemma ExecuteStreamWithAuthManager_verbatim
    fuel cfg ctx m handlerType modelName rawJSON alt tr mf :
  ExecuteStreamWithAuthManager json_Valid json_Unmarshal gjson_Exists sjson_SetBytes
    ResolveAutoModel GetProviderName newUUID RequestedModelMetadataKey M
    AuthManager_ExecuteStream fuel cfg ctx m handlerType modelName rawJSON alt
  = Some (tr, mf) ->
  forwarded tr.
Proof.
  unfold ExecuteStreamWithAuthManager.
  destruct (resolveRequest _ _ _ _ _ _ _ _ _) as [[[raw ps] nm]|errMsg];
    [|intros [= <- _]; exact I].
  destruct (match apiKeyPolicyFromContext ctx with
            | Some policy => Config.ClaudeFailoverTargetModel (Some policy)
            | None => ("", false)
            end) as [target enabled].
  destruct (execStream _ _ _ _ _ _) as [[chunks|execErr] m1].
  - destruct (streamLoop _ _ _ _ _ _ _ _ _ _ _ _ _ _ _ _ _ _ _) as [[tr' mf']|] eqn:El;
      [|discriminate].
    intros [= <- _]. simpl. apply streamLoop_forwarded in El. exact El.
  - destruct (_ && _ && _ && _ && _); [|intros [= <- _]; simpl; auto].
    destruct (getRequestDetails _ _ _) as [[fp fm] [detailErr|]];
      [intros [= <- _]; simpl; auto|].
    destruct (execStream _ _ _ _ _ _) as [[chunks|execErr'] m2];
      [|intros [= <- _]; simpl; auto].
    destruct (streamLoop _ _ _ _ _ _ _ _ _ _ _ _ _ _ _ _ _ _ _) as [[tr' mf']|] eqn:El;
      [|discriminate].
    intros [= <- _]. simpl. apply streamLoop_forwarded in El. exact El.
Qed.

End VerbatimStream.

(** *** A stream that fails after its first payload *)


End MasqueradeFacts.

(* ===================================================================== *)
(** * Further properties *)
(* ===================================================================== *)

(** ** Model names *)

Module PolicyExtra.
Import GoStrings StringsSpec GoStringsFacts Policy PolicyFacts PatternSpec GlobSpec.

#[local] Arguments String.append !_ _ / : simpl nomatch.

Lemma TrimRight_cons c s :
  is_space c = false -> TrimRight (String c s) = String c (TrimRight s).
Proof. intros H. cbn [TrimRight]. rewrite H. now destruct (TrimRight s). Qed.

Lemma TrimRight_plain c p y : plain c p = true -> TrimRight (p ++ y) = p ++ TrimRight y.
Proof.
  induction p as [|a p IH]; intros H; [reflexivity|].
  cbn [plain] in H. apply andb_true_iff in H as [H Hp]. apply andb_true_iff in H as [Ha _].
  apply negb_true_iff in Ha.
  change (String a p ++ y) with (String a (p ++ y)).
  rewrite TrimRight_cons by exact Ha. rewrite IH by exact Hp. reflexivity.
Qed.

Lemma TrimLeft_plain c p y : p <> "" -> plain c p = true -> TrimLeft (p ++ y) = p ++ y.
Proof.
  destruct p as [|a p]; [congruence|]. intros _ H.
  cbn [plain] in H. apply andb_true_iff in H as [H _]. apply andb_true_iff in H as [Ha _].
  apply negb_true_iff in Ha. cbn. now rewrite Ha.
Qed.

Lemma TrimSpace_plain c p y :
  p <> "" -> plain c p = true -> TrimSpace (p ++ y) = p ++ TrimRight y.
Proof.
  intros Hne H. unfold TrimSpace. rewrite (TrimLeft_plain c) by assumption.
  now apply TrimRight_plain with c.
Qed.

Lemma LastIndexByte_plain c p y :
  plain c p = true ->
  (0 <= LastIndexByte (p ++ y) c)%Z ->
  (0 <= LastIndexByte y c)%Z /\
  LastIndexByte (p ++ y) c = (Z.of_nat (len p) + LastIndexByte y c)%Z.
Proof.
  induction p as [|a p IH]; intros H Hi.
  - cbn in *. split; [exact Hi|lia].
  - cbn [plain] in H. apply andb_true_iff in H as [H Hp]. apply andb_true_iff in H as [_ Ha].
    apply negb_true_iff in Ha.
    change (String a p ++ y) with (String a (p ++ y)) in *.
    cbn [LastIndexByte] in *. rewrite Ha in *.
    destruct (Z.leb_spec 0 (LastIndexByte (p ++ y) c)) as [Hle|Hlt]; [|lia].
    destruct (IH Hp Hle) as [Hy Heq]. split; [exact Hy|].
    rewrite Heq. cbn [len String.length]. fold (len p). lia.
Qed.

(** The parser leaves a prefix without parenthesis in the model name. *)
Lemma ParseSuffix_plain p y :
  plain "(" p = true ->
  exists y', Thinking.ModelName (Thinking.ParseSuffix (p ++ y)) = p ++ y'.
Proof.
  intros H. unfold Thinking.ParseSuffix.
  destruct (Z.ltb_spec (LastIndexByte (p ++ y) "(") 0) as [Hlt|Hge].
  - now exists y.
  - destruct (negb (HasSuffix (p ++ y) ")")); [now exists y|].
    cbn [Thinking.ModelName].
    destruct (LastIndexByte_plain _ _ _ H Hge) as [Hy Heq]. rewrite Heq.
    exists (slice_to (Z.to_nat (LastIndexByte y "(")) y).
    replace (Z.to_nat (Z.of_nat (len p) + LastIndexByte y "("))
      with (len p + Z.to_nat (LastIndexByte y "("))%nat by lia.
    clear. induction p as [|a p IH]; [reflexivity|].
    cbn. f_equal. exact IH.
Qed.

(** The key of a name that starts with a plain lower-case prefix starts with
    that prefix. *)
Lemma NormaliseModelKey_plain p y :
  p <> "" -> plain "(" p = true -> ToLower p = p ->
  exists z, NormaliseModelKey (p ++ y) = p ++ z.
Proof.
  intros Hne Hp Hl. unfold NormaliseModelKey.
  rewrite (TrimSpace_plain "(") by assumption.
  destruct (ParseSuffix_plain p (TrimRight y) Hp) as [y' ->].
  rewrite (TrimSpace_plain "(") by assumption.
  rewrite ToLower_app, Hl. eauto.
Qed.

Lemma DowngradeClaudeOpus46_flag model :
  snd (DowngradeClaudeOpus46 model) = IsClaudeOpus46 model.
Proof.
  unfold DowngradeClaudeOpus46, IsClaudeOpus46, NormaliseModelKey.
  destruct (String.eqb_spec (TrimSpace model) "") as [He|_].
  - rewrite He. reflexivity.
  - destruct (HasPrefix _ claudeOpus46Prefix); reflexivity.
Qed.

Lemma DowngradeClaudeOpus46_not_opus46 model :
  IsClaudeOpus46 (fst (DowngradeClaudeOpus46 model)) = false.
Proof.
  pose proof (DowngradeClaudeOpus46_flag model) as Hflag.
  destruct (IsClaudeOpus46 model) eqn:Hm.
  - unfold DowngradeClaudeOpus46 in *.
    destruct (String.eqb (TrimSpace model) ""); [discriminate Hflag|].
    destruct (negb (HasPrefix _ claudeOpus46Prefix)); [discriminate Hflag|].
    cbn [fst]. unfold claudeOpus45FallbackPrefix.
    match goal with
    | |- IsClaudeOpus46 (if ?b then (?p ++ ?r) ++ ?s else ?p ++ ?r) = false =>
        assert (Hshape : exists y, (if b then (p ++ r) ++ s else p ++ r) = p ++ y)
          by (destruct b; [rewrite append_assoc|]; eauto)
    end.
    destruct Hshape as [y ->]. unfold IsClaudeOpus46.
    destruct (NormaliseModelKey_plain "claude-opus-4-5-20251101" y) as [z ->];
      [discriminate|reflexivity|reflexivity|].
    reflexivity.
  - unfold DowngradeClaudeOpus46 in *.
    destruct (String.eqb (TrimSpace model) ""); [exact Hm|].
    destruct (negb (HasPrefix _ claudeOpus46Prefix)); [exact Hm|].
    discriminate Hflag.
Qed.

Lemma IsClaudeOpus46_TrimSpace model : IsClaudeOpus46 (TrimSpace model) = IsClaudeOpus46 model.
Proof. unfold IsClaudeOpus46, NormaliseModelKey. now rewrite TrimSpace_idem. Qed.

(** X1.  [IsClaudeOpus46] recognises exactly the names that
    [DowngradeClaudeOpus46] rewrites, and it never recognises the result of
    the rewriting: a downgraded name is not downgraded again. *)
Theorem DowngradeClaudeOpus46_settles (model : string) :
  snd (DowngradeClaudeOpus46 model) = IsClaudeOpus46 model
  /\ IsClaudeOpus46 (fst (DowngradeClaudeOpus46 model)) = false
  /\ DowngradeClaudeOpus46 (fst (DowngradeClaudeOpus46 model))
     = (fst (DowngradeClaudeOpus46 model), false).
Proof.
  split; [apply DowngradeClaudeOpus46_flag|].
  split; [apply DowngradeClaudeOpus46_not_opus46|].
  pose proof (DowngradeClaudeOpus46_not_opus46 model) as Hnot.
  revert Hnot. generalize (fst (DowngradeClaudeOpus46 model)). intros m Hm.
  unfold IsClaudeOpus46, NormaliseModelKey in Hm. unfold DowngradeClaudeOpus46.
  destruct (String.eqb (TrimSpace m) ""); [reflexivity|].
  now rewrite Hm.
Qed.

(** *** Wild cards *)

Lemma Index_found v s : (0 <= Index v s)%Z ->
  HasPrefix (slice_from (Z.to_nat (Index v s)) v) s = true.
Proof.
  induction v as [|a v IH]; cbn [Index]; intros H.
  - destruct (HasPrefix "" s) eqn:E; [exact E|lia].
  - destruct (HasPrefix (String a v) s) eqn:E; [exact E|].
    destruct (Z.ltb_spec (Index v s) 0) as [Hlt|Hge]; [lia|].
    replace (Z.to_nat (Index v s + 1)) with (S (Z.to_nat (Index v s))) by lia.
    cbn [slice_from]. now apply IH.
Qed.

Lemma Index_range v s : (-1 <= Index v s <= Z.of_nat (len v))%Z.
Proof.
  induction v as [|a v IH]; cbn [Index].
  - destruct (HasPrefix "" s); cbn; lia.
  - destruct (HasPrefix (String a v) s); [cbn [len String.length]; lia|].
    destruct (Z.ltb_spec (Index v s) 0); cbn [len String.length]; fold (len v); lia.
Qed.

(** [strings.Index] finds the leftmost occurrence. *)
Lemma Index_leftmost g s r : (0 <= Index (g ++ s ++ r) s <= Z.of_nat (len g))%Z.
Proof.
  induction g as [|a g IH].
  - cbn [String.append len String.length].
    assert (H : HasPrefix (s ++ r) s = true) by (apply HasPrefix_spec; eauto).
    destruct s as [|b s]; [destruct r; cbn; lia|].
    change (String b s ++ r) with (String b (s ++ r)) in *.
    cbn [Index]. rewrite H. lia.
  - change (String a g ++ s ++ r) with (String a (g ++ s ++ r)).
    cbn [Index len String.length]. fold (len g).
    destruct (HasPrefix (String a (g ++ s ++ r)) s); [lia|].
    destruct (Z.ltb_spec (Index (g ++ s ++ r) s) 0); lia.
Qed.

Lemma slice_from_le_len n v : (n <= len v)%nat -> len (slice_to n v) = n.
Proof. intros H. rewrite len_slice_to. lia. Qed.

Lemma slice_to_len r : slice_to (len r) r = r.
Proof. induction r as [|a r IH]; cbn; [reflexivity|]. f_equal. exact IH. Qed.

Lemma append_inv_head a x y : a ++ x = a ++ y -> x = y.
Proof. induction a as [|c a IH]; cbn; [easy|]. intros H. injection H. exact IH. Qed.

Lemma append_inv_tail b x y : x ++ b = y ++ b -> x = y.
Proof.
  intros H.
  assert (Hl : len x = len y) by (apply (f_equal len) in H; rewrite !len_app in H; lia).
  rewrite <- (slice_to_app x b), H, Hl. apply slice_to_app.
Qed.

Lemma inOrder_prepend segments : forall x r,
  inOrder segments r -> inOrder segments (x ++ r).
Proof.
  destruct segments as [|s rest]; [easy|].
  intros x r (g & r' & -> & H). exists (x ++ g), r'.
  split; [now rewrite append_assoc|exact H].
Qed.

(** The loop over the inner segments finds them exactly when they occur in
    order: taking each at its leftmost place loses nothing. *)
Lemma matchSegments_inOrder segments : forall v,
  matchSegments segments v = true <-> inOrder segments v.
Proof.
  induction segments as [|s rest IH]; intros v; cbn [matchSegments inOrder].
  - tauto.
  - destruct (String.eqb_spec s "") as [->|Hs].
    + rewrite IH. split.
      * intros H. now exists "", v.
      * intros (g & r & -> & H). cbn [String.append]. now apply inOrder_prepend.
    + destruct (Z.ltb_spec (Index v s) 0) as [Hlt|Hge].
      * split; [discriminate|]. intros (g & r & -> & _).
        pose proof (Index_leftmost g s r). lia.
      * rewrite IH. split.
        -- intros H. pose proof (Index_found v s Hge) as Hp.
           apply HasPrefix_spec in Hp as [r Hr].
           exists (slice_to (Z.to_nat (Index v s)) v), r. split.
           ++ rewrite <- Hr. symmetry. apply slice_to_from.
           ++ replace r with (slice_from (len s) (slice_from (Z.to_nat (Index v s)) v))
                by (rewrite Hr; apply slice_from_app).
              replace (slice_from (len s) (slice_from (Z.to_nat (Index v s)) v))
                with (slice_from (Z.to_nat (Index v s + Z.of_nat (len s))) v); [exact H|].
              replace (Z.to_nat (Index v s + Z.of_nat (len s)))
                with (Z.to_nat (Index v s) + len s)%nat by lia.
              generalize (Z.to_nat (Index v s)). clear. intros n. revert v.
              induction n as [|n IHn]; intros v; [reflexivity|].
              destruct v as [|a v]; cbn [slice_from Nat.add].
              ** clear. induction (len s); reflexivity.
              ** apply IHn.
        -- intros (g & r & -> & H).
           pose proof (Index_leftmost g s r) as Hi.
           set (n := (Z.to_nat (Index (g ++ s ++ r) s + Z.of_nat (len s)))).
           rewrite <- append_assoc.
           rewrite slice_from_app_le by (rewrite len_app; subst n; lia).
           now apply inOrder_prepend.
Qed.

Lemma Split_cons s sep : exists p ps, Split s sep = p :: ps.
Proof.
  induction s as [|c s IH]; cbn [Split]; [eauto|].
  destruct (Ascii.eqb c sep); [eauto|]. destruct IH as (p & ps & ->). eauto.
Qed.

(** Splitting at a byte that occurs gives at least two parts. *)
Lemma Split_two s sep : occurs sep s = true -> exists p q qs, Split s sep = p :: q :: qs.
Proof.
  induction s as [|c s IH]; cbn [Split occurs]; [discriminate|].
  rewrite Ascii.eqb_sym. destruct (Ascii.eqb c sep); cbn [orb].
  - intros _. destruct (Split_cons s sep) as (p & ps & ->). eauto.
  - intros H. destruct (IH H) as (p & q & qs & ->). eauto.
Qed.

(** [Split] is undone by [Join], and no part holds the separator. *)
Lemma Join_Split s sep :
  Join (Split s sep) sep = s /\ Forall (fun p => occurs sep p = false) (Split s sep).
Proof.
  induction s as [|c s [IHj IHf]]; cbn [Split]; [split; [reflexivity|now repeat constructor]|].
  destruct (Ascii.eqb_spec c sep) as [->|Hc].
  - split; [|constructor; [reflexivity|exact IHf]].
    destruct (Split_cons s sep) as (p & ps & E). rewrite E in *.
    change (Join ("" :: p :: ps) sep) with ("" ++ String sep (Join (p :: ps) sep)).
    rewrite IHj. reflexivity.
  - destruct (Split_cons s sep) as (p & ps & E). rewrite E in *.
    apply Forall_cons_iff in IHf as [Hp Hps]. split.
    + destruct ps as [|q qs].
      * cbn [Join] in *. now rewrite IHj.
      * change (Join (String c p :: q :: qs) sep)
          with (String c (p ++ String sep (Join (q :: qs) sep))).
        change (Join (p :: q :: qs) sep)
          with (p ++ String sep (Join (q :: qs) sep)) in IHj.
        now rewrite IHj.
    + constructor; [|exact Hps]. cbn [occurs]. rewrite Hp.
      destruct (Ascii.eqb_spec sep c); [congruence|reflexivity].
Qed.



End PolicyExtra.

(** ** The daily limiter *)

Module LimiterExtra.
Import GoStrings GoStringsFacts Policy LimiterSpec QuotaSpec.

(** X3.  [Consume] sees its three keys only through their normal form: calls
    whose api keys and days agree up to surrounding white space, and whose
    models agree up to white space and case, are one and the same call, and
    so share one counter. *)
Theorem Consume_by_row l fault now apiKey model dayKey apiKey' model' dayKey' limit :
  rowKey apiKey model dayKey = rowKey apiKey' model' dayKey' ->
  Consume l fault now apiKey model dayKey limit
  = Consume l fault now apiKey' model' dayKey' limit.
Proof.
  unfold rowKey. intros H. injection H as Ha Hm Hd.
  unfold Consume. now rewrite Ha, Hm, Hd.
Qed.

Lemma Consume_by_row_witness :
  Consume (open ∅) None 5 " k1 " "Claude-Opus-4-6 " "2026-02-08" 2
  = Consume (open ∅) None 5 "k1" "claude-opus-4-6" " 2026-02-08" 2.
Proof. apply Consume_by_row. vm_compute. reflexivity. Defined.

(** A call that fails or is refused leaves the table as it was. *)
Lemma Consume_refused_table l fault now apiKey model dayKey limit :
  snd (fst (fst (Consume l fault now apiKey model dayKey limit))) = false ->
  table (snd (Consume l fault now apiKey model dayKey limit)) = table l.
Proof.
  unfold Consume, table.
  destruct l as [[[t|]]|]; cbn [db]; try reflexivity.
  destruct (String.eqb (TrimSpace apiKey) "" || String.eqb (ToLower (TrimSpace model)) ""
            || String.eqb (TrimSpace dayKey) ""); [reflexivity|].
  destruct (limit <=? 0)%Z; [reflexivity|].
  destruct fault as [e|]; [reflexivity|].
  unfold consumeStmt.
  destruct (t !! (TrimSpace apiKey, ToLower (TrimSpace model), TrimSpace dayKey)) as [r|];
    [|discriminate].
  destruct (count r <? limit)%Z; [discriminate|reflexivity].
Qed.

(** An error is never reported together with an admission. *)
Lemma Consume_error_refuses l fault now apiKey model dayKey limit :
  snd (fst (Consume l fault now apiKey model dayKey limit)) <> None ->
  snd (fst (fst (Consume l fault now apiKey model dayKey limit))) = false.
Proof.
  unfold Consume.
  destruct l as [[[t|]]|]; cbn [db]; try reflexivity.
  destruct (String.eqb (TrimSpace apiKey) "" || String.eqb (ToLower (TrimSpace model)) ""
            || String.eqb (TrimSpace dayKey) ""); [reflexivity|].
  destruct (limit <=? 0)%Z; [reflexivity|].
  destruct fault as [e|]; [reflexivity|].
  destruct (consumeStmt t _ _ _ now limit) as [[c|] t']; cbn; [congruence|reflexivity].
Qed.

(** What an admission does to the table. *)
Lemma Consume_admitted l fault now apiKey model dayKey limit :
  snd (fst (fst (Consume l fault now apiKey model dayKey limit))) = true ->
  let k := rowKey apiKey model dayKey in
  exists t, table l = Some t
    /\ table (snd (Consume l fault now apiKey model dayKey limit))
       = Some (<[k := {| count := countOf t k + 1; updated_at := now |}]> t)
    /\ (countOf t k + 1 <= limit)%Z.
Proof.
  unfold Consume, table, rowKey, countOf.
  destruct l as [[[t|]]|]; cbn [db]; try discriminate.
  destruct (String.eqb (TrimSpace apiKey) "" || String.eqb (ToLower (TrimSpace model)) ""
            || String.eqb (TrimSpace dayKey) ""); [discriminate|].
  destruct (Z.leb_spec limit 0) as [Hl|Hl]; [discriminate|].
  destruct fault as [e|]; [discriminate|].
  unfold consumeStmt.
  destruct (t !! (TrimSpace apiKey, ToLower (TrimSpace model), TrimSpace dayKey))
    as [r|] eqn:Hr.
  - destruct (Z.ltb_spec (count r) limit) as [Hc|Hc]; [|discriminate]. cbn [db snd].
    intros _. exists t. rewrite Hr. split; [reflexivity|]. split; [reflexivity|lia].
  - cbn [db snd]. intros _. exists t. rewrite Hr. split; [reflexivity|].
    split; [reflexivity|lia].
Qed.

(** X4.  One call of [Consume], on any limiter and whatever the storage
    does.  A call that is not allowed leaves the table as it was, and without
    an error it is refused only under a limit that is not positive or on a
    row that has reached the limit.  A call that is allowed reports no error,
    adds exactly one to the count of its row, stamps the row with the time of
    the call, returns the new count, which is within the limit, and touches
    no other row. *)
Theorem Consume_effect l fault now apiKey model dayKey limit :
  let k := rowKey apiKey model dayKey in
  let '((c, allowed, err), l') := Consume l fault now apiKey model dayKey limit in
  (allowed = false ->
     table l' = table l
     /\ (err = None ->
         (limit <= 0)%Z \/ exists t, table l = Some t /\ (limit <= countOf t k)%Z))
  /\ (allowed = true ->
        err = None
        /\ exists t, table l = Some t
             /\ table l' = Some (<[k := {| count := c; updated_at := now |}]> t)
             /\ c = (countOf t k + 1)%Z
             /\ (c <= limit)%Z).
Proof.
  unfold Consume, rowKey, table, countOf.
  destruct l as [[[t|]]|]; cbn [db]; try (split; [split; [reflexivity|discriminate]|discriminate]).
  destruct (String.eqb (TrimSpace apiKey) "" || String.eqb (ToLower (TrimSpace model)) ""
            || String.eqb (TrimSpace dayKey) "");
    [split; [split; [reflexivity|discriminate]|discriminate]|].
  destruct (Z.leb_spec limit 0) as [Hl|Hl];
    [split; [split; [reflexivity|intros _; now left]|discriminate]|].
  destruct fault as [e|]; [split; [split; [reflexivity|discriminate]|discriminate]|].
  unfold consumeStmt.
  destruct (t !! (TrimSpace apiKey, ToLower (TrimSpace model), TrimSpace dayKey))
    as [r|] eqn:Hr.
  - destruct (Z.ltb_spec (count r) limit) as [Hc|Hc]; cbn [db].
    + split; [discriminate|]. intros _. split; [reflexivity|].
      exists t. rewrite Hr. split; [reflexivity|]. split; [reflexivity|]. split; [reflexivity|lia].
    + split; [|discriminate]. intros _. split; [reflexivity|].
      intros _. right. exists t. rewrite Hr. split; [reflexivity|lia].
  - cbn [db]. split; [discriminate|]. intros _. split; [reflexivity|].
    exists t. rewrite Hr. split; [reflexivity|]. split; [reflexivity|]. split; [reflexivity|lia].
Qed.

End LimiterExtra.

(** ** The billing store *)

Module BillingExtra.
Import GoStrings StringsSpec GoStringsFacts Policy PolicyFacts Billing BillingSpec BillingFacts
  LedgerSpec.

#[local] Arguments String.append !_ _ / : simpl nomatch.

Lemma TrimSuffix_app k suf : TrimSuffix (k ++ suf) suf = k.
Proof.
  unfold TrimSuffix.
  assert (H : HasSuffix (k ++ suf) suf = true) by (apply HasSuffix_spec; eauto).
  rewrite H. replace (len (k ++ suf) - len suf)%nat with (len k) by (rewrite len_app; lia).
  apply slice_to_app.
Qed.

Lemma append_neq k suf : suf <> "" -> k <> k ++ suf.
Proof.
  intros Hs H. apply (f_equal len) in H. rewrite len_app in H.
  destruct suf; [congruence|]. cbn [len String.length] in H. lia.
Qed.

(** The base of the thinking variant of a key. *)
Lemma StripThinkingVariant_thinking model k :
  NormaliseModelKey model = k ++ "-thinking" ->
  StripThinkingVariant (NormaliseModelKey model) = k.
Proof.
  intros H. unfold StripThinkingVariant.
  rewrite NormaliseModelKey_canonical, NormaliseModelKey_lower, H.
  apply TrimSuffix_app.
Qed.

(** X5.  A price that is saved is the price that is resolved: after
    [UpsertModelPrice] has stored a valid price for a model, [ResolvePriceMicro]
    answers that price, with source "saved" and the time of the upsert, for
    every name with the same key, and also for the "-thinking" variant of the
    key as long as the variant has no row of its own. *)
Theorem UpsertModelPrice_then_Resolve (d : DB) (queryErr : string -> option string)
    (now : Z) (model : string) (price : PriceMicroUSDPer1M) :
  let k := NormaliseModelKey model in
  k <> "" ->
  (0 <= Prompt price)%Z -> (0 <= Completion price)%Z -> (0 <= Cached price)%Z ->
  exists s',
    UpsertModelPrice (storeOf d) None now model price = (None, s')
    /\ (forall model', NormaliseModelKey model' = k -> queryErr k = None ->
          ResolvePriceMicro s' queryErr model' = (price, "saved", now, None))
    /\ (forall model', NormaliseModelKey model' = k ++ "-thinking" ->
          queryErr k = None -> queryErr (k ++ "-thinking") = None ->
          model_prices d !! (k ++ "-thinking") = None ->
          ResolvePriceMicro s' queryErr model' = (price, "saved", now, None)).
Proof.
  intros k Hk Hp Hc Hca. unfold UpsertModelPrice, storeOf. cbn [openDB db]. fold k.
  destruct (String.eqb_spec k "") as [|_]; [contradiction|].
  destruct (Z.ltb_spec (Prompt price) 0); [lia|].
  destruct (Z.ltb_spec (Completion price) 0); [lia|].
  destruct (Z.ltb_spec (Cached price) 0); [lia|]. cbn [orb].
  eexists. split; [reflexivity|]. split.
  - intros model' Hm Hq. unfold ResolvePriceMicro. rewrite Hm.
    destruct (String.eqb_spec k "") as [|_]; [contradiction|].
    cbn [openDB db]. unfold getSavedPriceMicro. cbn [openDB db model_prices].
    rewrite Hq, lookup_insert_eq. reflexivity.
  - intros model' Hm Hq Hqt Hnone. unfold ResolvePriceMicro.
    rewrite (StripThinkingVariant_thinking model' k Hm), Hm.
    destruct (String.eqb_spec (k ++ "-thinking") "") as [E|_].
    { destruct k; discriminate E. }
    cbn [openDB db]. unfold getSavedPriceMicro. cbn [openDB db model_prices].
    rewrite Hqt, lookup_insert_ne by (apply append_neq; discriminate).
    rewrite Hnone.
    destruct (String.eqb_spec k "") as [|_]; [contradiction|].
    destruct (String.eqb_spec k (k ++ "-thinking")) as [E|_].
    { exfalso. revert E. apply append_neq. discriminate. }
    cbn [negb andb]. rewrite Hq, lookup_insert_eq. reflexivity.
Qed.

Lemma UpsertModelPrice_then_Resolve_witness :
  exists s',
    UpsertModelPrice (storeOf {| model_prices := ∅; daily_usage := ∅ |}) None 7
      " GPT-5.2 " completionPrice = (None, s')
    /\ ResolvePriceMicro s' noErr "gpt-5.2(high)" = (completionPrice, "saved", 7%Z, None)
    /\ ResolvePriceMicro s' noErr "gpt-5.2-thinking" = (completionPrice, "saved", 7%Z, None).
Proof.
  destruct (UpsertModelPrice_then_Resolve {| model_prices := ∅; daily_usage := ∅ |}
              noErr 7 " GPT-5.2 " completionPrice)
    as (s' & Hu & Hsame & Hthink);
    [vm_compute; discriminate | vm_compute; discriminate | vm_compute; discriminate
    | vm_compute; discriminate |].
  exists s'. split; [exact Hu|]. split.
  - apply Hsame; reflexivity.
  - apply Hthink; reflexivity.
Defined.

(** X6.  Deleting an override brings the built-in price back:
    [DeleteModelPrice] reports whether the key had a row, and afterwards
    [ResolvePriceMicro] answers for the key what the built-in table gives,
    unless the key is a "-thinking" variant whose base has a saved row.
    Without an open database, with a blank key or under a storage fault,
    nothing is deleted and the store is as it was. *)
Theorem DeleteModelPrice_then_Resolve (s : option SQLiteStore) (fault : option string)
    (queryErr : string -> option string) (model : string) :
  let k := NormaliseModelKey model in
  let base := StripThinkingVariant k in
  let '((deleted, err), s') := DeleteModelPrice s fault model in
  (err <> None -> deleted = false /\ s' = s)
  /\ ((openDB s = None \/ k = "" \/ fault <> None) -> err <> None)
  /\ (err = None ->
      (deleted = true <-> is_Some (savedPrices s !! k))
      /\ forall model', NormaliseModelKey model' = k ->
           queryErr k = None -> queryErr base = None ->
           (base = k \/ savedPrices s !! base = None) ->
           ResolvePriceMicro s' queryErr model' = resolveDefault k base).
Proof.
  intros k base. unfold DeleteModelPrice, savedPrices. fold k.
  destruct (openDB s) as [d|] eqn:Ho.
  2:{ split; [easy|]. split; [discriminate|discriminate]. }
  destruct (String.eqb_spec k "") as [Ek|Hk].
  { split; [easy|]. split; [discriminate|discriminate]. }
  destruct fault as [e|].
  { split; [easy|]. split; [discriminate|discriminate]. }
  split; [intros H; now contradiction H|].
  split; [intros [H|[H|H]]; [discriminate H|contradiction|now contradiction H]|].
  intros _. split.
  - destruct (model_prices d !! k); split; intros H; try reflexivity; try discriminate;
      [eauto | destruct H; discriminate].
  - intros model' Hm Hq Hqb Hbase. unfold ResolvePriceMicro. rewrite Hm. fold base.
    destruct (String.eqb_spec k "") as [|_]; [contradiction|].
    cbn [openDB db]. unfold getSavedPriceMicro. cbn [openDB db model_prices].
    rewrite Hq, lookup_delete_eq.
    destruct (negb (String.eqb base "") && negb (String.eqb base k)) eqn:Hb; [|reflexivity].
    rewrite Hqb.
    destruct Hbase as [E|Hnone].
    + rewrite E, String.eqb_refl, andb_false_r in Hb. discriminate.
    + rewrite lookup_delete_ne.
      * rewrite Hnone. reflexivity.
      * intros E. rewrite <- E, String.eqb_refl, andb_false_r in Hb. discriminate.
Qed.

(** The sum of the daily cost after one row has been written. *)
Lemma sumDailyCost_insert apiKey dayKey usage k r :
  sumDailyCost apiKey dayKey (<[k := r]> usage)
  = (sumDailyCost apiKey dayKey usage
     - (if counts apiKey dayKey k
        then match usage !! k with Some old => CostMicroUSD old | None => 0 end
        else 0)
     + (if counts apiKey dayKey k then CostMicroUSD r else 0))%Z.
Proof.
  unfold sumDailyCost.
  set (f := fun (k : string * string * string) (r : DailyUsageRow) (acc : Z) =>
              let '(a, _, d) := k in
              if String.eqb a apiKey && String.eqb d dayKey
              then (acc + CostMicroUSD r)%Z else acc).
  assert (Hcomm : forall j1 j2 z1 z2 y, f j1 z1 (f j2 z2 y) = f j2 z2 (f j1 z1 y)).
  { intros [[a1 m1] d1] [[a2 m2] d2] z1 z2 y. unfold f.
    destruct (String.eqb a1 apiKey && String.eqb d1 dayKey),
             (String.eqb a2 apiKey && String.eqb d2 dayKey); lia. }
  assert (Hf : forall j z y, f j z y = (y + if counts apiKey dayKey j then CostMicroUSD z else 0)%Z).
  { intros [[a1 m1] d1] z y. unfold f, counts.
    destruct (String.eqb a1 apiKey && String.eqb d1 dayKey); lia. }
  destruct (usage !! k) as [old|] eqn:Hk.
  - rewrite <- insert_delete_eq.
    rewrite map_fold_insert_L; [|intros; apply Hcomm|apply lookup_delete_eq].
    rewrite (map_fold_delete_L f 0%Z k old usage); [|intros; apply Hcomm|exact Hk].
    rewrite !Hf. destruct (counts apiKey dayKey k); lia.
  - rewrite map_fold_insert_L; [|intros; apply Hcomm|exact Hk].
    rewrite Hf. destruct (counts apiKey dayKey k); lia.
Qed.



Section Sink.

Variable DayKeyChina : Z -> string.

(** X8.  Whatever the record holds and whatever the storage does, the usage
    sink only ever adds to one row.  It leaves the price table alone and
    every usage row but the one of the record's api key, model and day; in
    that row no counter goes down and the request count goes up by one at
    most.  A record without an api key, a record whose price cannot be
    resolved, and a record hit by a storage fault are dropped: the store
    stays as it was. *)
Theorem HandleUsage_only_adds (d : DB) (queryErr : string -> option string)
    (fault : option string) (now : Z) (record : UsageRecord) :
  let k := BillingSpec.sinkKey DayKeyChina now record in
  exists d',
    HandleUsage DayKeyChina (Some {| store := storeOf d |}) queryErr fault now record
    = storeOf d'
    /\ model_prices d' = model_prices d
    /\ (forall k', k' <> k -> daily_usage d' !! k' = daily_usage d !! k')
    /\ (forall r, daily_usage d !! k = Some r ->
          exists r', daily_usage d' !! k = Some r'
            /\ (Requests r <= Requests r' <= Requests r + 1)%Z
            /\ (FailedRequests r <= FailedRequests r')%Z
            /\ (InputTokens r <= InputTokens r')%Z
            /\ (OutputTokens r <= OutputTokens r')%Z
            /\ (ReasoningTokens r <= ReasoningTokens r')%Z
            /\ (CachedTokens r <= CachedTokens r')%Z
            /\ (TotalTokens r <= TotalTokens r')%Z
            /\ (CostMicroUSD r <= CostMicroUSD r')%Z)
    /\ (TrimSpace (rAPIKey record) = ""
        \/ snd (ResolvePriceMicro (storeOf d) queryErr (sinkModel (rModel record))) <> None
        \/ fault <> None
        -> d' = d).
Proof.
  intros k.
  assert (Hsame : exists d',
    storeOf d = storeOf d'
    /\ model_prices d' = model_prices d
    /\ (forall k', k' <> k -> daily_usage d' !! k' = daily_usage d !! k')
    /\ (forall r, daily_usage d !! k = Some r ->
          exists r', daily_usage d' !! k = Some r'
            /\ (Requests r <= Requests r' <= Requests r + 1)%Z
            /\ (FailedRequests r <= FailedRequests r')%Z
            /\ (InputTokens r <= InputTokens r')%Z
            /\ (OutputTokens r <= OutputTokens r')%Z
            /\ (ReasoningTokens r <= ReasoningTokens r')%Z
            /\ (CachedTokens r <= CachedTokens r')%Z
            /\ (TotalTokens r <= TotalTokens r')%Z
            /\ (CostMicroUSD r <= CostMicroUSD r')%Z)
    /\ (TrimSpace (rAPIKey record) = ""
        \/ snd (ResolvePriceMicro (storeOf d) queryErr (sinkModel (rModel record))) <> None
        \/ fault <> None
        -> d' = d)).
  { exists d. split; [reflexivity|]. split; [reflexivity|]. split; [reflexivity|].
    split; [|reflexivity]. intros r Hr. exists r. split; [exact Hr|lia]. }
  unfold HandleUsage. cbn [store]. unfold storeOf at 1. cbn [openDB db].
  destruct (String.eqb_spec (TrimSpace (rAPIKey record)) "") as [Ea|Ha]; [exact Hsame|].
  fold (sinkModel (rModel record)). fold (storeOf d).
  destruct (ResolvePriceMicro (storeOf d) queryErr (sinkModel (rModel record)))
    as [[[price source] updated] [errP|]] eqn:Hres; [exact Hsame|].
  unfold AddUsage, storeOf at 1. cbn [openDB db].
  rewrite TrimSpace_idem.
  destruct (String.eqb (TrimSpace (rAPIKey record)) ""
            || String.eqb (NormaliseModelKey (sinkModel (rModel record))) ""
            || String.eqb (TrimSpace (DayKeyChina
                  match rRequestedAt record with Some t => t | None => now end)) "");
    [exact Hsame|].
  cbn [Requests FailedRequests].
  assert (Hfail : (boolToInt64 (rFailed record) <? 0)%Z = false)
    by (destruct (rFailed record); reflexivity).
  rewrite Hfail. cbn [Z.ltb Z.compare orb].
  destruct fault as [e|]; [exact Hsame|]. cbn [snd].
  clear Hsame. subst k. unfold BillingSpec.sinkKey. eexists. split; [reflexivity|].
  cbn [model_prices daily_usage].
  split; [reflexivity|]. split; [|split].
  - intros k' Hk'. now rewrite lookup_insert_ne.
  - intros r Hr. rewrite lookup_insert_eq, Hr. eexists. split; [reflexivity|].
    cbn [addUsageRow Requests FailedRequests InputTokens OutputTokens ReasoningTokens
         CachedTokens TotalTokens CostMicroUSD].
    rewrite !max64_max. destruct (rFailed record); cbn [boolToInt64]; lia.
  - intros [H|[H|H]]; [contradiction| |now contradiction H].
    now contradiction H.
Qed.

End Sink.

End BillingExtra.

(** ** Policies *)

Module ConfigExtra.
Import GoStrings StringsSpec GoStringsFacts Policy PolicyFacts Config ConfigSpec ConfigFacts
  FailoverSpec.

(** Trimming and lowering a pattern beforehand changes nothing. *)
Lemma MatchWildcard_normal pattern value :
  MatchWildcard (ToLower (TrimSpace pattern)) value = MatchWildcard pattern value.
Proof. unfold MatchWildcard. now rewrite TrimSpace_canonical, ToLower_idem. Qed.

Lemma MatchWildcard_blank_pattern pattern value :
  ToLower (TrimSpace pattern) = "" -> MatchWildcard pattern value = false.
Proof. unfold MatchWildcard. now intros ->. Qed.

Lemma MatchWildcard_blank_value pattern :
  MatchWildcard pattern "" = false.
Proof. unfold MatchWildcard. cbn. now rewrite orb_true_r. Qed.

Lemma firstRuleTarget_find rules requestKey :
  firstRuleTarget rules requestKey
  = option_map (fun r => TrimSpace (RuleTargetModel r)) (find (applies requestKey) rules).
Proof.
  induction rules as [|rule rest IH]; [reflexivity|].
  cbn [firstRuleTarget find]. unfold applies at 1.
  destruct (String.eqb_spec (ToLower (TrimSpace (FromModel rule))) "") as [E|_].
  - rewrite (MatchWildcard_blank_pattern _ _ E). exact IH.
  - rewrite MatchWildcard_normal.
    destruct (MatchWildcard (FromModel rule) requestKey); cbn [negb andb]; [|exact IH].
    destruct (String.eqb (TrimSpace (RuleTargetModel rule)) ""); cbn [negb]; [exact IH|].
    reflexivity.
Qed.

(** X9.  With failover enabled, the target for a request is that of the
    first rule, in the order of the configuration, whose pattern matches the
    key of the requested model and whose target is not blank; the pattern is
    matched as a wild card, whatever its case and surrounding white space.
    When no rule answers, the target is the policy's default one. *)
Theorem ClaudeFailoverTargetModelFor_first_rule (pol : APIKeyPolicy) (requestedModel : string) :
  Enabled (Claude (Failover pol)) = true ->
  ClaudeFailoverTargetModelFor (Some pol) requestedModel
  = match find (applies (NormaliseModelKey requestedModel)) (Rules (Claude (Failover pol))) with
    | Some rule => (TrimSpace (RuleTargetModel rule), true)
    | None => ClaudeFailoverTargetModel (Some pol)
    end.
Proof.
  intros He. unfold ClaudeFailoverTargetModelFor. rewrite He. cbn [negb].
  rewrite firstRuleTarget_find.
  destruct (String.eqb_spec (NormaliseModelKey requestedModel) "") as [E|_]; cbn [negb andb].
  - rewrite E.
    assert (H : find (applies "") (Rules (Claude (Failover pol))) = None).
    { induction (Rules (Claude (Failover pol))) as [|r rs IH]; [reflexivity|].
      cbn [find]. unfold applies at 1. now rewrite MatchWildcard_blank_value. }
    now rewrite H.
  - destruct (Rules (Claude (Failover pol))) as [|r rs] eqn:Er; [reflexivity|].
    cbn [length Nat.ltb Nat.leb].
    destruct (find (applies (NormaliseModelKey requestedModel)) (r :: rs)); reflexivity.
Qed.

Lemma ClaudeFailoverTargetModelFor_first_rule_witness :
  ClaudeFailoverTargetModelFor
    (Some (failoverPolicy " gpt-5.2(high) "
             [ {| FromModel := "claude-haiku-*"; RuleTargetModel := "gpt-5.2-mini" |};
               {| FromModel := " Claude-Opus-* "; RuleTargetModel := "  " |};
               {| FromModel := "CLAUDE-*"; RuleTargetModel := " gpt-5.2(low) " |};
               {| FromModel := "*"; RuleTargetModel := "never" |} ]))
    "Claude-Opus-4-6(8192)"
  = ("gpt-5.2(low)", true).
Proof.
  rewrite ClaudeFailoverTargetModelFor_first_rule by reflexivity.
  vm_compute. reflexivity.
Defined.

(** X10.  Both resolvers answer "no failover" with an empty target exactly
    when there is no policy or its Claude failover is disabled; when they
    answer "failover" the target is never blank and carries no surrounding
    white space. *)
Theorem ClaudeFailoverTargetModel_shape (p : option APIKeyPolicy) (requestedModel : string) :
  let enabled := match p with Some pol => Enabled (Claude (Failover pol)) | None => false end in
  let shape (r : string * bool) :=
    snd r = enabled
    /\ (if snd r then fst r <> "" /\ TrimSpace (fst r) = fst r else fst r = "") in
  shape (ClaudeFailoverTargetModel p) /\ shape (ClaudeFailoverTargetModelFor p requestedModel).
Proof.
  intros enabled shape.
  assert (H1 : shape (ClaudeFailoverTargetModel p)).
  { subst shape enabled. unfold ClaudeFailoverTargetModel.
    destruct p as [pol|]; [|easy].
    destruct (Enabled (Claude (Failover pol))); [|easy]. cbn [negb fst snd].
    split; [reflexivity|].
    destruct (String.eqb_spec (TrimSpace (TargetModel (Claude (Failover pol)))) "") as [E|E].
    - split; [discriminate|reflexivity].
    - split; [exact E|apply TrimSpace_idem]. }
  split; [exact H1|].
  destruct p as [pol|]; [|easy].
  destruct (Enabled (Claude (Failover pol))) eqn:He.
  - unfold ClaudeFailoverTargetModelFor. rewrite He. cbn [negb].
    destruct (negb (String.eqb (NormaliseModelKey requestedModel) "")
              && (0 <? length (Rules (Claude (Failover pol))))%nat); [|exact H1].
    rewrite firstRuleTarget_find.
    destruct (find _ _) as [rule|] eqn:Hf; [|exact H1].
    subst shape enabled. cbn [fst snd option_map]. split; [reflexivity|].
    apply find_some in Hf as [_ Hf]. unfold applies in Hf.
    apply andb_true_iff in Hf as [_ Hf]. apply negb_true_iff, String.eqb_neq in Hf.
    split; [exact Hf|apply TrimSpace_idem].
  - subst shape enabled. unfold ClaudeFailoverTargetModelFor. rewrite He. easy.
Qed.

(** *** Looking a key up after sanitising *)

Lemma find_snoc {A} (f : A -> bool) l e :
  find f (l ++ [e])%list
  = match find f l with
    | Some y => Some y
    | None => if f e then Some e else None
    end.
Proof.
  induction l as [|a l IH]; cbn [find app]; [reflexivity|].
  destruct (f a); [reflexivity|exact IH].
Qed.

Lemma find_none_lookup {A} (f : A -> bool) l :
  (forall i y, l !! i = Some y -> f y = false) -> find f l = None.
Proof.
  induction l as [|a l IH]; intros H; [reflexivity|].
  cbn [find]. rewrite (H 0%nat a eq_refl). apply IH.
  intros i y Hy. exact (H (S i) y Hy).
Qed.

Lemma find_insert_miss {A} (f : A -> bool) l : forall i a e,
  l !! i = Some a -> f a = false -> f e = false -> find f (<[i := e]> l) = find f l.
Proof.
  induction l as [|b l IH]; intros [|i] a e Hi Ha He; try discriminate.
  - injection Hi as ->. cbn. now rewrite Ha, He.
  - cbn. destruct (f b); [reflexivity|]. now apply IH with a.
Qed.

Lemma find_insert_hit {A} (f : A -> bool) l : forall i a e,
  l !! i = Some a ->
  (forall j y, (j < i)%nat -> l !! j = Some y -> f y = false) ->
  f e = true -> find f (<[i := e]> l) = Some e.
Proof.
  induction l as [|b l IH]; intros [|i] a e Hi Hlt He; try discriminate.
  - cbn. now rewrite He.
  - cbn. rewrite (Hlt 0%nat b) by (lia || reflexivity).
    apply IH with a; [exact Hi| |exact He].
    intros j y Hj Hy. apply (Hlt (S j) y); [lia|exact Hy].
Qed.

Section Lookup.

Variable NormalizeExcludedModels : list string -> list string.
Variable rangeMap : gmap string Z -> list (string * Z).

Abbreviation sanitizeEntry := (Config.sanitizeEntry NormalizeExcludedModels rangeMap).
Abbreviation sanitizeStep := (Config.sanitizeStep NormalizeExcludedModels rangeMap).
Abbreviation SanitizeAPIKeyPolicies :=
  (Config.SanitizeAPIKeyPolicies NormalizeExcludedModels rangeMap).
Abbreviation Inv := (ConfigSpec.Inv NormalizeExcludedModels rangeMap).

(** Under the invariant of the loop, the entries of [out] have trimmed keys. *)
Lemma Inv_trimmed processed seen out idx e :
  Inv processed seen out -> out !! idx = Some e -> TrimSpace (APIKey e) = APIKey e.
Proof.
  intros [_ _ H3] He. destruct (H3 idx e He) as (pre & x & post & _ & _ & -> & _).
  apply TrimSpace_idem.
Qed.

(** After the loop, the first entry with a key is the sanitised form of the
    last input entry with that key. *)
Lemma find_fold policies key :
  key <> "" ->
  find (hasKey key) (snd (fold_left sanitizeStep policies (∅, [])))
  = option_map sanitizeEntry (find (hasKey key) (rev policies)).
Proof.
  intros Hkey.
  induction policies as [|x processed IH] using rev_ind; [reflexivity|].
  pose proof (Inv_fold NormalizeExcludedModels rangeMap processed) as HI. cbv zeta in HI.
  rewrite fold_left_app, rev_app_distr. cbn [fold_left rev app find].
  destruct (fold_left sanitizeStep processed (∅, [])) as [seen out].
  cbn [fst snd] in *. unfold Config.sanitizeStep, hasKey at 2.
  destruct (String.eqb_spec (TrimSpace (APIKey x)) "") as [Hx|Hx].
  - destruct (String.eqb_spec (TrimSpace (APIKey x)) key) as [E|_]; [congruence|exact IH].
  - set (e := sanitizeEntry x).
    assert (Hke : APIKey e = TrimSpace (APIKey x)) by reflexivity.
    assert (Hfe : hasKey key e = String.eqb (TrimSpace (APIKey x)) key).
    { unfold hasKey. now rewrite Hke, TrimSpace_idem. }
    assert (Hold : forall j y, out !! j = Some y ->
              hasKey key y = true -> seen !! key = Some j).
    { intros j y Hy Hf. unfold hasKey in Hf. apply String.eqb_eq in Hf.
      rewrite (Inv_trimmed _ _ _ _ _ HI Hy) in Hf. rewrite <- Hf.
      now apply (inv_out _ _ _ _ _ HI). }
    rewrite Hke.
    destruct (seen !! TrimSpace (APIKey x)) as [idx|] eqn:Hs; cbn [snd].
    + destruct (inv_seen _ _ _ _ _ HI _ _ Hs) as (e0 & He0 & Hk0).
      destruct (String.eqb_spec (TrimSpace (APIKey x)) key) as [E|E].
      * cbn [option_map]. apply find_insert_hit with e0; [exact He0| |exact Hfe].
        intros j y Hj Hy. destruct (hasKey key y) eqn:Hf; [|reflexivity].
        pose proof (Hold j y Hy Hf) as Hj'. rewrite <- E, Hs in Hj'. injection Hj' as ->. lia.
      * rewrite <- IH. apply find_insert_miss with e0; [exact He0| |].
        -- unfold hasKey. rewrite Hk0, TrimSpace_idem. now apply String.eqb_neq.
        -- exact Hfe.
    + rewrite find_snoc, Hfe.
      destruct (String.eqb_spec (TrimSpace (APIKey x)) key) as [E|E].
      * cbn [option_map]. rewrite find_none_lookup; [reflexivity|].
        intros j y Hy. destruct (hasKey key y) eqn:Hf; [|reflexivity].
        pose proof (Hold j y Hy Hf) as Hj'. rewrite <- E, Hs in Hj'. discriminate.
      * rewrite IH. now destruct (option_map sanitizeEntry (find (hasKey key) (rev processed))).
Qed.

Lemma FindAPIKeyPolicy_sanitized policies apiKey :
  FindAPIKeyPolicy (SanitizeAPIKeyPolicies policies) apiKey
  = option_map sanitizeEntry (FindAPIKeyPolicy (rev policies) apiKey).
Proof.
  unfold FindAPIKeyPolicy.
  destruct (String.eqb_spec (TrimSpace apiKey) "") as [|Hk]; [reflexivity|].
  rewrite Sanitize_fold. now apply find_fold.
Qed.

(** X11.  Looking a client key up in the sanitised policies gives the
    sanitised form of the last entry that the configuration holds for that
    key, keys being compared without their surrounding white space; it gives
    nothing exactly when the configuration has no entry for the key or the
    key is blank.  The policy found carries the trimmed key. *)
Theorem FindAPIKeyPolicy_after_Sanitize (policies : list APIKeyPolicy) (apiKey : string) :
  FindAPIKeyPolicy (SanitizeAPIKeyPolicies policies) apiKey
  = option_map sanitizeEntry (FindAPIKeyPolicy (rev policies) apiKey)
  /\ (FindAPIKeyPolicy (SanitizeAPIKeyPolicies policies) apiKey = None
      <-> TrimSpace apiKey = ""
          \/ forall p, In p policies -> TrimSpace (APIKey p) <> TrimSpace apiKey)
  /\ (forall p, FindAPIKeyPolicy (SanitizeAPIKeyPolicies policies) apiKey = Some p ->
        APIKey p = TrimSpace apiKey).
Proof.
  rewrite FindAPIKeyPolicy_sanitized. split; [reflexivity|].
  unfold FindAPIKeyPolicy.
  destruct (String.eqb_spec (TrimSpace apiKey) "") as [Hk|Hk].
  { split; [split; [now left|reflexivity]|discriminate]. }
  destruct (find _ (rev policies)) as [x|] eqn:Hf; cbn [option_map].
  - apply find_some in Hf as [Hin Hx]. apply String.eqb_eq in Hx. split.
    + split; [discriminate|]. intros [H|H]; [contradiction|].
      exfalso. apply (H x); [now apply in_rev|exact Hx].
    + intros p [= <-]. exact Hx.
  - split; [|discriminate]. split; [|reflexivity]. intros _. right. intros p Hp.
    apply in_rev in Hp. apply (find_none _ _ Hf) in Hp. now apply String.eqb_neq in Hp.
Qed.

End Lookup.

End ConfigExtra.

(** ** The policy middleware *)

Module MiddlewareExtra.
Import GoStrings StringsSpec GoStringsFacts Policy PolicyFacts PolicyExtra LimiterSpec QuotaSpec
  LimiterExtra Billing LedgerSpec BillingExtra Config Middleware GateSpec.

Lemma positiveLimit_Some limits key v :
  positiveLimit limits key = Some v <-> limits !! key = Some v /\ (0 < v)%Z.
Proof.
  unfold positiveLimit. destruct (limits !! key) as [w|]; [|split; [discriminate|now intros [? _]]].
  destruct (Z.ltb_spec 0 w).
  - split; [intros [= <-]; auto|now intros [[= <-] _]].
  - split; [discriminate|]. intros [[= <-] ?]. lia.
Qed.

Lemma positiveLimit_None limits key :
  positiveLimit limits key = None <-> ~ exists v, limits !! key = Some v /\ (0 < v)%Z.
Proof.
  split.
  - intros H (v & Hv). apply positiveLimit_Some in Hv. congruence.
  - intros H. destruct (positiveLimit limits key) as [v|] eqn:E; [|reflexivity].
    exfalso. apply H. exists v. now apply positiveLimit_Some.
Qed.

Lemma resolveDailyLimit_hit p modelKey limit limitKey :
  resolveDailyLimit p modelKey = (limit, limitKey) -> (0 < limit)%Z ->
  exists pol, p = Some pol /\ DailyLimits pol !! limitKey = Some limit.
Proof.
  unfold resolveDailyLimit. destruct p as [pol|]; [|intros [= <- <-]; lia].
  destruct (size (DailyLimits pol) =? 0)%nat; [intros [= <- <-]; lia|].
  destruct (String.eqb _ ""); [intros [= <- <-]; lia|].
  destruct (positiveLimit (DailyLimits pol) (ToLower (TrimSpace modelKey))) as [v|] eqn:E1.
  { intros [= <- <-] _. apply positiveLimit_Some in E1 as [E1 _]. eauto. }
  destruct (HasSuffix _ "-thinking"); [|intros [= <- <-]; lia].
  destruct (positiveLimit (DailyLimits pol) (TrimSuffix _ _)) as [v|] eqn:E2;
    [|intros [= <- <-]; lia].
  intros [= <- <-] _. apply positiveLimit_Some in E2 as [E2 _]. eauto.
Qed.

(** X12.  The daily limit of a model key is the positive limit written under
    the key itself, trimmed and in lower case; failing that, for a key that
    ends in "-thinking", the positive limit written under the key without
    that ending; failing that, there is none and the answer is [(0, "")].  A
    limit that is answered is the one the policy holds under the key that is
    answered with it. *)
Theorem resolveDailyLimit_spec (p : option APIKeyPolicy) (modelKey : string) :
  let key := ToLower (TrimSpace modelKey) in
  let limits := match p with Some pol => DailyLimits pol | None => ∅ end in
  let positive k := exists v, limits !! k = Some v /\ (0 < v)%Z in
  let '(limit, limitKey) := resolveDailyLimit p modelKey in
  ((0 < limit)%Z ->
     limits !! limitKey = Some limit
     /\ (limitKey = key \/ (key = limitKey ++ "-thinking" /\ ~ positive key)))
  /\ ((limit <= 0)%Z ->
      limit = 0%Z /\ limitKey = ""
      /\ (key = ""
          \/ (~ positive key /\ forall base, key = base ++ "-thinking" -> ~ positive base)))
  /\ (key <> "" -> positive key -> limits !! key = Some limit /\ limitKey = key).
Proof.
  intros key limits positive.
  assert (Hnone : limits = ∅ ->
            ((0 < 0)%Z -> limits !! "" = Some 0%Z
               /\ ("" = key \/ (key = "" ++ "-thinking" /\ ~ positive key)))
            /\ ((0 <= 0)%Z -> 0%Z = 0%Z /\ "" = ""
                /\ (key = "" \/ (~ positive key
                                 /\ forall base, key = base ++ "-thinking" -> ~ positive base)))
            /\ (key <> "" -> positive key -> limits !! key = Some 0%Z /\ "" = key)).
  { intros E. assert (Hno : forall k, ~ positive k).
    { intros k (v & Hv & _). rewrite E, lookup_empty in Hv. discriminate. }
    split; [lia|]. split.
    - intros _. split; [reflexivity|]. split; [reflexivity|]. right. split; [apply Hno|].
      intros base _. apply Hno.
    - intros _ Hp. now apply Hno in Hp. }
  unfold resolveDailyLimit. destruct p as [pol|]; [|now apply Hnone].
  destruct (Nat.eqb_spec (size (DailyLimits pol)) 0) as [Hz|_].
  { apply Hnone. now apply map_size_empty_iff. }
  clear Hnone. fold key. subst limits.
  destruct (String.eqb_spec key "") as [Ek|Hk].
  { split; [lia|]. split; [now intros _; repeat split; left|]. now intros H. }
  destruct (positiveLimit (DailyLimits pol) key) as [v|] eqn:E1.
  { apply positiveLimit_Some in E1 as [E1 Hv]. split; [now intros _; split; [|left]|].
    split; [lia|]. intros _ _. now split. }
  apply positiveLimit_None in E1. fold (positive key) in E1.
  destruct (HasSuffix key "-thinking") eqn:Hs.
  - apply HasSuffix_spec in Hs as [base0 Hb].
    assert (Hts : TrimSuffix key "-thinking" = base0) by (rewrite Hb; apply TrimSuffix_app).
    rewrite Hts.
    destruct (positiveLimit (DailyLimits pol) base0) as [v|] eqn:E2.
    + apply positiveLimit_Some in E2 as [E2 Hv]. split.
      * intros _. split; [exact E2|]. right. now split.
      * split; [lia|]. intros _ Hp. now apply E1 in Hp.
    + apply positiveLimit_None in E2. split; [lia|]. split.
      * intros _. split; [reflexivity|]. split; [reflexivity|]. right. split; [exact E1|].
        intros base Hbase. rewrite Hb in Hbase. apply append_inv_tail in Hbase. now subst base.
      * intros _ Hp. now apply E1 in Hp.
  - split; [lia|]. split.
    + intros _. split; [reflexivity|]. split; [reflexivity|]. right. split; [exact E1|].
      intros base Hbase.
      assert (HasSuffix key "-thinking" = true) by (apply HasSuffix_spec; eauto). congruence.
    + intros _ Hp. now apply E1 in Hp.
Qed.

Section Gate.

Variable json_Valid : string -> bool.
Variable http_StatusText : Z -> string.
Variable json_Marshal : Handlers.ErrorDetail -> option Handlers.bytes.
Variable sprintfFallback : string -> Handlers.bytes.
Variable gjson_GetString : Handlers.bytes -> string -> string.
Variable sjson_SetBytes : Handlers.bytes -> string -> string -> option Handlers.bytes.
Variable DayKeyChina : Z -> string.
Variable budgetMicroUSD : float64 -> Z.

Abbreviation middleware :=
  (APIKeyPolicyMiddleware json_Valid http_StatusText json_Marshal sprintfFallback
     gjson_GetString sjson_SetBytes DayKeyChina budgetMicroUSD).
Abbreviation checkLimit :=
  (Middleware.checkLimit json_Valid http_StatusText json_Marshal sprintfFallback DayKeyChina).
Abbreviation checkBudget :=
  (Middleware.checkBudget json_Valid http_StatusText json_Marshal sprintfFallback DayKeyChina
     budgetMicroUSD).
Abbreviation abortWith :=
  (Middleware.abortWith json_Valid http_StatusText json_Marshal sprintfFallback).

Lemma checkBudget_abort policyEntry costReader now apiKey out :
  checkBudget policyEntry costReader now apiKey = Some out ->
  exists status body, out = Abort status body.
Proof.
  unfold Middleware.checkBudget, Middleware.abortWith.
  destruct policyEntry as [pol|]; [|discriminate].
  destruct (negb _); [discriminate|].
  destruct costReader as [reader|]; [|intros [= <-]; eauto].
  destruct (reader apiKey (DayKeyChina now)) as [spent [e|]]; [intros [= <-]; eauto|].
  destruct (_ && _); [intros [= <-]; eauto|discriminate].
Qed.

(** The limit step: it aborts without touching the table, or lets the
    request through after at most one admission. *)
Lemma checkLimit_effect policyEntry limiter fault now nowUnix apiKey effectiveModel :
  let '(out, limiter') :=
    checkLimit policyEntry limiter fault now nowUnix apiKey effectiveModel in
  (out <> None -> table limiter' = table limiter)
  /\ out <> Some Return
  /\ (table limiter' <> table limiter ->
        exists pol t limitKey n,
          policyEntry = Some pol
          /\ table limiter = Some t
          /\ DailyLimits pol !! limitKey = Some n
          /\ let k := rowKey apiKey limitKey (DayKeyChina now) in
             table limiter'
             = Some (<[k := {| count := countOf t k + 1; updated_at := nowUnix |}]> t)
             /\ (countOf t k + 1 <= n)%Z).
Proof.
  unfold Middleware.checkLimit.
  destruct policyEntry as [pol|]; [|split; [congruence|split; congruence]].
  destruct (negb _); [split; [congruence|split; congruence]|].
  destruct (resolveDailyLimit (Some pol) (NormaliseModelKey effectiveModel))
    as [limit limitKey] eqn:Hres.
  destruct (Z.ltb_spec 0 limit) as [Hl|Hl]; cbn [negb]; [|split; [congruence|split; congruence]].
  destruct limiter as [lim|];
    [|split; [congruence|split; [unfold Middleware.abortWith; congruence|congruence]]].
  pose proof (Consume_refused_table (Some lim) fault nowUnix apiKey limitKey
                (DayKeyChina now) limit) as Href.
  pose proof (Consume_error_refuses (Some lim) fault nowUnix apiKey limitKey
                (DayKeyChina now) limit) as Herr.
  pose proof (Consume_admitted (Some lim) fault nowUnix apiKey limitKey
                (DayKeyChina now) limit) as Hadm.
  destruct (Consume (Some lim) fault nowUnix apiKey limitKey (DayKeyChina now) limit)
    as [[[c allowed] err] limiter'].
  cbn [fst snd] in *.
  destruct err as [e|].
  - rewrite Href by (apply Herr; discriminate).
    split; [reflexivity|split; [unfold Middleware.abortWith; congruence|congruence]].
  - destruct allowed; cbn [negb].
    + split; [congruence|]. split; [congruence|]. intros _.
      destruct (Hadm eq_refl) as (t & Ht & Ht' & Hle).
      destruct (resolveDailyLimit_hit _ _ _ _ Hres Hl) as (pol' & [= <-] & Hlim).
      exists pol, t, limitKey, limit. auto.
    + rewrite Href by reflexivity.
      split; [reflexivity|split; [unfold Middleware.abortWith; congruence|congruence]].
Qed.

(** X13.  The middleware spends quota only on requests it lets through.
    A request that is aborted, whatever the status, and a request without a
    context leave the limiter's table as it was.  When the table changes, the
    request has been passed on with its body, under a policy, and the change
    is one admission: the count of the row of the client's key, of a model
    key that has a limit in the policy, and of the day, goes up by one and
    stays within that limit. *)
Theorem APIKeyPolicyMiddleware_quota
    (getConfig : option (unit -> option (list APIKeyPolicy)))
    (limiter : option SQLiteDailyLimiter)
    (costReader : option (string -> string -> Z * option string))
    (fault : option string) (tBudget tLimit tConsume : Z) (c : option GinContext) :
  let '(out, limiter') :=
    middleware getConfig limiter costReader fault tBudget tLimit tConsume c in
  (forall status body, out = Abort status body -> table limiter' = table limiter)
  /\ (out = Return -> limiter' = limiter)
  /\ (table limiter' <> table limiter ->
        exists ctx pol body t limitKey n,
          c = Some ctx
          /\ out = Next (Some pol) (Some body)
          /\ table limiter = Some t
          /\ DailyLimits pol !! limitKey = Some n
          /\ let k := rowKey (ctxAPIKey ctx) limitKey (DayKeyChina tLimit) in
             table limiter'
             = Some (<[k := {| count := countOf t k + 1; updated_at := tConsume |}]> t)
             /\ (countOf t k + 1 <= n)%Z).
Proof.
  unfold Middleware.APIKeyPolicyMiddleware.
  destruct c as [ctx|]; [|repeat split; congruence].
  destruct (match getConfig with Some f => f tt | None => None end) as [policies|];
    [|repeat split; congruence].
  destruct (String.eqb (TrimSpace (ctxAPIKey ctx)) ""); [repeat split; congruence|].
  set (policyEntry := match FindAPIKeyPolicy policies (TrimSpace (ctxAPIKey ctx)) with
                      | Some p => Some p
                      | None => ctxPolicyValue ctx
                      end).
  destruct (_ || _ || _); [repeat split; congruence|].
  destruct (checkBudget policyEntry costReader tBudget (TrimSpace (ctxAPIKey ctx)))
    as [o|] eqn:Hbud;
    [apply checkBudget_abort in Hbud as (st & b & ->); repeat split; congruence|].
  destruct (Body ctx) as [bodyBytes|]; [|repeat split; congruence].
  destruct (String.eqb (TrimSpace (gjson_GetString bodyBytes "model")) "");
    [repeat split; congruence|].
  set (effectiveModel := effectiveModelOf policyEntry _).
  destruct (denied policyEntry effectiveModel); [repeat split; congruence|].
  pose proof (checkLimit_effect policyEntry limiter fault tLimit tConsume
                (TrimSpace (ctxAPIKey ctx)) effectiveModel) as H.
  destruct (checkLimit policyEntry limiter fault tLimit tConsume
              (TrimSpace (ctxAPIKey ctx)) effectiveModel) as [[out|] limiter'].
  - destruct H as (H & Hr & _). rewrite H by discriminate.
    split; [reflexivity|]. split; [congruence|]. intros Hne. now contradiction Hne.
  - destruct H as (_ & _ & H). split; [discriminate|]. split; [discriminate|].
    intros Hne. destruct (H Hne) as (pol & t & limitKey & n & Hp & Ht & Hn & Ht' & Hle).
    exists ctx, pol. eexists. exists t, limitKey, n.
    split; [reflexivity|]. split; [now rewrite Hp|]. split; [exact Ht|]. split; [exact Hn|].
    cbv zeta. unfold rowKey in *. rewrite TrimSpace_idem in Ht', Hle. auto.
Qed.


(** X15.  A policy that forbids claude-opus-4-6 keeps that model from the
    handlers.  Provided that reading the model back from a body that
    [sjson.SetBytes] has patched gives the value written, a request that the
    middleware passes on under such a policy carries a body whose model is
    not a claude-opus-4-6 name, unless patching the body failed, in which
    case the body is passed on as it came. *)
Theorem APIKeyPolicyMiddleware_downgrades
    (getConfig : option (unit -> option (list APIKeyPolicy)))
    (limiter : option SQLiteDailyLimiter)
    (costReader : option (string -> string -> Z * option string))
    (fault : option string) (tBudget tLimit tConsume : Z) (ctx : GinContext)
    (pol : APIKeyPolicy) (body : Handlers.bytes) :
  (forall b v b', sjson_SetBytes b "model" v = Some b' -> gjson_GetString b' "model" = v) ->
  AllowsClaudeOpus46 (Some pol) = false ->
  fst (middleware getConfig limiter costReader fault tBudget tLimit tConsume (Some ctx))
  = Next (Some pol) (Some body) ->
  IsClaudeOpus46 (gjson_GetString body "model") = false
  \/ (Body ctx = Some body
      /\ exists effective, sjson_SetBytes body "model" effective = None).
Proof.
  intros Hlaw Hallow. unfold Middleware.APIKeyPolicyMiddleware.
  destruct (match getConfig with Some f => f tt | None => None end) as [policies|];
    [|discriminate].
  destruct (String.eqb (TrimSpace (ctxAPIKey ctx)) ""); [discriminate|].
  set (policyEntry := match FindAPIKeyPolicy policies (TrimSpace (ctxAPIKey ctx)) with
                      | Some p => Some p
                      | None => ctxPolicyValue ctx
                      end).
  destruct (_ || _ || _); [discriminate|].
  destruct (checkBudget policyEntry costReader tBudget (TrimSpace (ctxAPIKey ctx)))
    as [o|] eqn:Hbud;
    [apply checkBudget_abort in Hbud as (st & b & ->); discriminate|].
  destruct (Body ctx) as [bodyBytes|]; [|discriminate].
  set (model := TrimSpace (gjson_GetString bodyBytes "model")).
  assert (Hmodel : IsClaudeOpus46 (gjson_GetString bodyBytes "model") = IsClaudeOpus46 model)
    by (symmetry; apply IsClaudeOpus46_TrimSpace).
  destruct (String.eqb_spec model "") as [Em|_].
  { cbn [fst]. intros [= _ <-]. left. rewrite Hmodel, Em. reflexivity. }
  destruct (denied policyEntry (effectiveModelOf policyEntry model)).
  { unfold Middleware.abortWith. discriminate. }
  destruct (checkLimit policyEntry limiter fault tLimit tConsume
              (TrimSpace (ctxAPIKey ctx)) (effectiveModelOf policyEntry model))
    as [[out|] limiter'] eqn:Hcl.
  { cbn [fst]. intros ->. unfold Middleware.checkLimit in Hcl.
    destruct policyEntry as [pe|]; [|discriminate].
    destruct (negb _); [discriminate|].
    destruct (resolveDailyLimit _ _) as [limit limitKey].
    destruct (negb _); [discriminate|].
    destruct limiter; [|discriminate].
    destruct (Consume _ _ _ _ _ _ _) as [[[c0 allowed] [e|]] l'']; [discriminate|].
    destruct (negb allowed); discriminate. }
  cbn [fst]. intros [= Hp Hb]. rewrite Hp in *.
  unfold effectiveModelOf in Hb. rewrite Hallow in Hb. cbn [negb] in Hb.
  pose proof (DowngradeClaudeOpus46_flag model) as Hflag.
  pose proof (DowngradeClaudeOpus46_not_opus46 model) as Hnot.
  destruct (DowngradeClaudeOpus46 model) as [rewritten changed]. cbn [fst snd] in *.
  destruct changed.
  - destruct (String.eqb_spec rewritten model) as [E|_]; cbn [negb] in Hb.
    + subst body. left. rewrite Hmodel, <- E. exact Hnot.
    + destruct (sjson_SetBytes bodyBytes "model" rewritten) as [modified|] eqn:Hset.
      * subst body. left. rewrite (Hlaw _ _ _ Hset). exact Hnot.
      * subst body. right. split; [reflexivity|eauto].
  - rewrite String.eqb_refl in Hb. cbn [negb] in Hb. subst body. left.
    rewrite Hmodel. now rewrite <- Hflag.
Qed.

End Gate.


Lemma APIKeyPolicyMiddleware_downgrades_witness :
  IsClaudeOpus46 (plainGet "claude-opus-4-5-20251101-thinking(high)" "model") = false
  \/ (Some "claude-opus-4-6-thinking(high)" = Some "claude-opus-4-5-20251101-thinking(high)"
      /\ exists effective,
           plainSet "claude-opus-4-5-20251101-thinking(high)" "model" effective = None).
Proof.
  exact (APIKeyPolicyMiddleware_downgrades (fun _ => false) (fun _ => "") plainMarshal
           (fun s => s) plainGet plainSet oneDay wholeDollars
           (Some (fun _ => Some [gatePolicy])) (open ∅) (Some (fun _ _ => (0%Z, None))) None
           0 0 0
           {| Method := "POST"; ctxAPIKey := " k "; ctxPolicyValue := None;
              Body := Some "claude-opus-4-6-thinking(high)" |}
           gatePolicy "claude-opus-4-5-20251101-thinking(high)"
           ltac:(intros b v b' [= <-]; reflexivity) eq_refl ltac:(vm_compute; reflexivity)).
Defined.

End MiddlewareExtra.

(** ** Request handling *)

Module HandlersExtra.
Import GoStrings StringsSpec GoStringsFacts Handlers EligibilitySpec StreamSpec CallSpec.

#[local] Arguments String.append !_ _ / : simpl nomatch.

Section Messages.

Variable json_Valid : string -> bool.
Variable json_Unmarshal : string -> option errorEnvelope.

Abbreviation extractErrorMessage := (Handlers.extractErrorMessage json_Valid json_Unmarshal).
Abbreviation isClaudeFailoverEligible :=
  (Handlers.isClaudeFailoverEligible json_Valid json_Unmarshal).

(** X16.  The message extracted from an error text is blank exactly when the
    text is blank; it never has surrounding white space; and for a text that
    is not JSON it is the trimmed text itself. *)
Theorem extractErrorMessage_shape (raw : string) :
  (extractErrorMessage raw = "" <-> TrimSpace raw = "")
  /\ TrimSpace (extractErrorMessage raw) = extractErrorMessage raw
  /\ (json_Valid (TrimSpace raw) = false -> extractErrorMessage raw = TrimSpace raw).
Proof.
  unfold Handlers.extractErrorMessage.
  destruct (String.eqb_spec (TrimSpace raw) "") as [E|E].
  { split; [tauto|]. split; [reflexivity|]. now rewrite E. }
  destruct (json_Valid (TrimSpace raw)); cbn [negb].
  2:{ split; [tauto|]. split; [apply TrimSpace_idem|reflexivity]. }
  destruct (json_Unmarshal (TrimSpace raw)) as [env|].
  2:{ split; [tauto|]. split; [apply TrimSpace_idem|discriminate]. }
  destruct (String.eqb_spec (TrimSpace (envErrorMessage env)) "") as [E1|E1]; cbn [negb].
  2:{ split; [tauto|]. split; [apply TrimSpace_idem|discriminate]. }
  destruct (String.eqb_spec (TrimSpace (envMessage env)) "") as [E2|E2]; cbn [negb].
  - split; [tauto|]. split; [apply TrimSpace_idem|discriminate].
  - split; [tauto|]. split; [apply TrimSpace_idem|discriminate].
Qed.

Lemma TrimRight_keep a c y :
  is_space c = false -> TrimRight (a ++ String c y) = a ++ String c (TrimRight y).
Proof.
  intros Hc. induction a as [|b a IH].
  - cbn [String.append TrimRight]. rewrite Hc. now destruct (TrimRight y).
  - change (String b a ++ String c y) with (String b (a ++ String c y)).
    cbn [TrimRight]. rewrite IH.
    destruct a; reflexivity.
Qed.

Lemma unknown_provider_text name :
  exists z, TrimSpace ("unknown provider for model " ++ name)
            = "unknown provider for model" ++ z.
Proof.
  unfold TrimSpace.
  change (TrimLeft ("unknown provider for model " ++ name))
    with ("unknown provider for mode" ++ String "l" (" " ++ name)).
  rewrite TrimRight_keep by reflexivity. eexists. reflexivity.
Qed.

(** The error of an unknown provider is one that failover accepts. *)
Lemma unknown_provider_eligible name :
  json_Valid (TrimSpace ("unknown provider for model " ++ name)) = false ->
  isClaudeFailoverEligible StatusBadGateway
    (Some (plainError ("unknown provider for model " ++ name))) = true.
Proof.
  intros Hj. unfold Handlers.isClaudeFailoverEligible.
  unfold StatusTooManyRequests, StatusUnauthorized, StatusPaymentRequired, StatusForbidden,
    StatusInternalServerError, StatusBadGateway, StatusBadRequest.
  cbn [Z.eqb Pos.eqb orb errString plainError errText].
  unfold Handlers.extractErrorMessage. rewrite TrimSpace_idem, Hj.
  destruct (unknown_provider_text name) as [z ->].
  cbn [String.append String.eqb Ascii.eqb Bool.eqb negb ToLower].
  reflexivity.
Qed.

End Messages.

Section Resolve.

Variable json_Valid : string -> bool.
Variable json_Unmarshal : string -> option errorEnvelope.
Variable gjson_Exists : bytes -> string -> bool.
Variable sjson_SetBytes : bytes -> string -> string -> option bytes.
Variable ResolveAutoModel : string -> string.
Variable GetProviderName : string -> list string.

Abbreviation getRequestDetails := (Handlers.getRequestDetails ResolveAutoModel GetProviderName).
Abbreviation seemsClaudeModel := (Handlers.seemsClaudeModel ResolveAutoModel).
Abbreviation resolveRequest :=
  (Handlers.resolveRequest json_Valid json_Unmarshal gjson_Exists sjson_SetBytes
     ResolveAutoModel GetProviderName).

Lemma length_zero {A} (l : list A) : (length l =? 0)%nat = true -> l = [].
Proof. now destruct l. Qed.

Lemma heuristic_claude lower :
  heuristicProviders lower = [] -> HasPrefix lower "claude-" = false.
Proof. unfold heuristicProviders. now destruct (HasPrefix lower "claude-"). Qed.

Lemma getRequestDetails_cases modelName :
  (exists providers model,
     getRequestDetails modelName = (providers, model, None) /\ providers <> [])
  \/ (getRequestDetails modelName = ([], "", Some (unknownProvider modelName))
      /\ (Thinking.ModelName (Thinking.ParseSuffix modelName) <> "auto" ->
          seemsClaudeModel modelName = false)).
Proof.
  unfold Handlers.getRequestDetails, Handlers.seemsClaudeModel.
  set (resolved := if String.eqb (Thinking.ModelName (Thinking.ParseSuffix modelName)) "auto"
                   then _ else _).
  set (baseModel := TrimSpace (Thinking.ModelName (Thinking.ParseSuffix resolved))).
  set (p1 := if (length (GetProviderName baseModel) =? 0)%nat
                && negb (String.eqb baseModel resolved)
             then GetProviderName resolved else GetProviderName baseModel).
  destruct (length p1 =? 0)%nat eqn:H1; cbv iota.
  - destruct (length (heuristicProviders (ToLower (TrimSpace baseModel))) =? 0)%nat eqn:H2.
    + right. split; [reflexivity|]. intros Hauto.
      apply length_zero, heuristic_claude in H2.
      apply String.eqb_neq in Hauto.
      unfold baseModel in H2. rewrite TrimSpace_idem in H2.
      unfold resolved in H2. rewrite Hauto in H2. exact H2.
    + left. do 2 eexists. split; [reflexivity|].
      intros E. rewrite E in H2. discriminate.
  - rewrite H1. left. do 2 eexists. split; [reflexivity|].
    intros E. rewrite E in H1. discriminate.
Qed.

(** X17.  [getRequestDetails] either names at least one provider, or fails
    with the one error it has: status 502 and "unknown provider for model"
    followed by the name as it was asked for, with no provider and no model.
    That error is one that the failover test accepts, as long as its text is
    not taken for JSON. *)
Theorem getRequestDetails_spec (modelName : string) :
  match getRequestDetails modelName with
  | (providers, model, None) => providers <> []
  | (providers, model, Some e) =>
      providers = [] /\ model = ""
      /\ e = {| StatusCode := 502;
                Error := Some (plainError ("unknown provider for model " ++ modelName));
                Addon := None |}
      /\ (json_Valid (TrimSpace ("unknown provider for model " ++ modelName)) = false ->
          Handlers.isClaudeFailoverEligible json_Valid json_Unmarshal
            (StatusCode e) (Error e) = true)
  end.
Proof.
  destruct (getRequestDetails_cases modelName) as [(providers & model & -> & Hp)|[-> _]];
    [exact Hp|].
  repeat split. intros Hj. now apply unknown_provider_eligible.
Qed.

Lemma resolveRequest_plain ctx modelName rawJSON :
  Thinking.ModelName (Thinking.ParseSuffix modelName) <> "auto" ->
  resolveRequest ctx modelName rawJSON
  = match getRequestDetails modelName with
    | (providers, normalizedModel, None) => inl (rawJSON, providers, normalizedModel)
    | (_, _, Some errMsg) => inr errMsg
    end.
Proof.
  intros Hauto. unfold Handlers.resolveRequest.
  destruct (getRequestDetails_cases modelName) as [(providers & model & -> & Hp)|[-> Hs]];
    [reflexivity|].
  destruct (apiKeyPolicyFromContext ctx) as [policy|]; [|reflexivity].
  destruct (Config.ClaudeFailoverTargetModel (Some policy)) as [targetModel enabled].
  rewrite (Hs Hauto), andb_false_r. reflexivity.
Qed.

(** X18.  Failover before the first call is for the model "auto" alone.  For
    every other model name, with or without a thinking suffix, a request
    whose providers cannot be resolved is answered with the error of
    [getRequestDetails] whatever the client's policy says: a name that looks
    like a Claude model always resolves, to the provider "claude", so the
    branch that rewrites the request is never taken. *)
Theorem resolveRequest_failover_only_for_auto (ctx : option Context)
    (modelName : string) (rawJSON : bytes) :
  Thinking.ModelName (Thinking.ParseSuffix modelName) <> "auto" ->
  resolveRequest ctx modelName rawJSON
  = match getRequestDetails modelName with
    | (providers, normalizedModel, None) => inl (rawJSON, providers, normalizedModel)
    | (_, _, Some errMsg) => inr errMsg
    end
  /\ (seemsClaudeModel modelName = true ->
      exists providers normalizedModel,
        resolveRequest ctx modelName rawJSON = inl (rawJSON, providers, normalizedModel)
        /\ providers <> []).
Proof.
  intros Hauto. split; [now apply resolveRequest_plain|].
  intros Hs. rewrite resolveRequest_plain by exact Hauto.
  destruct (getRequestDetails_cases modelName) as [(providers & model & -> & Hp)|[_ Hn]].
  - eauto.
  - rewrite (Hn Hauto) in Hs. discriminate.
Qed.

End Resolve.

Lemma resolveRequest_failover_only_for_auto_witness :
  Handlers.resolveRequest notJSON noEnvelope (fun _ _ => true) Scenario.testSetBytes
    (fun model => model) (fun _ => []) Scenario.testContext "mystery-model(high)"
    Scenario.clientRequest
  = inr {| StatusCode := 502;
           Error := Some (plainError "unknown provider for model mystery-model(high)");
           Addon := None |}.
Proof.
  exact (proj1 (resolveRequest_failover_only_for_auto notJSON noEnvelope (fun _ _ => true)
                  Scenario.testSetBytes (fun model => model) (fun _ => [])
                  Scenario.testContext "mystery-model(high)" Scenario.clientRequest
                  ltac:(vm_compute; discriminate))).
Defined.

Lemma errorMessageOf_positive err :
  (0 < StatusCode (errorMessageOf err))%Z /\ Error (errorMessageOf err) = Some err.
Proof.
  unfold errorMessageOf. cbn [StatusCode Error]. split; [|reflexivity].
  destruct (errStatus err) as [code|]; [|reflexivity].
  destruct (Z.gtb_spec code 0); [lia|reflexivity].
Qed.

Lemma ClaudeFailoverTargetModel_enabled policy target :
  Config.ClaudeFailoverTargetModel (Some policy) = (target, true) ->
  Config.Enabled (Config.Claude (Config.Failover policy)) = true.
Proof.
  unfold Config.ClaudeFailoverTargetModel.
  destruct (Config.Enabled _); [reflexivity|discriminate].
Qed.

Section Calls.

Variable json_Valid : string -> bool.
Variable json_Unmarshal : string -> option errorEnvelope.
Variable gjson_Exists : bytes -> string -> bool.
Variable sjson_SetBytes : bytes -> string -> string -> option bytes.
Variable ResolveAutoModel : string -> string.
Variable GetProviderName : string -> list string.
Variable newUUID : string.
Variable RequestedModelMetadataKey : string.
Variable M : Type.

Abbreviation Execute' :=
  (ExecuteWithAuthManager json_Valid json_Unmarshal gjson_Exists sjson_SetBytes
     ResolveAutoModel GetProviderName newUUID RequestedModelMetadataKey M).
Abbreviation ExecuteCount' :=
  (ExecuteCountWithAuthManager json_Valid json_Unmarshal gjson_Exists sjson_SetBytes
     ResolveAutoModel GetProviderName newUUID RequestedModelMetadataKey M).
Abbreviation resolveRequest' :=
  (Handlers.resolveRequest json_Valid json_Unmarshal gjson_Exists sjson_SetBytes
     ResolveAutoModel GetProviderName).
Abbreviation eligible := (Handlers.isClaudeFailoverEligible json_Valid json_Unmarshal).

Lemma resolveRequest_error ctx modelName rawJSON e :
  resolveRequest' ctx modelName rawJSON = inr e -> exists name, e = unknownProvider name.
Proof.
  unfold Handlers.resolveRequest.
  destruct (getRequestDetails_cases ResolveAutoModel GetProviderName modelName)
    as [(providers & model & -> & _)|[-> _]]; [discriminate|].
  destruct (apiKeyPolicyFromContext ctx) as [policy|]; [|intros [= <-]; eauto].
  destruct (Config.ClaudeFailoverTargetModel (Some policy)) as [targetModel enabled].
  destruct (_ && _ && _ && _ && _); [|intros [= <-]; eauto].
  destruct (getRequestDetails_cases ResolveAutoModel GetProviderName targetModel)
    as [(providers & model & -> & _)|[-> _]]; [discriminate|intros [= <-]; eauto].
Qed.

Abbreviation callsOK := (CallSpec.callsOK json_Valid json_Unmarshal M).

Ltac calls_tac :=
  repeat match goal with |- _ /\ _ => split end;
  try reflexivity; try lia; try discriminate;
  try (let H := fresh in intros H; discriminate H).

(** X19.  A request on the non-streaming path, and a token-count request
    alike, calls the credential manager at most twice.  What is returned is
    what ends the trace; a body is returned only after a call, and an error
    that is returned has a positive status and an error value.  Without a
    call the manager is left as it was.  Two calls are made only for a client
    whose policy enables Claude failover, after a first call that went to
    providers with "claude" among them and failed with an error that the
    failover test accepts. *)
Theorem ExecuteWithAuthManager_calls
    (AuthManager_Execute AuthManager_ExecuteCount :
       M -> list string -> Request -> Options -> (Response + GoError) * M)
    (ctx : option Context) (m : M) (handlerType modelName : string) (rawJSON : bytes)
    (alt : string) :
  callsOK AuthManager_Execute ctx m
    (Execute' AuthManager_Execute ctx m handlerType modelName rawJSON alt)
  /\ callsOK AuthManager_ExecuteCount ctx m
       (ExecuteCount' AuthManager_ExecuteCount ctx m handlerType modelName rawJSON alt).
Proof.
  assert (Hcalls : forall exec,
            callsOK exec ctx m (Execute' exec ctx m handlerType modelName rawJSON alt)).
  { intros exec.
    unfold CallSpec.callsOK, ExecuteWithAuthManager.
    destruct (resolveRequest' ctx modelName rawJSON) as [[[raw providers] model]|errMsg] eqn:Hres.
    2:{ apply resolveRequest_error in Hres as [name ->]. cbn. calls_tac. }
    unfold execOnce.
    set (req := {| Model := model; Payload := raw |}).
    set (opts := {| Stream := false; Alt := alt; OriginalRequest := raw;
                    SourceFormat := handlerType; Metadata := _ |}).
    destruct (exec m providers req opts) as [[resp|err] m1] eqn:He.
    { cbn. calls_tac. }
    destruct (errorMessageOf_positive err) as [Hpos Herr].
    assert (Hone : outcomeOf [EvExec providers req opts; EvErr (errorMessageOf err)]
                   = Some (inr (errorMessageOf err))
                   /\ (execCount [EvExec providers req opts; EvErr (errorMessageOf err)] <= 2)%nat
                   /\ ((0 < StatusCode (errorMessageOf err))%Z
                       /\ Error (errorMessageOf err) <> None)
                   /\ (execCount [EvExec providers req opts; EvErr (errorMessageOf err)] = 0%nat
                       -> m1 = m)
                   /\ (execCount [EvExec providers req opts; EvErr (errorMessageOf err)] = 2%nat ->
                       exists policy providers0 req0 opts0 err0 m0 ev last,
                         [EvExec providers req opts; EvErr (errorMessageOf err)]
                         = [EvExec providers0 req0 opts0; ev; last]
                         /\ apiKeyPolicyFromContext ctx = Some policy
                         /\ Config.Enabled (Config.Claude (Config.Failover policy)) = true
                         /\ containsProvider providers0 "claude" = true
                         /\ exec m providers0 req0 opts0 = (inr err0, m0)
                         /\ eligible (StatusCode (errorMessageOf err0)) (Some err0) = true)).
    { split; [reflexivity|]. split; [cbn; lia|].
      split; [split; [exact Hpos|rewrite Herr; discriminate]|].
      split; cbn; intros H; discriminate H. }
    destruct (apiKeyPolicyFromContext ctx) as [policy|] eqn:Hpol; [|exact Hone].
    destruct (Config.ClaudeFailoverTargetModel (Some policy)) as [targetModel enabled] eqn:Ht.
    destruct enabled; [|exact Hone]. cbn [andb].
    destruct (containsProvider providers "claude") eqn:Hc; [|exact Hone]. cbn [andb].
    destruct (negb (String.eqb (TrimSpace targetModel) "") && negb (String.eqb targetModel model));
      [|exact Hone].
    assert (Hst : (if (StatusCode (errorMessageOf err) <=? 0)%Z
                   then statusFromError (Error (errorMessageOf err))
                   else StatusCode (errorMessageOf err)) = StatusCode (errorMessageOf err)).
    { destruct (Z.leb_spec (StatusCode (errorMessageOf err)) 0); [lia|reflexivity]. }
    rewrite Hst, Herr.
    destruct (eligible (StatusCode (errorMessageOf err)) (Some err)) eqn:Hel; [|exact Hone].
    destruct (getRequestDetails_cases ResolveAutoModel GetProviderName targetModel)
      as [(fproviders & fmodel & -> & _)|[-> _]]; [|exact Hone].
    clear Hone.
    set (freq := {| Model := fmodel; Payload := _ |}).
    set (fopts := failoverOptions _ _ _ _).
    apply ClaudeFailoverTargetModel_enabled in Ht.
    destruct (exec m1 fproviders freq fopts) as [[fresp|ferr] m2] eqn:Hf.
    - cbn. calls_tac.
      intros _. exists policy, providers, req, opts, err, m1. do 2 eexists.
      split; [reflexivity|]. auto.
    - destruct (errorMessageOf_positive ferr) as [Hfpos Hferr].
      split; [reflexivity|]. split; [cbn; lia|].
      split; [split; [exact Hfpos|rewrite Hferr; discriminate]|].
      split; [cbn; intros H; discriminate H|].
      intros _. exists policy, providers, req, opts, err, m1. do 2 eexists.
      split; [reflexivity|]. auto. }
  split; apply Hcalls.
Qed.

End Calls.

(** *** Counting the calls of a stream *)

Lemma execCount_app tr1 tr2 : execCount (tr1 ++ tr2) = (execCount tr1 + execCount tr2)%nat.
Proof. unfold execCount. now rewrite List.filter_app, length_app. Qed.

Lemma keyed_nil key : keyed key [].
Proof. intros ? ? ? []. Qed.

Lemma keyed_app key tr1 tr2 : keyed key tr1 -> keyed key tr2 -> keyed key (tr1 ++ tr2).
Proof. intros H1 H2 ps rq op [H|H]%in_app_or; eauto. Qed.

Lemma keyed_exec key providers req opts :
  Metadata opts !! "idempotency_key" = Some key -> keyed key [EvExec providers req opts].
Proof. intros H ps rq op [[= _ _ <-]|[]]. exact H. Qed.

Lemma keyed_other key ev tr : is_execb ev = false -> keyed key tr -> keyed key (ev :: tr).
Proof. intros He H ps rq op [E|Hin]; [subst ev; discriminate He|eauto]. Qed.

Section Streams.

Variable json_Valid : string -> bool.
Variable json_Unmarshal : string -> option errorEnvelope.
Variable gjson_Exists : bytes -> string -> bool.
Variable sjson_SetBytes : bytes -> string -> string -> option bytes.
Variable ResolveAutoModel : string -> string.
Variable GetProviderName : string -> list string.
Variable newUUID : string.
Variable RequestedModelMetadataKey : string.
Variable M : Type.
Variable AuthManager_ExecuteStream :
  M -> list string -> Request -> Options -> (list StreamChunk + GoError) * M.

Section Loop.

Variable ctx : option Context.
Variable rawJSON : bytes.
Variable failoverTargetModel : string.
Variable failoverEnabled : bool.
Variable maxBootstrapRetries : Z.

Abbreviation tryFailover' :=
  (tryFailover json_Valid json_Unmarshal gjson_Exists sjson_SetBytes ResolveAutoModel
     GetProviderName RequestedModelMetadataKey M AuthManager_ExecuteStream
     rawJSON failoverTargetModel failoverEnabled).
Abbreviation handleStreamErr' :=
  (handleStreamErr json_Valid json_Unmarshal gjson_Exists sjson_SetBytes ResolveAutoModel
     GetProviderName RequestedModelMetadataKey M AuthManager_ExecuteStream
     rawJSON failoverTargetModel failoverEnabled maxBootstrapRetries).
Abbreviation recvLoop' :=
  (recvLoop json_Valid json_Unmarshal gjson_Exists sjson_SetBytes ResolveAutoModel
     GetProviderName RequestedModelMetadataKey M AuthManager_ExecuteStream
     ctx rawJSON failoverTargetModel failoverEnabled maxBootstrapRetries).
Abbreviation streamLoop' :=
  (streamLoop json_Valid json_Unmarshal gjson_Exists sjson_SetBytes ResolveAutoModel
     GetProviderName RequestedModelMetadataKey M AuthManager_ExecuteStream
     ctx rawJSON failoverTargetModel failoverEnabled maxBootstrapRetries).
Abbreviation restartsLeft := (StreamSpec.restartsLeft maxBootstrapRetries).

Lemma tryFailover_count st streamErr m evs :
  match tryFailover' st streamErr m evs with
  | Restart _ st' _ _ evs' =>
      execCount evs' = (execCount evs + 1)%nat
      /\ failoverAttempted st = false /\ failoverAttempted st' = true
      /\ bootstrapRetries st' = 0%Z
  | Surface _ _ _ evs' =>
      (execCount evs' <= execCount evs + if failoverAttempted st then 0 else 1)%nat
  end.
Proof.
  unfold tryFailover.
  destruct (failoverAttempted st) eqn:Ha.
  { rewrite andb_false_r. cbn [andb]. lia. }
  destruct (_ && _ && _ && _ && _ && _); [|lia].
  destruct (Handlers.isClaudeFailoverEligible _ _ _ _); [|lia].
  destruct (Handlers.getRequestDetails _ _ _) as [[fp fm] [detailErr|]]; [lia|].
  destruct (execStream _ _ _ _ _ _) as [[cs|e] m''].
  - rewrite execCount_app. cbn. auto.
  - rewrite execCount_app. cbn. lia.
Qed.

Lemma handleStreamErr_count st streamErr m :
  match handleStreamErr' st streamErr m with
  | Restart _ st' _ _ evs => (execCount evs + restartsLeft st' <= restartsLeft st)%nat
  | Surface _ _ _ evs => (execCount evs <= restartsLeft st)%nat
  end.
Proof.
  unfold handleStreamErr.
  destruct (negb (sentPayload st) && (bootstrapRetries st <? maxBootstrapRetries)%Z
            && bootstrapEligible (Some streamErr)) eqn:Eb.
  - apply andb_true_iff in Eb as [Eb _]. apply andb_true_iff in Eb as [_ Eb].
    apply Z.ltb_lt in Eb.
    destruct (execStream _ _ _ _ _ _) as [[cs|e] m''].
    + unfold StreamSpec.restartsLeft. cbn. lia.
    + match goal with
      | |- context [tryFailover' ?s ?e0 ?m0 ?evs0] =>
          pose proof (tryFailover_count s e0 m0 evs0) as H;
          destruct (tryFailover' s e0 m0 evs0) as [st' cs' m' evs'|err m' evs']
      end.
      * destruct H as (Hc & H1 & H2 & H3). cbn in H1, Hc.
        unfold StreamSpec.restartsLeft. rewrite H1, H2, H3, Hc. lia.
      * cbn in H. unfold StreamSpec.restartsLeft.
        destruct (failoverAttempted st); lia.
  - pose proof (tryFailover_count st streamErr m []) as H.
    destruct (tryFailover' st streamErr m []) as [st' cs' m' evs'|err m' evs'].
    + destruct H as (Hc & H1 & H2 & H3). cbn in Hc.
      unfold StreamSpec.restartsLeft. rewrite H1, H2, H3, Hc. lia.
    + cbn in H. unfold StreamSpec.restartsLeft. destruct (failoverAttempted st); lia.
Qed.

Lemma recvLoop_count restart :
  (forall st chunks m tick tr mf,
     restart st chunks m tick = Some (tr, mf) -> (execCount tr <= restartsLeft st)%nat) ->
  forall chunks m st tick tr mf,
    recvLoop' restart m chunks st tick = Some (tr, mf) ->
    (execCount tr <= restartsLeft st)%nat.
Proof.
  intros Hrestart. induction chunks as [|chunk rest IH]; intros m st tick tr mf; simpl.
  { intros [= <- _]. cbn. lia. }
  destruct (done ctx tick); [intros [= <- _]; cbn; lia|].
  destruct (chunkErr chunk) as [streamErr|].
  - pose proof (handleStreamErr_count st streamErr m) as Hc.
    destruct (handleStreamErr' st streamErr m) as [st' chunks' m' evs | err m' evs].
    + destruct (restart st' chunks' m' (S tick)) as [[tr' mf']|] eqn:Er; [|discriminate].
      intros [= <- _]. apply Hrestart in Er.
      change (EvRecv chunk :: evs ++ tr')%list with ([EvRecv chunk] ++ evs ++ tr')%list.
      rewrite !execCount_app. cbn. lia.
    + intros [= <- _].
      change (EvRecv chunk :: evs ++ ?x)%list with ([EvRecv chunk] ++ evs ++ x)%list.
      rewrite !execCount_app. destruct (done ctx (S tick)); cbn; lia.
  - destruct (0 <? len (chunkPayload chunk))%nat.
    + destruct (done ctx (S tick)); [intros [= <- _]; cbn; lia|].
      destruct (recvLoop' restart m rest (payloadSent st) (S (S tick)))
        as [[tr' mf']|] eqn:Er; [|discriminate].
      intros [= <- _]. apply IH in Er. cbn in *. exact Er.
    + destruct (recvLoop' restart m rest st (S tick)) as [[tr' mf']|] eqn:Er; [|discriminate].
      intros [= <- _]. apply IH in Er. cbn in *. exact Er.
Qed.

Lemma streamLoop_count fuel : forall st chunks m tick tr mf,
  streamLoop' fuel st chunks m tick = Some (tr, mf) ->
  (execCount tr <= restartsLeft st)%nat.
Proof.
  induction fuel as [|fuel IH]; intros st chunks m tick tr mf; simpl; [discriminate|].
  apply recvLoop_count. exact IH.
Qed.

End Loop.

Abbreviation ExecuteStream' :=
  (ExecuteStreamWithAuthManager json_Valid json_Unmarshal gjson_Exists sjson_SetBytes
     ResolveAutoModel GetProviderName newUUID RequestedModelMetadataKey M
     AuthManager_ExecuteStream).

(** X21.  A streaming request comes to an end, and on its way it calls the
    credential manager at most [2 * retries + 2] times, [retries] being the
    configured number of bootstrap retries: the first call, the retries
    before a failover, the failover, and the retries after it.  With the
    default of no retries that is two calls at most. *)
Theorem ExecuteStreamWithAuthManager_bounded_calls (cfg : option SDKConfig)
    (ctx : option Context) (m : M) (handlerType modelName : string) (rawJSON : bytes)
    (alt : string) :
  exists tr mf,
    ExecuteStream' (streamFuel cfg) cfg ctx m handlerType modelName rawJSON alt = Some (tr, mf)
    /\ (execCount tr <= 2 * Z.to_nat (StreamingBootstrapRetries cfg) + 2)%nat.
Proof.
  destruct (StreamFacts.ExecuteStream_total json_Valid json_Unmarshal gjson_Exists
              sjson_SetBytes ResolveAutoModel GetProviderName newUUID
              RequestedModelMetadataKey M AuthManager_ExecuteStream
              cfg ctx m handlerType modelName rawJSON alt) as [[tr mf] Hrun].
  exists tr, mf. split; [exact Hrun|].
  revert Hrun. generalize (streamFuel cfg). intros fuel.
  unfold ExecuteStreamWithAuthManager.
  destruct (Handlers.resolveRequest _ _ _ _ _ _ _ _ _) as [[[raw ps] nm]|errMsg];
    [|intros [= <- _]; cbn; lia].
  destruct (match apiKeyPolicyFromContext ctx with
            | Some policy => Config.ClaudeFailoverTargetModel (Some policy)
            | None => ("", false)
            end) as [target enabled].
  destruct (execStream _ _ _ _ _ _) as [[chunks|execErr] m1].
  - destruct (streamLoop _ _ _ _ _ _ _ _ _ _ _ _ _ _ _ _ _ _ _) as [[tr' mf']|] eqn:El;
      [|discriminate].
    intros [= <- _]. apply streamLoop_count in El.
    unfold StreamSpec.restartsLeft in El. cbn [bootstrapRetries failoverAttempted] in El.
    unfold execCount in *. cbn [app List.filter is_execb length]. lia.
  - destruct (_ && _ && _ && _ && _); [|intros [= <- _]; cbn; lia].
    destruct (Handlers.getRequestDetails _ _ _) as [[fp fm] [detailErr|]];
      [intros [= <- _]; cbn; lia|].
    destruct (execStream _ _ _ _ _ _) as [[chunks|execErr'] m2];
      [|intros [= <- _]; cbn; lia].
    destruct (streamLoop _ _ _ _ _ _ _ _ _ _ _ _ _ _ _ _ _ _ _) as [[tr' mf']|] eqn:El;
      [|discriminate].
    intros [= <- _]. apply streamLoop_count in El.
    unfold StreamSpec.restartsLeft in El. cbn [bootstrapRetries failoverAttempted] in El.
    unfold execCount in *. cbn [app List.filter is_execb length]. lia.
Qed.


Section Keys.

Hypothesis Hkey : RequestedModelMetadataKey <> "idempotency_key".

Variable ctx : option Context.
Variable rawJSON : bytes.
Variable failoverTargetModel : string.
Variable failoverEnabled : bool.
Variable maxBootstrapRetries : Z.
Variable key : string.

Abbreviation carries := (CallSpec.carries key).

Lemma failoverOptions_carries opts payload model :
  carries opts -> carries (failoverOptions RequestedModelMetadataKey opts payload model).
Proof.
  unfold CallSpec.carries, failoverOptions. cbn [Metadata]. intros H.
  rewrite lookup_insert_ne by exact Hkey. exact H.
Qed.

Lemma tryFailover_keyed st streamErr m evs :
  carries (opts st) -> keyed key evs ->
  match tryFailover json_Valid json_Unmarshal gjson_Exists sjson_SetBytes ResolveAutoModel
          GetProviderName RequestedModelMetadataKey M AuthManager_ExecuteStream
          rawJSON failoverTargetModel failoverEnabled st streamErr m evs with
  | Restart _ st' _ _ evs' => keyed key evs' /\ carries (opts st')
  | Surface _ _ _ evs' => keyed key evs'
  end.
Proof.
  intros Hc He. unfold tryFailover.
  destruct (_ && _ && _ && _ && _ && _); [|exact He].
  destruct (Handlers.isClaudeFailoverEligible _ _ _ _); [|exact He].
  destruct (Handlers.getRequestDetails _ _ _) as [[fp fm] [detailErr|]]; [exact He|].
  pose proof (failoverOptions_carries (opts st)
                (rewriteModelField gjson_Exists sjson_SetBytes rawJSON failoverTargetModel)
                fm Hc) as Hf.
  destruct (execStream _ _ _ _ _ _) as [[cs|e] m''].
  - split; [|exact Hf]. apply keyed_app; [exact He|]. now apply keyed_exec.
  - apply keyed_app; [exact He|]. now apply keyed_exec.
Qed.

Lemma handleStreamErr_keyed st streamErr m :
  carries (opts st) ->
  match handleStreamErr json_Valid json_Unmarshal gjson_Exists sjson_SetBytes ResolveAutoModel
          GetProviderName RequestedModelMetadataKey M AuthManager_ExecuteStream
          rawJSON failoverTargetModel failoverEnabled maxBootstrapRetries st streamErr m with
  | Restart _ st' _ _ evs => keyed key evs /\ carries (opts st')
  | Surface _ _ _ evs => keyed key evs
  end.
Proof.
  intros Hc. unfold handleStreamErr.
  destruct (_ && _ && _).
  - destruct (execStream _ _ _ _ _ _) as [[cs|e] m''].
    + split; [now apply keyed_exec|exact Hc].
    + apply tryFailover_keyed; [exact Hc|now apply keyed_exec].
  - apply tryFailover_keyed; [exact Hc|apply keyed_nil].
Qed.

Lemma recvLoop_keyed restart :
  (forall st chunks m tick tr mf,
     carries (opts st) -> restart st chunks m tick = Some (tr, mf) -> keyed key tr) ->
  forall chunks m st tick tr mf,
    carries (opts st) ->
    recvLoop json_Valid json_Unmarshal gjson_Exists sjson_SetBytes ResolveAutoModel
      GetProviderName RequestedModelMetadataKey M AuthManager_ExecuteStream
      ctx rawJSON failoverTargetModel failoverEnabled maxBootstrapRetries
      restart m chunks st tick = Some (tr, mf) ->
    keyed key tr.
Proof.
  intros Hrestart. induction chunks as [|chunk rest IH]; intros m st tick tr mf Hc; simpl.
  { intros [= <- _]. apply keyed_nil. }
  destruct (done ctx tick); [intros [= <- _]; apply keyed_nil|].
  destruct (chunkErr chunk) as [streamErr|].
  - pose proof (handleStreamErr_keyed st streamErr m Hc) as Hk.
    destruct (handleStreamErr _ _ _ _ _ _ _ _ _ _ _ _ _ _ _ _)
      as [st' chunks' m' evs | err m' evs].
    + destruct Hk as [Hk Hc'].
      destruct (restart st' chunks' m' (S tick)) as [[tr' mf']|] eqn:Er; [|discriminate].
      intros [= <- _]. apply keyed_other; [reflexivity|].
      apply keyed_app; [exact Hk|]. eapply Hrestart; eauto.
    + intros [= <- _]. apply keyed_other; [reflexivity|].
      apply keyed_app; [exact Hk|].
      destruct (done ctx (S tick)); [apply keyed_nil|].
      apply keyed_other; [reflexivity|apply keyed_nil].
  - destruct (0 <? len (chunkPayload chunk))%nat.
    + destruct (done ctx (S tick));
        [intros [= <- _]; apply keyed_other; [reflexivity|apply keyed_nil]|].
      destruct (recvLoop _ _ _ _ _ _ _ _ _ _ _ _ _ _ _ _ _ _ _)
        as [[tr' mf']|] eqn:Er; [|discriminate].
      intros [= <- _]. apply keyed_other; [reflexivity|]. apply keyed_other; [reflexivity|].
      apply (IH m (payloadSent st) _ _ _ Hc Er).
    + destruct (recvLoop _ _ _ _ _ _ _ _ _ _ _ _ _ _ _ _ _ _ _)
        as [[tr' mf']|] eqn:Er; [|discriminate].
      intros [= <- _]. apply keyed_other; [reflexivity|]. apply (IH _ _ _ _ _ Hc Er).
Qed.

Lemma streamLoop_keyed fuel : forall st chunks m tick tr mf,
  carries (opts st) ->
  streamLoop json_Valid json_Unmarshal gjson_Exists sjson_SetBytes ResolveAutoModel
    GetProviderName RequestedModelMetadataKey M AuthManager_ExecuteStream
    ctx rawJSON failoverTargetModel failoverEnabled maxBootstrapRetries
    fuel st chunks m tick = Some (tr, mf) ->
  keyed key tr.
Proof.
  induction fuel as [|fuel IH]; intros st chunks m tick tr mf Hc; simpl; [discriminate|].
  apply recvLoop_keyed; [exact IH|exact Hc].
Qed.

End Keys.

End Streams.


Lemma keyed_cons_exec key providers req opts tr :
  carries key opts -> keyed key tr -> keyed key (EvExec providers req opts :: tr).
Proof. intros H Ht ps rq op [[= _ _ <-]|Hin]; [exact H|eauto]. Qed.

Section Idempotency.

Variable json_Valid : string -> bool.
Variable json_Unmarshal : string -> option errorEnvelope.
Variable gjson_Exists : bytes -> string -> bool.
Variable sjson_SetBytes : bytes -> string -> string -> option bytes.
Variable ResolveAutoModel : string -> string.
Variable GetProviderName : string -> list string.
Variable newUUID : string.
Variable RequestedModelMetadataKey : string.
Variable M : Type.

Hypothesis Hkey : RequestedModelMetadataKey <> "idempotency_key".

Lemma first_options_carry ctx model stream alt raw handlerType :
  carries (requestKey newUUID ctx)
    {| Stream := stream; Alt := alt; OriginalRequest := raw; SourceFormat := handlerType;
       Metadata := <[RequestedModelMetadataKey := model]>
                     (requestExecutionMetadata newUUID ctx) |}.
Proof.
  unfold carries, requestKey, requestExecutionMetadata, idempotencyKeyMetadataKey.
  cbn [Metadata]. rewrite lookup_insert_ne by exact Hkey.
  rewrite lookup_singleton_eq. now destruct ctx.
Qed.

Ltac keyed_tac Hc Hf :=
  repeat first
    [ apply keyed_nil
    | apply keyed_other; [reflexivity|]
    | apply keyed_cons_exec; [first [exact Hc | exact Hf]|] ].

Lemma Execute_keyed
    (exec : M -> list string -> Request -> Options -> (Response + GoError) * M)
    ctx m handlerType modelName rawJSON alt :
  keyed (requestKey newUUID ctx)
    (snd (fst (ExecuteWithAuthManager json_Valid json_Unmarshal gjson_Exists sjson_SetBytes
                 ResolveAutoModel GetProviderName newUUID RequestedModelMetadataKey M exec
                 ctx m handlerType modelName rawJSON alt))).
Proof.
  unfold ExecuteWithAuthManager.
  destruct (Handlers.resolveRequest _ _ _ _ _ _ _ _ _) as [[[raw providers] model]|errMsg];
    [|cbn; apply keyed_other; [reflexivity|apply keyed_nil]].
  pose proof (first_options_carry ctx model false alt raw handlerType) as Hc.
  set (opts := {| Stream := false; Alt := alt; OriginalRequest := raw;
                  SourceFormat := handlerType; Metadata := _ |}) in *.
  unfold execOnce.
  destruct (exec m providers _ opts) as [[resp|err] m1]; [cbn; keyed_tac Hc Hc|].
  destruct (match apiKeyPolicyFromContext ctx with
            | Some _ => Config.ClaudeFailoverTargetModel (apiKeyPolicyFromContext ctx)
            | None => ("", false)
            end) as [targetModel enabled].
  destruct (_ && _ && _ && _); [|cbn; keyed_tac Hc Hc].
  destruct (Handlers.isClaudeFailoverEligible _ _ _ _); [|cbn; keyed_tac Hc Hc].
  destruct (Handlers.getRequestDetails _ _ _) as [[fp fm] [detailErr|]];
    [cbn; keyed_tac Hc Hc|].
  pose proof (failoverOptions_carries RequestedModelMetadataKey Hkey _ opts
                (rewriteModelField gjson_Exists sjson_SetBytes raw targetModel) fm Hc) as Hf.
  destruct (exec m1 fp _ _) as [[fresp|ferr] m2]; cbn; keyed_tac Hc Hf.
Qed.

Lemma ExecuteStream_keyed
    (execStream' : M -> list string -> Request -> Options -> (list StreamChunk + GoError) * M)
    fuel cfg ctx m handlerType modelName rawJSON alt tr mf :
  ExecuteStreamWithAuthManager json_Valid json_Unmarshal gjson_Exists sjson_SetBytes
    ResolveAutoModel GetProviderName newUUID RequestedModelMetadataKey M execStream'
    fuel cfg ctx m handlerType modelName rawJSON alt = Some (tr, mf) ->
  keyed (requestKey newUUID ctx) tr.
Proof.
  unfold ExecuteStreamWithAuthManager.
  destruct (Handlers.resolveRequest _ _ _ _ _ _ _ _ _) as [[[raw ps] nm]|errMsg];
    [|intros [= <- _]; apply keyed_other; [reflexivity|apply keyed_nil]].
  pose proof (first_options_carry ctx nm true alt raw handlerType) as Hc.
  set (opts := {| Stream := true; Alt := alt; OriginalRequest := raw;
                  SourceFormat := handlerType; Metadata := _ |}) in *.
  destruct (match apiKeyPolicyFromContext ctx with
            | Some policy => Config.ClaudeFailoverTargetModel (Some policy)
            | None => ("", false)
            end) as [target enabled].
  destruct (execStream _ _ _ _ _ _) as [[chunks|execErr] m1].
  - destruct (streamLoop _ _ _ _ _ _ _ _ _ _ _ _ _ _ _ _ _ _ _) as [[tr' mf']|] eqn:El;
      [|discriminate].
    intros [= <- _]. apply keyed_cons_exec; [exact Hc|].
    eapply streamLoop_keyed in El; [exact El|exact Hkey|exact Hc].
  - destruct (_ && _ && _ && _ && _); [|intros [= <- _]; keyed_tac Hc Hc].
    destruct (Handlers.getRequestDetails _ _ _) as [[fp fm] [detailErr|]];
      [intros [= <- _]; keyed_tac Hc Hc|].
    pose proof (failoverOptions_carries RequestedModelMetadataKey Hkey _ opts
                  (rewriteModelField gjson_Exists sjson_SetBytes raw target) fm Hc) as Hf.
    destruct (execStream _ _ _ _ _ _) as [[chunks|execErr'] m2];
      [|intros [= <- _]; keyed_tac Hc Hf].
    destruct (streamLoop _ _ _ _ _ _ _ _ _ _ _ _ _ _ _ _ _ _ _) as [[tr' mf']|] eqn:El;
      [|discriminate].
    intros [= <- _].
    apply keyed_cons_exec; [exact Hc|]. apply keyed_cons_exec; [exact Hf|].
    eapply streamLoop_keyed in El; [exact El|exact Hkey|exact Hf].
Qed.

End Idempotency.

(** X20.  One request, one idempotency key.  Every call that a request makes
    to the credential manager, the first one, a failover and, on the
    streaming path, every bootstrap retry, carries the same idempotency key
    in its metadata: the client's Idempotency-Key when there is one, and one
    fresh UUID otherwise.  This holds for plain, token-count and streaming
    requests, as long as the model is not stored under the key
    "idempotency_key" itself. *)
Theorem idempotency_key_kept
    (json_Valid : string -> bool) (json_Unmarshal : string -> option errorEnvelope)
    (gjson_Exists : bytes -> string -> bool)
    (sjson_SetBytes : bytes -> string -> string -> option bytes)
    (ResolveAutoModel : string -> string) (GetProviderName : string -> list string)
    (newUUID RequestedModelMetadataKey : string) (M : Type)
    (AuthManager_Execute AuthManager_ExecuteCount :
       M -> list string -> Request -> Options -> (Response + GoError) * M)
    (AuthManager_ExecuteStream :
       M -> list string -> Request -> Options -> (list StreamChunk + GoError) * M)
    (cfg : option SDKConfig) (ctx : option Context) (m : M)
    (handlerType modelName : string) (rawJSON : bytes) (alt : string) :
  RequestedModelMetadataKey <> "idempotency_key" ->
  keyed (requestKey newUUID ctx)
    (snd (fst (ExecuteWithAuthManager json_Valid json_Unmarshal gjson_Exists sjson_SetBytes
                 ResolveAutoModel GetProviderName newUUID RequestedModelMetadataKey M
                 AuthManager_Execute ctx m handlerType modelName rawJSON alt)))
  /\ keyed (requestKey newUUID ctx)
       (snd (fst (ExecuteCountWithAuthManager json_Valid json_Unmarshal gjson_Exists
                    sjson_SetBytes ResolveAutoModel GetProviderName newUUID
                    RequestedModelMetadataKey M AuthManager_ExecuteCount
                    ctx m handlerType modelName rawJSON alt)))
  /\ exists tr mf,
       ExecuteStreamWithAuthManager json_Valid json_Unmarshal gjson_Exists sjson_SetBytes
         ResolveAutoModel GetProviderName newUUID RequestedModelMetadataKey M
         AuthManager_ExecuteStream (streamFuel cfg) cfg ctx m handlerType modelName rawJSON alt
       = Some (tr, mf)
       /\ keyed (requestKey newUUID ctx) tr.
Proof.
  intros Hkey. split; [now apply Execute_keyed|]. split; [now apply Execute_keyed|].
  destruct (StreamFacts.ExecuteStream_total json_Valid json_Unmarshal gjson_Exists
              sjson_SetBytes ResolveAutoModel GetProviderName newUUID
              RequestedModelMetadataKey M AuthManager_ExecuteStream
              cfg ctx m handlerType modelName rawJSON alt) as [[tr mf] Hrun].
  exists tr, mf. split; [exact Hrun|]. now apply ExecuteStream_keyed in Hrun.
Qed.

Lemma idempotency_key_kept_witness :
  keyed "uuid-1" (snd (fst Scenario.runExecute))
  /\ keyed "uuid-1" (snd (fst Scenario.runExecute))
  /\ exists tr mf,
       Scenario.runStream Scenario.testExecuteStream None = Some (tr, mf)
       /\ keyed "uuid-1" tr.
Proof.
  exact (idempotency_key_kept (fun _ => false) (fun _ => None) (fun _ _ => true)
           Scenario.testSetBytes (fun model => model) Scenario.testRegistry
           "uuid-1" "requested_model" unit Scenario.testExecute Scenario.testExecute
           Scenario.testExecuteStream None Scenario.testContext tt "claude" "claude-opus-4-6"
           Scenario.clientRequest "" ltac:(discriminate)).
Defined.

End HandlersExtra.

(** ** The management endpoints of the policies *)

Module ManagementExtra.
Import GoStrings StringsSpec GoStringsFacts Config ConfigSpec ConfigFacts FailoverSpec
  ConfigExtra Management EndpointSpec.

Lemma find_hd {A} (f : A -> bool) l : find f l = hd_error (List.filter f l).
Proof.
  induction l as [|a l IH]; [reflexivity|]. cbn [find List.filter].
  destruct (f a); [reflexivity|exact IH].
Qed.

Lemma filter_insert_miss {A} (f : A -> bool) l : forall i a e,
  l !! i = Some a -> f a = false -> f e = false ->
  List.filter f (<[i := e]> l) = List.filter f l.
Proof.
  induction l as [|b l IH]; intros [|i] a e Hi Ha He; try discriminate.
  - injection Hi as ->. cbn. now rewrite Ha, He.
  - change (<[S i := e]> (b :: l)) with (b :: <[i := e]> l). cbn [List.filter].
    now rewrite (IH i a e Hi Ha He).
Qed.

Lemma filter_filter_keep {A} (f g : A -> bool) l :
  (forall x, f x = true -> g x = true) ->
  List.filter f (List.filter g l) = List.filter f l.
Proof.
  intros H. induction l as [|a l IH]; [reflexivity|]. cbn [List.filter].
  destruct (g a) eqn:Hg; cbn [List.filter].
  - now rewrite IH.
  - destruct (f a) eqn:Hf; [rewrite (H a Hf) in Hg; discriminate|exact IH].
Qed.

Lemma find_unique_In {A} (f : A -> bool) l e :
  In e l -> f e = true -> (forall y, In y l -> f y = true -> y = e) -> find f l = Some e.
Proof.
  intros Hin He Hu. destruct (find f l) as [y|] eqn:Hf.
  - apply find_some in Hf as [Hy Hfy]. now rewrite (Hu y Hy Hfy).
  - rewrite (find_none _ _ Hf e Hin) in He. discriminate.
Qed.

Lemma findIndex_spec policies apiKey :
  match findIndex policies apiKey with
  | Some i =>
      exists e, policies !! i = Some e /\ hasKey apiKey e = true
                /\ find (hasKey apiKey) policies = Some e
                /\ forall d, nth i policies d = e
  | None => find (hasKey apiKey) policies = None
  end.
Proof.
  induction policies as [|p rest IH]; [reflexivity|].
  cbn [findIndex find].
  change (String.eqb (TrimSpace (APIKey p)) apiKey) with (hasKey apiKey p).
  destruct (hasKey apiKey p) eqn:Hp.
  - exists p. split; [reflexivity|]. split; [exact Hp|]. split; reflexivity.
  - destruct (findIndex rest apiKey) as [i|]; [|exact IH].
    destruct IH as (e & H1 & H2 & H3 & H4). exists e.
    split; [exact H1|]. split; [exact H2|]. split; [exact H3|]. intros d. apply H4.
Qed.

Section Endpoints.

Variable NormalizeExcludedModels : list string -> list string.
Variable rangeMap : gmap string Z -> list (string * Z).

Abbreviation Sanitize := (Management.Sanitize NormalizeExcludedModels rangeMap).
Abbreviation sanitizeEntry := (Config.sanitizeEntry NormalizeExcludedModels rangeMap).
Abbreviation applyPatch := (Management.applyPatch NormalizeExcludedModels).

(** Looking a key up after sanitising, by the entries that carry it. *)
Lemma Find_Sanitize policies apiKey :
  FindAPIKeyPolicy (Sanitize policies) apiKey
  = if String.eqb (TrimSpace apiKey) "" then None
    else option_map sanitizeEntry
           (hd_error (rev (List.filter (hasKey (TrimSpace apiKey)) policies))).
Proof.
  unfold Management.Sanitize. rewrite FindAPIKeyPolicy_sanitized. unfold FindAPIKeyPolicy.
  destruct (String.eqb (TrimSpace apiKey) ""); [reflexivity|].
  change (fun p => String.eqb (TrimSpace (APIKey p)) (TrimSpace apiKey))
    with (hasKey (TrimSpace apiKey)).
  now rewrite find_hd, List.filter_rev.
Qed.

(** X22.  Deleting the policy of a key.  The key is the query parameter
    "api-key" or, when that is blank, "apiKey", trimmed.  When some entry
    carries the key, the handler persists a configuration in which the key is
    no longer found, while every other key is found exactly as in the
    sanitised configuration before.  Otherwise it answers 404 "item not
    found", or 400 "missing api-key" for a blank key, and leaves the
    configuration as it was. *)
Theorem DeleteAPIKeyPolicies_removes (policies : list APIKeyPolicy) (qDash qCamel : string) :
  let apiKey := if String.eqb (TrimSpace qDash) "" then TrimSpace qCamel else TrimSpace qDash in
  let present := exists p, In p policies /\ TrimSpace (APIKey p) = apiKey in
  match DeleteAPIKeyPolicies NormalizeExcludedModels rangeMap (Some policies) qDash qCamel with
  | (Persist, cfg') =>
      apiKey <> "" /\ present
      /\ exists policies',
           cfg' = Some policies'
           /\ FindAPIKeyPolicy policies' apiKey = None
           /\ forall other, TrimSpace other <> apiKey ->
                FindAPIKeyPolicy policies' other = FindAPIKeyPolicy (Sanitize policies) other
  | (JSONError status msg, cfg') =>
      cfg' = Some policies
      /\ ((status = 400%Z /\ msg = "missing api-key" /\ apiKey = "")
          \/ (status = 404%Z /\ msg = "item not found" /\ apiKey <> "" /\ ~ present))
  end.
Proof.
  intros apiKey present. unfold DeleteAPIKeyPolicies. fold apiKey.
  destruct (String.eqb_spec apiKey "") as [Ek|Hk]; cbn [negb].
  { split; [reflexivity|]. left. auto. }
  set (keep := fun v : APIKeyPolicy => negb (String.eqb (TrimSpace (APIKey v)) apiKey)).
  assert (Htrim : TrimSpace apiKey = apiKey).
  { subst apiKey. destruct (String.eqb (TrimSpace qDash) ""); apply TrimSpace_idem. }
  destruct (Nat.eqb_spec (length (List.filter keep policies)) (length policies)) as [Hl|Hl].
  - split; [reflexivity|]. right. repeat split; auto.
    intros (p & Hin & Hp). apply filter_length_forallb in Hl.
    rewrite forallb_forall in Hl. specialize (Hl p Hin). unfold keep in Hl.
    rewrite Hp, String.eqb_refl in Hl. discriminate.
  - split; [exact Hk|]. split.
    + destruct (forallb keep policies) eqn:Hall.
      * exfalso. apply Hl. clear Hl. rewrite forallb_forall in Hall.
        induction policies as [|a l IH]; [reflexivity|]. cbn [List.filter].
        rewrite (Hall a) by now left. cbn [length]. f_equal. apply IH.
        intros x Hx. apply Hall. now right.
      * assert (Hex : exists p, In p policies /\ keep p = false).
        { clear Hl. induction policies as [|a l IH]; [discriminate|].
          cbn [forallb] in Hall. destruct (keep a) eqn:Ha.
          - destruct (IH Hall) as (p & Hp & Hkp). exists p. split; [now right|exact Hkp].
          - exists a. split; [now left|exact Ha]. }
        destruct Hex as (p & Hin & Hp). exists p. split; [exact Hin|].
        unfold keep in Hp. apply negb_false_iff in Hp. now apply String.eqb_eq.
    + eexists. split; [reflexivity|]. split.
      * rewrite Find_Sanitize, Htrim. apply String.eqb_neq in Hk. rewrite Hk.
        replace (List.filter (hasKey apiKey) (List.filter keep policies)) with (@nil APIKeyPolicy);
          [reflexivity|].
        symmetry. clear. induction policies as [|a l IH]; [reflexivity|].
        cbn [List.filter].
        assert (Hka : keep a = negb (hasKey apiKey a)) by reflexivity. rewrite Hka.
        destruct (hasKey apiKey a) eqn:Ha; cbn [negb List.filter]; [exact IH|].
        rewrite Ha. exact IH.
      * intros other Ho. rewrite !Find_Sanitize.
        rewrite (filter_filter_keep (hasKey (TrimSpace other)) keep); [reflexivity|].
        intros x Hx. unfold hasKey in Hx. apply String.eqb_eq in Hx. unfold keep.
        rewrite Hx. apply negb_true_iff. now apply String.eqb_neq.
Qed.

(** X23.  Patching the policy of a key that is not renamed.  Provided the
    configuration holds at most one entry for the key, as every sanitised
    configuration does, the handler persists a configuration in which the key
    is found with the patched policy, sanitised: the policy found before, or
    a new one for the key, with the fields of the patch written over it.
    Every other key is found exactly as in the sanitised configuration
    before. *)
Theorem PatchAPIKeyPolicies_applies (policies : list APIKeyPolicy) (bodyKey : string)
    (value : policyPatch) :
  let apiKey := TrimSpace bodyKey in
  let entry := match FindAPIKeyPolicy policies apiKey with
               | Some e => e
               | None => newPolicy apiKey
               end in
  apiKey <> "" -> patchAPIKey value = None ->
  (forall i j p q, policies !! i = Some p -> policies !! j = Some q ->
     hasKey apiKey p = true -> hasKey apiKey q = true -> i = j) ->
  exists policies',
    PatchAPIKeyPolicies NormalizeExcludedModels rangeMap (Some policies)
      (Some (bodyKey, Some value)) = (Persist, Some policies')
    /\ FindAPIKeyPolicy policies' apiKey = Some (sanitizeEntry (applyPatch entry value))
    /\ forall other, TrimSpace other <> apiKey ->
         FindAPIKeyPolicy policies' other = FindAPIKeyPolicy (Sanitize policies) other.
Proof.
  intros apiKey entry Hk Hpatch Huniq.
  assert (Htrim : TrimSpace apiKey = apiKey) by apply TrimSpace_idem.
  unfold PatchAPIKeyPolicies. fold apiKey.
  apply String.eqb_neq in Hk as Hkb. rewrite Hkb, Hpatch.
  assert (Hentry : entry = match find (hasKey apiKey) policies with
                           | Some e => e
                           | None => newPolicy apiKey
                           end).
  { subst entry. unfold FindAPIKeyPolicy. rewrite Htrim, Hkb. reflexivity. }
  pose proof (findIndex_spec policies apiKey) as Hidx.
  destruct (findIndex policies apiKey) as [i|].
  - destruct Hidx as (e & Hi & He & Hf & Hn). rewrite Hf in Hentry. rewrite (Hn _).
    subst entry. rewrite Hentry. clear Hentry.
    set (e' := applyPatch e value).
    assert (He' : hasKey apiKey e' = true) by exact He.
    eexists. split; [reflexivity|]. split.
    + unfold Management.Sanitize. rewrite FindAPIKeyPolicy_sanitized.
      unfold FindAPIKeyPolicy. rewrite Htrim, Hkb.
      change (fun p => String.eqb (TrimSpace (APIKey p)) apiKey) with (hasKey apiKey).
      rewrite (find_unique_In (hasKey apiKey) _ e'); [reflexivity| |exact He'|].
      * apply in_rev. rewrite rev_involutive. apply list_elem_of_In.
        apply list_elem_of_lookup. exists i. rewrite list_lookup_insert_eq; [reflexivity|].
        now apply lookup_lt_Some in Hi.
      * intros y Hy Hfy. apply in_rev in Hy.
        apply list_elem_of_In, list_elem_of_lookup in Hy as [j Hj].
        destruct (Nat.eq_dec j i) as [->|Hji].
        -- rewrite list_lookup_insert_eq in Hj by now apply lookup_lt_Some in Hi.
           now injection Hj as <-.
        -- rewrite list_lookup_insert_ne in Hj by congruence.
           exfalso. apply Hji. now apply (Huniq j i y e).
    + intros other Ho. rewrite !Find_Sanitize.
      rewrite (filter_insert_miss _ _ i e e'); [reflexivity|exact Hi| |].
      * unfold hasKey in *. apply String.eqb_eq in He. rewrite He. now apply String.eqb_neq.
      * unfold hasKey in *. apply String.eqb_eq in He'. rewrite He'. now apply String.eqb_neq.
  - rewrite Hidx in Hentry. subst entry. rewrite Hentry. clear Hentry.
    set (e' := applyPatch (newPolicy apiKey) value).
    assert (He' : hasKey apiKey e' = true).
    { unfold hasKey, e'. cbn [Management.applyPatch APIKey newPolicy].
      rewrite Htrim. apply String.eqb_refl. }
    eexists. split; [reflexivity|]. split.
    + unfold Management.Sanitize. rewrite FindAPIKeyPolicy_sanitized.
      unfold FindAPIKeyPolicy. rewrite Htrim, Hkb.
      change (fun p => String.eqb (TrimSpace (APIKey p)) apiKey) with (hasKey apiKey).
      rewrite rev_app_distr. cbn [rev app find]. now rewrite He'.
    + intros other Ho. rewrite !Find_Sanitize, List.filter_app. cbn [List.filter].
      assert (Hoe : hasKey (TrimSpace other) e' = false).
      { unfold hasKey in *. apply String.eqb_eq in He'. rewrite He'. now apply String.eqb_neq. }
      rewrite Hoe, app_nil_r. reflexivity.
Qed.

End Endpoints.

Lemma PatchAPIKeyPolicies_applies_witness :
  exists policies',
    PatchAPIKeyPolicies (fun l => l) map_to_list (Some [GateSpec.gatePolicy])
      (Some (" k ", Some budgetPatch)) = (Persist, Some policies')
    /\ FindAPIKeyPolicy policies' "k"
       = Some (Config.sanitizeEntry (fun l => l) map_to_list
                 (Management.applyPatch (fun l => l) GateSpec.gatePolicy budgetPatch))
    /\ forall other, TrimSpace other <> "k" ->
         FindAPIKeyPolicy policies' other
         = FindAPIKeyPolicy (Management.Sanitize (fun l => l) map_to_list [GateSpec.gatePolicy])
             other.
Proof.
  apply (PatchAPIKeyPolicies_applies (fun l => l) map_to_list [GateSpec.gatePolicy] " k "
           budgetPatch).
  - vm_compute. discriminate.
  - reflexivity.
  - intros [|i] [|j] p q Hi Hj _ _; cbn in Hi, Hj; try reflexivity; discriminate.
Defined.

End ManagementExtra.

(** ** Error bodies *)

Module ErrorBodyExtra.
Import GoStrings StringsSpec GoStringsFacts Handlers EndpointSpec.

Section ErrorBody.

Variable json_Valid : string -> bool.
Variable http_StatusText : Z -> string.
Variable json_Marshal : ErrorDetail -> option bytes.
Variable sprintfFallback : string -> bytes.

Abbreviation Build :=
  (BuildErrorResponseBody json_Valid http_StatusText json_Marshal sprintfFallback).
Abbreviation wellFormed := (EndpointSpec.wellFormed json_Valid).

(** X24.  An error body is built once.  A text that is JSON once trimmed is
    passed on, trimmed, whatever the status.  And provided the marshaller and
    the fallback give bodies that are not empty, trimmed and JSON, so is
    every body that is built, and building a body from a built body, under
    any status, gives it back unchanged: the payload of an upstream error
    goes through the layers of the proxy as it is. *)
Theorem BuildErrorResponseBody_once (status status' : Z) (errText : string) :
  (forall d p, json_Marshal d = Some p -> wellFormed p) ->
  (forall t, wellFormed (sprintfFallback t)) ->
  (TrimSpace errText <> "" -> json_Valid (TrimSpace errText) = true ->
     Build status errText = TrimSpace errText)
  /\ wellFormed (Build status errText)
  /\ Build status' (Build status errText) = Build status errText.
Proof.
  intros Hmarshal Hfallback.
  assert (Hpass : forall s t, TrimSpace t <> "" -> json_Valid (TrimSpace t) = true ->
                    Build s t = TrimSpace t).
  { intros s t Ht Hv. unfold BuildErrorResponseBody.
    apply String.eqb_neq in Ht. rewrite Ht. cbv beta iota zeta. rewrite Ht, Hv. reflexivity. }
  assert (Hwf : wellFormed (Build status errText)).
  { unfold BuildErrorResponseBody.
    set (st := if (status <=? 0)%Z then StatusInternalServerError else status).
    set (text := if String.eqb (TrimSpace errText) "" then http_StatusText st else errText).
    destruct (negb (String.eqb (TrimSpace text) "") && json_Valid (TrimSpace text)) eqn:Hc.
    - apply andb_true_iff in Hc as [Hne Hv]. apply negb_true_iff, String.eqb_neq in Hne.
      split; [exact Hne|]. split; [apply TrimSpace_idem|exact Hv].
    - destruct (if (st =? StatusUnauthorized)%Z then _ else _) as [errType code].
      destruct (json_Marshal _) as [payload|] eqn:Hm; [now apply Hmarshal in Hm|].
      apply Hfallback. }
  split; [apply Hpass|]. split; [exact Hwf|].
  destruct Hwf as (Hne & Htrim & Hv).
  rewrite Hpass; rewrite Htrim; auto.
Qed.

End ErrorBody.

Lemma BuildErrorResponseBody_once_witness :
  BuildErrorResponseBody bracedJSON (fun _ => "Too Many Requests") emptyObject (fun _ => "{}")
    502
    (BuildErrorResponseBody bracedJSON (fun _ => "Too Many Requests") emptyObject
       (fun _ => "{}") 429 " {upstream} ")
  = "{upstream}".
Proof.
  destruct (BuildErrorResponseBody_once bracedJSON (fun _ => "Too Many Requests") emptyObject
              (fun _ => "{}") 429 502 " {upstream} ") as (Hpass & _ & Honce).
  - intros d p [= <-]. repeat split; discriminate.
  - intros t. repeat split; discriminate.
  - rewrite Honce. apply Hpass; [discriminate|reflexivity].
Defined.

End ErrorBodyExtra.

(** ** Sanitising twice *)

Module SanitizeExtra.
Import GoStrings StringsSpec GoStringsFacts Config ConfigSpec ConfigFacts.

Lemma sanitizeRules_idem rules : sanitizeRules (sanitizeRules rules) = sanitizeRules rules.
Proof.
  induction rules as [|rule rest IH]; [reflexivity|]. cbn [sanitizeRules FromModel RuleTargetModel].
  destruct (String.eqb (TrimSpace (FromModel rule)) ""
            || String.eqb (TrimSpace (RuleTargetModel rule)) "") eqn:E; [exact IH|].
  cbn [sanitizeRules FromModel RuleTargetModel]. rewrite !TrimSpace_idem, E, IH. reflexivity.
Qed.

Lemma f64_le0_zero : f64_le0 f64_zero = true.
Proof. reflexivity. Qed.

Section Twice.

Variable NormalizeExcludedModels : list string -> list string.
Variable rangeMap : gmap string Z -> list (string * Z).

Hypothesis NormalizeExcludedModels_idem :
  forall models, NormalizeExcludedModels (NormalizeExcludedModels models)
                 = NormalizeExcludedModels models.
Hypothesis rangeMap_entries : forall limits, rangeMap limits ≡ₚ map_to_list limits.

Abbreviation sanitizeEntry := (Config.sanitizeEntry NormalizeExcludedModels rangeMap).
Abbreviation sanitizeStep := (Config.sanitizeStep NormalizeExcludedModels rangeMap).
Abbreviation SanitizeAPIKeyPolicies :=
  (Config.SanitizeAPIKeyPolicies NormalizeExcludedModels rangeMap).

(** The loop over limits that are all in order writes each of them. *)
Lemma normalizeLimits_lookup entries : forall normalized k v,
  (forall m x, (m, x) ∈ entries -> goodLimit m x) ->
  NoDup (entries.*1) ->
  normalizeLimits entries normalized !! k = Some v
  <-> (k, v) ∈ entries \/ ((k ∉ entries.*1) /\ normalized !! k = Some v).
Proof.
  induction entries as [|[m x] rest IH]; intros normalized k v Hgood Hnd.
  { cbn. split; [intros H; right; split; [apply not_elem_of_nil|exact H]|].
    intros [H|[_ H]]; [now apply elem_of_nil in H|exact H]. }
  destruct (Hgood m x) as (Hx & Hm & Hlow & Htrim); [apply elem_of_cons; now left|].
  cbn [normalizeLimits]. rewrite Htrim, Hlow.
  apply String.eqb_neq in Hm as Hmb. rewrite Hmb.
  destruct (Z.leb_spec x 0) as [|_]; [lia|].
  cbn [fmap list_fmap fst] in Hnd. apply NoDup_cons in Hnd as [Hnotin Hnd].
  rewrite IH; [|intros m' x' Hin; apply Hgood, elem_of_cons; now right|exact Hnd].
  cbn [fmap list_fmap fst]. rewrite elem_of_cons, not_elem_of_cons. split.
  - intros [Hin|[Hk Hl]]; [left; now right|].
    destruct (decide (k = m)) as [->|Hne].
    + rewrite lookup_insert_eq in Hl. injection Hl as <-. left. now left.
    + rewrite lookup_insert_ne in Hl by congruence. right. auto.
  - intros [[[= -> ->]|Hin]|[[Hne Hk] Hl]].
    + right. split; [exact Hnotin|apply lookup_insert_eq].
    + now left.
    + right. split; [exact Hk|]. rewrite lookup_insert_ne by congruence. exact Hl.
Qed.

Lemma normalizeLimits_good_map limits :
  (forall m x, limits !! m = Some x -> goodLimit m x) ->
  normalizeLimits (rangeMap limits) ∅ = limits.
Proof.
  intros Hgood. apply map_eq. intros k. apply option_eq. intros v.
  rewrite normalizeLimits_lookup.
  - rewrite rangeMap_entries, elem_of_map_to_list, lookup_empty. split; [|now left].
    intros [H|[_ H]]; [exact H|discriminate].
  - intros m x. rewrite rangeMap_entries, elem_of_map_to_list. apply Hgood.
  - rewrite rangeMap_entries. apply NoDup_fst_map_to_list.
Qed.

Lemma sanitizeEntry_idem x : sanitizeEntry (sanitizeEntry x) = sanitizeEntry x.
Proof.
  pose proof (sanitizeEntry_limits NormalizeExcludedModels rangeMap x) as Hgood.
  unfold Config.sanitizeEntry at 1.
  set (e := sanitizeEntry x) in *.
  assert (Hkey : TrimSpace (APIKey e) = APIKey e) by apply TrimSpace_idem.
  assert (Hex : NormalizeExcludedModels (ExcludedModels e) = ExcludedModels e)
    by apply NormalizeExcludedModels_idem.
  assert (Hen : Enabled (Claude (Failover e)) = Enabled (Claude (Failover e))) by reflexivity.
  assert (Htm : TrimSpace (TargetModel (Claude (Failover e))) = TargetModel (Claude (Failover e)))
    by apply TrimSpace_idem.
  assert (Hru : (if (0 <? length (Rules (Claude (Failover e))))%nat
                 then sanitizeRules (Rules (Claude (Failover e)))
                 else Rules (Claude (Failover e))) = Rules (Claude (Failover e))).
  { destruct (0 <? length (Rules (Claude (Failover e))))%nat; [|reflexivity].
    subst e. unfold Config.sanitizeEntry. cbn [Failover Claude Rules].
    destruct (0 <? length (Rules (Claude (Failover x))))%nat eqn:El.
    - apply sanitizeRules_idem.
    - destruct (Rules (Claude (Failover x))); [reflexivity|discriminate]. }
  assert (Hli : (if (0 <? size (DailyLimits e))%nat
                 then normalizeLimits (rangeMap (DailyLimits e)) ∅
                 else DailyLimits e) = DailyLimits e).
  { destruct (0 <? size (DailyLimits e))%nat; [|reflexivity].
    now apply normalizeLimits_good_map. }
  assert (Hbu : (if f64_le0 (DailyBudgetUSD e) then f64_zero else DailyBudgetUSD e)
                = DailyBudgetUSD e).
  { subst e. unfold Config.sanitizeEntry. cbn [DailyBudgetUSD].
    destruct (f64_le0 (DailyBudgetUSD x)) eqn:Eb; [reflexivity|now rewrite Eb]. }
  rewrite Hkey, Hex, Htm, Hru, Hli, Hbu.
  destruct e as [k ex [[en tm ru]] al li bu]. reflexivity.
Qed.

(** On entries that are already sanitised and have distinct keys, the loop
    appends each of them as it is. *)
Lemma fold_sanitized suffix : forall seen out,
  (forall e, In e suffix -> TrimSpace (APIKey e) <> "" /\ sanitizeEntry e = e) ->
  NoDup (map APIKey (out ++ suffix)) ->
  (forall k idx, seen !! k = Some idx -> In k (map APIKey out)) ->
  snd (fold_left sanitizeStep suffix (seen, out)) = (out ++ suffix)%list.
Proof.
  induction suffix as [|e rest IH]; intros seen out Hgood Hnd Hseen.
  { cbn. now rewrite app_nil_r. }
  destruct (Hgood e (or_introl eq_refl)) as [Hk He].
  cbn [fold_left]. unfold Config.sanitizeStep at 2.
  apply String.eqb_neq in Hk. rewrite Hk, He.
  destruct (seen !! APIKey e) as [idx|] eqn:Hs.
  - exfalso. apply Hseen in Hs. rewrite map_app in Hnd. cbn [map] in Hnd.
    apply NoDup_app in Hnd as (_ & Hdis & _).
    apply (Hdis (APIKey e)); [now apply list_elem_of_In|]. apply elem_of_cons. now left.
  - rewrite IH.
    + now rewrite <- app_assoc.
    + intros e' He'. apply Hgood. now right.
    + now rewrite <- app_assoc.
    + intros k idx. rewrite lookup_insert. case_decide as E.
      * intros _. subst k. rewrite map_app. apply in_or_app. right. now left.
      * intros H. apply Hseen in H. rewrite map_app. apply in_or_app. now left.
Qed.

Lemma Sanitize_shape policies :
  (forall e, In e (SanitizeAPIKeyPolicies policies) ->
     TrimSpace (APIKey e) <> "" /\ sanitizeEntry e = e)
  /\ NoDup (map APIKey (SanitizeAPIKeyPolicies policies)).
Proof.
  rewrite Sanitize_fold.
  pose proof (Inv_fold NormalizeExcludedModels rangeMap policies) as HI. cbv zeta in HI.
  destruct (fold_left sanitizeStep policies (∅, [])) as [seen out].
  cbn [fst snd] in *. destruct HI as [H1 H2 H3]. split.
  - intros e He. apply list_elem_of_In, list_elem_of_lookup in He as [idx He].
    destruct (H3 idx e He) as (pre & x & post & _ & Hx & -> & _). split.
    + cbn [Config.sanitizeEntry APIKey]. now rewrite TrimSpace_idem.
    + apply sanitizeEntry_idem.
  - apply NoDup_alt. intros i j k.
    rewrite !list_lookup_fmap.
    destruct (out !! i) as [ei|] eqn:Ei; [|discriminate].
    destruct (out !! j) as [ej|] eqn:Ej; [|discriminate].
    simpl. intros [= <-] [= Hk].
    apply H2 in Ei. apply H2 in Ej. rewrite Hk in Ej. congruence.
Qed.

(** X26.  Sanitising is idempotent: the management endpoints sanitise the
    whole configuration after every change, and a configuration that has been
    sanitised comes out of that as it went in.  This holds provided
    [NormalizeExcludedModels], which lives in another file, is idempotent,
    and [range] visits each entry of a map once. *)
Theorem SanitizeAPIKeyPolicies_idempotent (policies : list APIKeyPolicy) :
  SanitizeAPIKeyPolicies (SanitizeAPIKeyPolicies policies) = SanitizeAPIKeyPolicies policies.
Proof.
  destruct (Sanitize_shape policies) as [Hgood Hnd].
  generalize dependent (SanitizeAPIKeyPolicies policies). intros out Hgood Hnd.
  rewrite Sanitize_fold.
  apply (fold_sanitized out ∅ []); [exact Hgood|exact Hnd|].
  intros k idx H. now rewrite lookup_empty in H.
Qed.

End Twice.

Lemma SanitizeAPIKeyPolicies_idempotent_witness :
  Config.SanitizeAPIKeyPolicies (fun l => l) map_to_list
    (Config.SanitizeAPIKeyPolicies (fun l => l) map_to_list samplePolicies)
  = Config.SanitizeAPIKeyPolicies (fun l => l) map_to_list samplePolicies.
Proof.
  apply (SanitizeAPIKeyPolicies_idempotent (fun l => l) map_to_list);
    [reflexivity | intros limits; reflexivity].
Defined.

End SanitizeExtra.
